(** * GolfCapture: capture pipeline, scoring, rewards and import

    A shallow embedding of the back end of the GolfCapture repository:
    [src/backend/server.js] (the first server) and [src/unnamed/part_000]
    (the extended server with the one-claim-per-email guard), over the
    relational schema of [src/unnamed/part_004].  The later sections add
    the administration routes of the extended server - team management,
    customer tags, segments, A/B tests and follow-up e-mail - over the
    tables of [src/unnamed/part_003] and [src/database].

    JavaScript strings are embedded as [string]; the case mappings and
    [trim] below are the ASCII ones, which is what [toUpperCase],
    [toLowerCase] and [trim] do on ASCII text.  SQL [NULL] and JavaScript
    [undefined]/[null] are [None].  Tables are lists of rows in storage
    order; a CSV record (a JavaScript object keyed by column header) is a
    [gmap string string].  Integer ranges and time zones are not part of the
    model, and of the column widths only that of [reward_redeemed_by],
    which the redeem routes fill from the request unchecked. *)

From Stdlib Require Import ZArith Lia Ascii String DecimalString List Bool.
From stdpp Require Import base option list gmap strings.
Import ListNotations.

Local Open Scope Z_scope.
Local Open Scope string_scope.

(** ** JavaScript values *)

Definition Id := nat.
Bind Scope nat_scope with Id.

(** Truthiness of a string-or-undefined value: [undefined], [null] and the
    empty string are falsy. *)
Definition truthy (v : option string) : bool :=
  match v with
  | Some s => negb (String.eqb s "")
  | None => false
  end.

(** [a || b] on string-or-undefined operands. *)
Definition js_or (a b : option string) : option string :=
  if truthy a then a else b.

Definition is_digit (c : ascii) : bool :=
  let n := nat_of_ascii c in (Nat.leb 48 n && Nat.leb n 57)%bool.

Definition is_space (c : ascii) : bool :=
  let n := nat_of_ascii c in
  (Nat.eqb n 32 || (Nat.leb 9 n && Nat.leb n 13))%bool.

Definition upper_ascii (c : ascii) : ascii :=
  let n := nat_of_ascii c in
  if (Nat.leb 97 n && Nat.leb n 122)%bool then ascii_of_nat (n - 32) else c.

Definition lower_ascii (c : ascii) : ascii :=
  let n := nat_of_ascii c in
  if (Nat.leb 65 n && Nat.leb n 90)%bool then ascii_of_nat (n + 32) else c.

Fixpoint map_string (f : ascii -> ascii) (s : string) : string :=
  match s with
  | EmptyString => EmptyString
  | String c r => String (f c) (map_string f r)
  end.

Definition toUpperCase (s : string) : string := map_string upper_ascii s.
Definition toLowerCase (s : string) : string := map_string lower_ascii s.

Fixpoint filter_string (p : ascii -> bool) (s : string) : string :=
  match s with
  | EmptyString => EmptyString
  | String c r => if p c then String c (filter_string p r) else filter_string p r
  end.

Fixpoint all_string (p : ascii -> bool) (s : string) : bool :=
  match s with
  | EmptyString => true
  | String c r => (p c && all_string p r)%bool
  end.

Fixpoint trim_start (s : string) : string :=
  match s with
  | EmptyString => EmptyString
  | String c r => if is_space c then trim_start r else s
  end.

Fixpoint trim_end (s : string) : string :=
  match s with
  | EmptyString => EmptyString
  | String c r =>
      match trim_end r with
      | EmptyString => if is_space c then EmptyString else String c EmptyString
      | r' => String c r'
      end
  end.

Definition trim (s : string) : string := trim_end (trim_start s).

(** [email?.toLowerCase().trim()] *)
Definition normalizeEmail (email : option string) : option string :=
  match email with
  | Some e => Some (trim (toLowerCase e))
  | None => None
  end.

(** [s.charAt(i)]: the one-character string at [i], or the empty string
    when [i] is out of range. *)
Definition charAt (s : string) (i : nat) : string :=
  match String.get i s with
  | Some c => String c EmptyString
  | None => EmptyString
  end.

(** ** Helpers of both servers *)

(** [phone.replace(/\D/g, '')] *)
Definition strip_non_digits (s : string) : string := filter_string is_digit s.

(** [digits.slice(1)] *)
Definition slice1 (s : string) : string :=
  match s with
  | EmptyString => EmptyString
  | String _ r => r
  end.

(** [digits[0] === '1'] *)
Definition starts_with_1 (s : string) : bool :=
  match s with
  | String c _ => Ascii.eqb c "1"%char
  | EmptyString => false
  end.

Definition normalizePhone (phone : option string) : option string :=
  if negb (truthy phone) then None
  else
    match phone with
    | None => None
    | Some p =>
        let digits := strip_non_digits p in
        if Nat.eqb (String.length digits) 10 then Some digits
        else if (Nat.eqb (String.length digits) 11 && starts_with_1 digits)%bool
             then Some (slice1 digits)
             else None
    end.

(** The 32-symbol alphabet of [generateRewardCode]. *)
Definition chars : string := "ABCDEFGHJKLMNPQRSTUVWXYZ23456789".

(** [generateRewardCode]: [rnd i] is the value of
    [Math.floor(Math.random() * chars.length)] at the [i]-th turn of the
    loop; [Math.random()] lies in [0, 1), so every [rnd i] is below 32. *)
Definition generateRewardCode (rnd : nat -> nat) : string :=
  fold_left (fun code i => code ++ charAt chars (rnd i)) (seq 0 6) "CP".

(** ** Rows of the schema *)

(** A row of [customers]. *)
Record Customer := mkCustomer {
  cust_id : Id;
  cust_course_id : Id;
  first_name : option string;
  last_name : option string;
  email : option string;
  phone : option string;
  zip : option string;
  booking_source : option string;
  is_local : option bool;
  play_frequency : option string;
  member_elsewhere : option bool;
  first_time_visitor : option bool;
  visit_count : Z;
  last_visit_at : option Z;
  membership_score : Z;
  is_membership_prospect : bool;
  source : string;
  source_id : option string
}.

(** [v === true] and [v === false] on a tri-state value. *)
Definition is_true (v : option bool) : bool :=
  match v with Some true => true | _ => false end.

Definition is_false (v : option bool) : bool :=
  match v with Some false => true | _ => false end.

(** [customer.play_frequency === tier] *)
Definition plays (c : Customer) (tier : string) : bool :=
  match play_frequency c with
  | Some f => String.eqb f tier
  | None => false
  end.

Definition calculateMembershipScore (customer : Customer) : Z :=
  let score := 0 in
  let score := if is_true (is_local customer) then score + 30 else score in
  let score :=
    if plays customer "weekly" then score + 25
    else if plays customer "monthly" then score + 15
    else if plays customer "rarely" then score + 5
    else score in
  let score :=
    if visit_count customer >=? 5 then score + 20
    else if visit_count customer >=? 3 then score + 15
    else if visit_count customer >=? 2 then score + 10
    else score in
  let score := if is_false (member_elsewhere customer) then score + 15 else score in
  let score :=
    if (truthy (email customer) && truthy (phone customer))%bool
    then score + 5 else score in
  let score := if truthy (zip customer) then score + 5 else score in
  Z.min score 100.

(** The point table as the specification words it: one entry per signal,
    the [visit_count] and [play_frequency] bands by their own ranges. *)
Definition points (signal : bool) (p : Z) : Z := if signal then p else 0.

(** The [play_frequency] rows of the table. *)
Definition frequency_points (c : Customer) : Z :=
  points (plays c "weekly") 25
  + points (plays c "monthly") 15
  + points (plays c "rarely") 5.

(** The [visit_count] rows of the table. *)
Definition visit_points (c : Customer) : Z :=
  points (visit_count c >=? 5) 20
  + points ((visit_count c =? 3)%Z || (visit_count c =? 4)%Z) 15
  + points (visit_count c =? 2)%Z 10.

Definition table_score (c : Customer) : Z :=
  points (is_true (is_local c)) 30
  + frequency_points c
  + visit_points c
  + points (is_false (member_elsewhere c)) 15
  + points (truthy (email c) && truthy (phone c)) 5
  + points (truthy (zip c)) 5.

(** A row of [captures].  [form_data] is the submitted body, kept as it
    came. *)
Module Body.
Record t := mk {
  courseSlug : option string;
  locationId : option Id;
  firstName : option string;
  lastName : option string;
  email : option string;
  phone : option string;
  zip : option string;
  bookingSource : option string;
  isLocal : option bool;
  playFrequency : option string;
  memberElsewhere : option bool;
  firstTime : option bool;
  chosenReward : option string
}.
End Body.

Record Capture := mkCapture {
  cap_id : Id;
  cap_course_id : Id;
  customer_id : option Id;
  location_id : option Id;
  form_data : Body.t;
  reward_code : string;
  reward_type : string;
  reward_redeemed : bool;
  reward_redeemed_at : option Z;
  reward_redeemed_by : option string
}.

Record Course := mkCourse { course_id : Id; slug : string }.

Record Location := mkLocation { loc_id : Id; loc_course_id : Id }.

(** A row of [prospect_pipeline]; [customer_id] is unique there. *)
Record PipelineEntry := mkPipelineEntry {
  pp_course_id : Id;
  pp_customer_id : Id;
  pp_status : string
}.

(** A row of [ab_test_results]. *)
Record AbResult := mkAbResult {
  ab_test_id : Id;
  ab_capture_id : Id;
  ab_redeemed : bool
}.

(** A row of [imports]. *)
Record Import := mkImport {
  imp_id : Id;
  imp_course_id : Id;
  imp_source : string;
  imp_filename : string;
  imp_status : string;
  total_rows : Z;
  processed_rows : Z;
  new_customers : Z;
  matched_customers : Z;
  skipped_rows : Z;
  errors : list (Z * string)
}.

(** A row of [import_rows], the per-row audit trail. *)
Record ImportRow := mkImportRow {
  ir_import_id : Id;
  ir_customer_id : option Id;
  row_number : Z;
  raw_data : gmap string string;
  action : string;
  match_type : option string;
  error_message : option string
}.

(** The database: the tables the modelled handlers read or write, and the
    source of fresh primary keys. *)
Record Db := mkDb {
  courses : list Course;
  locations : list Location;
  customers : list Customer;
  captures : list Capture;
  prospect_pipeline : list PipelineEntry;
  ab_test_results : list AbResult;
  imports : list Import;
  import_rows : list ImportRow;
  next_id : Id
}.

Definition with_customers (cs : list Customer) (db : Db) : Db :=
  mkDb (courses db) (locations db) cs (captures db) (prospect_pipeline db)
       (ab_test_results db) (imports db) (import_rows db) (next_id db).

Definition with_captures (cs : list Capture) (db : Db) : Db :=
  mkDb (courses db) (locations db) (customers db) cs (prospect_pipeline db)
       (ab_test_results db) (imports db) (import_rows db) (next_id db).

Definition with_pipeline (ps : list PipelineEntry) (db : Db) : Db :=
  mkDb (courses db) (locations db) (customers db) (captures db) ps
       (ab_test_results db) (imports db) (import_rows db) (next_id db).


Definition with_imports (ims : list Import) (db : Db) : Db :=
  mkDb (courses db) (locations db) (customers db) (captures db)
       (prospect_pipeline db) (ab_test_results db) ims (import_rows db) (next_id db).

Definition with_import_rows (rs : list ImportRow) (db : Db) : Db :=
  mkDb (courses db) (locations db) (customers db) (captures db)
       (prospect_pipeline db) (ab_test_results db) (imports db) rs (next_id db).

(** A generated primary key is taken: the next one is fresh. *)
Definition bump (db : Db) : Db :=
  mkDb (courses db) (locations db) (customers db) (captures db)
       (prospect_pipeline db) (ab_test_results db) (imports db) (import_rows db)
       (S (next_id db)).

(** ** A connection inside [BEGIN] ... [COMMIT]

    A handler that opens a transaction sends every statement over one
    client.  A statement either yields a result and a new database or is
    rejected; JavaScript sees the rejection as an exception.  Once a
    statement has been rejected inside the transaction block, PostgreSQL
    rejects every later statement on that connection until [ROLLBACK]. *)

Inductive exn :=
| JsError (msg : string)
| DbError (msg : string).

Definition message (e : exn) : string :=
  match e with JsError m => m | DbError m => m end.

Record Conn := mkConn { conn_db : Db; tx_failed : bool }.

(** Code that reads and writes a state [S] and may throw. *)
Definition ST (S A : Type) : Type := S -> (exn + A) * S.

Definition ret {S A} (a : A) : ST S A := fun s => (inr a, s).

Definition bind {S A B} (m : ST S A) (k : A -> ST S B) : ST S B :=
  fun s =>
    match m s with
    | (inr a, s') => k a s'
    | (inl e, s') => (inl e, s')
    end.

Definition throw {S A} (e : exn) : ST S A := fun s => (inl e, s).

(** [try { m } catch (e) { h e }] *)
Definition try_catch {S A} (m : ST S A) (h : exn -> ST S A) : ST S A :=
  fun s =>
    match m s with
    | (inl e, s') => h e s'
    | (inr a, s') => (inr a, s')
    end.

(** Code whose only state is the connection. *)
Definition M (A : Type) : Type := ST Conn A.

Declare Scope tx_scope.
Delimit Scope tx_scope with tx.
Notation "x <- m ;; k" := (bind m (fun x => k))
  (at level 100, m at next level, right associativity) : tx_scope.
Notation "m ;;; k" := (bind m (fun _ => k))
  (at level 100, right associativity) : tx_scope.

Definition Stmt (A : Type) : Type := Db -> string + A * Db.

Definition tx_aborted : string :=
  "current transaction is aborted, commands ignored until end of transaction block".

(** [await client.query(stmt)] *)
Definition query {A} (stmt : Stmt A) : M A :=
  fun c =>
    if tx_failed c then (inl (DbError tx_aborted), c)
    else
      match stmt (conn_db c) with
      | inl msg => (inl (DbError msg), mkConn (conn_db c) true)
      | inr (a, db') => (inr a, mkConn db' false)
      end.

(** A [SELECT]. *)
Definition select {A} (q : Db -> A) : Stmt A := fun db => inr (q db, db).

(** ** Statements on [customers] *)

Definition course_by_slug (s : string) (db : Db) : option Course :=
  find (fun co => bool_decide (slug co = s)) (courses db).

(** [... WHERE course_id = $1 AND email = $2] (first row) *)
Definition customer_by_email (courseId : Id) (e : string) (db : Db) : option Customer :=
  find (fun c => bool_decide (cust_course_id c = courseId) && bool_decide (email c = Some e))
       (customers db).

(** [... WHERE course_id = $1 AND phone = $2] (first row) *)
Definition customer_by_phone (courseId : Id) (p : string) (db : Db) : option Customer :=
  find (fun c => bool_decide (cust_course_id c = courseId) && bool_decide (phone c = Some p))
       (customers db).

(** [SELECT * FROM customers WHERE id = $1] (first row) *)
Definition customer_by_id (cid : Id) (db : Db) : option Customer :=
  find (fun c => bool_decide (cust_id c = cid)) (customers db).

Definition same_key (a b : option string) : bool :=
  match a, b with
  | Some x, Some y => bool_decide (x = y)
  | _, _ => false
  end.

(** Two distinct rows break [unique_email_per_course] or
    [unique_phone_per_course]. *)
Definition clashes (r c : Customer) : bool :=
  negb (bool_decide (cust_id r = cust_id c))
  && bool_decide (cust_course_id r = cust_course_id c)
  && (same_key (email r) (email c) || same_key (phone r) (phone c)).

Definition unique_violation : string :=
  "duplicate key value violates unique constraint".

(** [INSERT INTO customers ... RETURNING id] *)
Definition insert_customer (row : Id -> Customer) : Stmt Id :=
  fun db =>
    let r := row (next_id db) in
    if existsb (clashes r) (customers db) then inl unique_violation
    else inr (next_id db, with_customers (customers db ++ [r]) (bump db)).

(** [UPDATE customers SET ... WHERE id = $1] *)
Definition update_customer (cid : Id) (upd : Customer -> Customer) : Stmt unit :=
  fun db =>
    let cs := map (fun c => if bool_decide (cust_id c = cid) then upd c else c)
                  (customers db) in
    if existsb (fun r => bool_decide (cust_id r = cid) && existsb (clashes r) cs) cs
    then inl unique_violation
    else inr (tt, with_customers cs db).

(** [COALESCE(a, b)] *)
Definition coalesce {A} (a b : option A) : option A :=
  match a with Some _ => a | None => b end.

(** [UPDATE customers SET ... WHERE id = $1] on columns outside the unique
    keys. *)
Definition update_unkeyed (cid : Id) (upd : Customer -> Customer) : Stmt unit :=
  fun db =>
    inr (tt, with_customers
               (map (fun c => if bool_decide (cust_id c = cid) then upd c else c)
                    (customers db)) db).

(** ** The capture form: what both servers share *)

Inductive Response :=
| CaptureOk (rewardCode : option string) (isNewCustomer : bool) (customerId : Id)
| AlreadyClaimed
| ServerError (msg : string).

Definition default_slug : string := "crescent-pointe".

(** [courseSlug || 'crescent-pointe'] *)
Definition slug_or_default (courseSlug : option string) : string :=
  if truthy courseSlug then default default_slug courseSlug else default_slug.

(** The row of [INSERT INTO customers] in the capture handler. *)
Definition new_capture_customer (now : Z) (courseId : Id) (b : Body.t)
    (normalizedEmail normalizedPhone : option string) (i : Id) : Customer :=
  {| cust_id := i; cust_course_id := courseId;
     first_name := Body.firstName b; last_name := Body.lastName b;
     email := normalizedEmail; phone := normalizedPhone; zip := Body.zip b;
     booking_source := Body.bookingSource b; is_local := Body.isLocal b;
     play_frequency := Body.playFrequency b;
     member_elsewhere := Body.memberElsewhere b;
     first_time_visitor := Body.firstTime b;
     visit_count := 1; last_visit_at := Some now;
     membership_score := 0; is_membership_prospect := false;
     source := "capture"; source_id := None |}.

(** The [SET] list of [UPDATE customers] in the capture handler. *)
Definition merge_capture (now : Z) (b : Body.t)
    (normalizedEmail normalizedPhone : option string) (c : Customer) : Customer :=
  {| cust_id := cust_id c; cust_course_id := cust_course_id c;
     first_name := coalesce (Body.firstName b) (first_name c);
     last_name := coalesce (Body.lastName b) (last_name c);
     email := coalesce normalizedEmail (email c);
     phone := coalesce normalizedPhone (phone c);
     zip := coalesce (Body.zip b) (zip c);
     booking_source := coalesce (Body.bookingSource b) (booking_source c);
     is_local := coalesce (Body.isLocal b) (is_local c);
     play_frequency := coalesce (Body.playFrequency b) (play_frequency c);
     member_elsewhere := coalesce (Body.memberElsewhere b) (member_elsewhere c);
     first_time_visitor := first_time_visitor c;
     visit_count := visit_count c + 1; last_visit_at := Some now;
     membership_score := membership_score c;
     is_membership_prospect := is_membership_prospect c;
     source := source c; source_id := source_id c |}.

(** [SET membership_score = $1, is_membership_prospect = $2] *)
Definition set_score (score : Z) (isProspect : bool) (c : Customer) : Customer :=
  {| cust_id := cust_id c; cust_course_id := cust_course_id c;
     first_name := first_name c; last_name := last_name c;
     email := email c; phone := phone c; zip := zip c;
     booking_source := booking_source c; is_local := is_local c;
     play_frequency := play_frequency c; member_elsewhere := member_elsewhere c;
     first_time_visitor := first_time_visitor c;
     visit_count := visit_count c; last_visit_at := last_visit_at c;
     membership_score := score; is_membership_prospect := isProspect;
     source := source c; source_id := source_id c |}.

(** [score >= 60 && row.is_local === true] *)
Definition prospect_rule (score : Z) (row : Customer) : bool :=
  (score >=? 60) && is_true (is_local row).

(** "Calculate and update membership score": returns [isProspect]. *)
Definition rescore (customerId : Id) : M bool :=
  (customerData <- query (select (customer_by_id customerId));;
   match customerData with
   | None => throw (JsError "Cannot read properties of undefined")
   | Some row =>
       let score := calculateMembershipScore row in
       let isProspect := prospect_rule score row in
       query (update_unkeyed customerId (set_score score isProspect));;;
       ret isProspect
   end)%tx.

Definition fk_violation : string := "violates foreign key constraint".

(** [INSERT INTO captures ... RETURNING id]; [location_id] references
    [locations]. *)
Definition insert_capture (row : Id -> Capture) : Stmt Id :=
  fun db =>
    let r := row (next_id db) in
    let known :=
      match location_id r with
      | None => true
      | Some l => existsb (fun x => bool_decide (loc_id x = l)) (locations db)
      end in
    if known then inr (next_id db, with_captures (captures db ++ [r]) (bump db))
    else inl fk_violation.

Definition capture_row (courseId customerId : Id) (b : Body.t)
    (rewardCode rewardType : string) (i : Id) : Capture :=
  {| cap_id := i; cap_course_id := courseId; customer_id := Some customerId;
     location_id := Body.locationId b; form_data := b;
     reward_code := rewardCode; reward_type := rewardType;
     reward_redeemed := false; reward_redeemed_at := None;
     reward_redeemed_by := None |}.

(** An optional key is looked up only when it is truthy. *)
Definition lookup_if_present (key : option string)
    (q : string -> Db -> option Customer) : M (option Customer) :=
  match key with
  | Some k => if truthy key then query (select (q k)) else ret None
  | None => ret None
  end.

(** Insert or update, by [isNewCustomer]; returns the customer id. *)
Definition upsert_capture_customer (now : Z) (courseId : Id) (b : Body.t)
    (normalizedEmail normalizedPhone : option string)
    (customerId : option Id) : M Id :=
  match customerId with
  | None =>
      query (insert_customer
               (new_capture_customer now courseId b normalizedEmail normalizedPhone))
  | Some cid =>
      (query (update_customer cid
                (merge_capture now b normalizedEmail normalizedPhone));;;
       ret cid)%tx
  end.

(** ** [POST /api/capture] of [src/backend/server.js] *)
Module ServerJs.

Definition capture_tx (now : Z) (rnd : nat -> nat) (b : Body.t) : M Response :=
  (courseResult <-
     query (select (course_by_slug (slug_or_default (Body.courseSlug b))));;
   match courseResult with
   | None => throw (JsError "Course not found")
   | Some course =>
       let courseId := course_id course in
       let normalizedPhone := normalizePhone (Body.phone b) in
       let normalizedEmail := normalizeEmail (Body.email b) in
       existingByEmail <-
         lookup_if_present normalizedEmail (customer_by_email courseId);;
       let customerId := option_map cust_id existingByEmail in
       existingByPhone <-
         match customerId with
         | None => lookup_if_present normalizedPhone (customer_by_phone courseId)
         | Some _ => ret None
         end;;
       let customerId :=
         match existingByPhone with
         | Some row => Some (cust_id row)
         | None => customerId
         end in
       let isNewCustomer := bool_decide (customerId = None) in
       customerId <-
         upsert_capture_customer now courseId b normalizedEmail normalizedPhone
                                 customerId;;
       rescore customerId;;;
       let rewardCode := generateRewardCode rnd in
       query (insert_capture
                (capture_row courseId customerId b rewardCode "free_beer"));;;
       ret (CaptureOk (Some rewardCode) isNewCustomer customerId)
   end)%tx.

(** The handler: [BEGIN], the body, [COMMIT]; any exception rolls back. *)
Definition capture (now : Z) (rnd : nat -> nat) (b : Body.t) (db : Db)
    : Response * Db :=
  match capture_tx now rnd b (mkConn db false) with
  | (inr r, c) => (r, conn_db c)
  | (inl e, _) => (ServerError (message e), db)
  end.

End ServerJs.

(** ** [POST /api/capture] of [src/unnamed/part_000] *)
Module Part000.

Inductive Outcome :=
| Claimed
| Stored (isNewCustomer : bool) (customerId : Id).

(** [SELECT id, reward_code FROM captures WHERE customer_id = $1 LIMIT 1]
    has a row. *)
Definition has_capture (customerId : Id) (db : Db) : bool :=
  existsb (fun c => bool_decide (customer_id c = Some customerId)) (captures db).

(** The join of [captures] and [customers] on [customer_id], restricted to
    [cu.course_id = $1 AND cu.email = $2], has a row. *)
Definition email_has_capture (courseId : Id) (e : string) (db : Db) : bool :=
  existsb
    (fun c =>
       existsb
         (fun cu =>
            bool_decide (customer_id c = Some (cust_id cu))
            && bool_decide (cust_course_id cu = courseId)
            && bool_decide (email cu = Some e))
         (customers db))
    (captures db).

(** [(rewardMap[chosenReward] || rewardMap.free_beer).type], for the keys
    of [rewardMap]. *)
Definition reward_type_of (chosenReward : option string) : string :=
  match chosenReward with
  | Some r =>
      if bool_decide (r = "free_soft_drink") then r
      else if bool_decide (r = "pro_shop_5") then r
      else if bool_decide (r = "food_bev_5") then r
      else "free_beer"
  | None => "free_beer"
  end.

(** [INSERT INTO prospect_pipeline ... ON CONFLICT (customer_id) DO NOTHING] *)
Definition enroll_prospect (courseId customerId : Id) : Stmt unit :=
  fun db =>
    if existsb (fun p => bool_decide (pp_customer_id p = customerId))
               (prospect_pipeline db)
    then inr (tt, db)
    else inr (tt, with_pipeline
                    (prospect_pipeline db ++ [mkPipelineEntry courseId customerId "new"])
                    db).

Definition capture_tx (now : Z) (rnd : nat -> nat) (b : Body.t) : M Outcome :=
  (courseResult <-
     query (select (course_by_slug (slug_or_default (Body.courseSlug b))));;
   match courseResult with
   | None => throw (JsError "Course not found")
   | Some course =>
       let courseId := course_id course in
       let normalizedPhone := normalizePhone (Body.phone b) in
       let normalizedEmail := normalizeEmail (Body.email b) in
       existingByEmail <-
         lookup_if_present normalizedEmail (customer_by_email courseId);;
       let customerId := option_map cust_id existingByEmail in
       captureCheck <-
         match customerId with
         | Some cid => query (select (has_capture cid))
         | None => ret false
         end;;
       if captureCheck then ret Claimed
       else
         directCaptureCheck <-
           match normalizedEmail with
           | Some e =>
               if truthy normalizedEmail
               then query (select (email_has_capture courseId e))
               else ret false
           | None => ret false
           end;;
         if directCaptureCheck then ret Claimed
         else
           let isNewCustomer := bool_decide (customerId = None) in
           customerId <-
             upsert_capture_customer now courseId b normalizedEmail
                                     normalizedPhone customerId;;
           isProspect <- rescore customerId;;
           let rewardCode := generateRewardCode rnd in
           query (insert_capture
                    (capture_row courseId customerId b rewardCode
                                 (reward_type_of (Body.chosenReward b))));;;
           (if isProspect
            then query (enroll_prospect courseId customerId)
            else ret tt);;;
           ret (Stored isNewCustomer customerId)
   end)%tx.

(** The handler.  The already-claimed exits roll back and answer 400; an
    exception rolls back and answers 500.  After [COMMIT] the reply masks
    [normalizedEmail], which throws when there is none: the reply is then
    500 although the transaction is committed.  The reward mail and the
    follow-up queue, written after the commit, are outside the model. *)
Definition capture (now : Z) (rnd : nat -> nat) (b : Body.t) (db : Db)
    : Response * Db :=
  match capture_tx now rnd b (mkConn db false) with
  | (inl e, _) => (ServerError (message e), db)
  | (inr Claimed, _) => (AlreadyClaimed, db)
  | (inr (Stored isNewCustomer customerId), c) =>
      match normalizeEmail (Body.email b) with
      | Some _ => (CaptureOk None isNewCustomer customerId, conn_db c)
      | None => (ServerError "Cannot read properties of undefined", conn_db c)
      end
  end.

End Part000.

(** ** Rewards *)






Definition mark_redeemed (now : Z) (redeemedBy : option string) (c : Capture) : Capture :=
  {| cap_id := cap_id c; cap_course_id := cap_course_id c;
     customer_id := customer_id c; location_id := location_id c;
     form_data := form_data c; reward_code := reward_code c;
     reward_type := reward_type c;
     reward_redeemed := true; reward_redeemed_at := Some now;
     reward_redeemed_by := redeemedBy |}.

(** [WHERE reward_code = $1 AND reward_redeemed = false] *)
Definition redeemable (code : string) (c : Capture) : bool :=
  bool_decide (reward_code c = code) && negb (reward_redeemed c).

(** What [UPDATE captures SET reward_redeemed = true, reward_redeemed_at =
    NOW(), reward_redeemed_by = $2 WHERE reward_code = $1 AND
    reward_redeemed = false RETURNING *] does when it is accepted: the rows
    it returns and the database it leaves. *)
Definition redeem_rows (now : Z) (code : string) (redeemedBy : option string)
    (db : Db) : list Capture * Db :=
  (map (mark_redeemed now redeemedBy) (List.filter (redeemable code) (captures db)),
   with_captures
     (map (fun c => if redeemable code c then mark_redeemed now redeemedBy c else c)
          (captures db))
     db).


Module Rewards.





End Rewards.

(** ** [GET /api/prospects] (the same query in both servers) *)

(** [(SELECT COUNT( * ) FROM captures WHERE customer_id = c.id)] *)
Definition capture_count (c : Customer) (db : Db) : nat :=
  length (List.filter (fun cap => bool_decide (customer_id cap = Some (cust_id c)))
                      (captures db)).

(** The [WHERE] clause: the customer's course has the slug ([slug] is
    unique in [courses]), [is_local = true] and [membership_score >= 50]. *)
Definition prospect_filter (courseSlug : string) (db : Db) (c : Customer) : bool :=
  existsb (fun co => bool_decide (cust_course_id c = course_id co)
                     && bool_decide (slug co = courseSlug)) (courses db)
  && is_true (is_local c)
  && (membership_score c >=? 50).

(** [ORDER BY c.membership_score DESC, c.visit_count DESC]: [a] may come
    before [b]. *)
Definition before (a b : Customer) : bool :=
  (membership_score b <? membership_score a)%Z
  || ((membership_score b =? membership_score a)%Z
      && (visit_count b <=? visit_count a)%Z).

(** Rows that tie are kept in storage order; SQL leaves their order
    open. *)
Fixpoint insert_ordered (c : Customer) (l : list Customer) : list Customer :=
  match l with
  | [] => [c]
  | x :: r => if before c x then c :: l else x :: insert_ordered c r
  end.

Definition order_by (l : list Customer) : list Customer :=
  fold_right insert_ordered [] l.

(** The rows of the reply: [courseSlug] defaults to the one course and
    [limit] to 20. *)
Definition prospects (courseSlug : option string) (limit : option nat) (db : Db)
    : list (Customer * nat) :=
  map (fun c => (c, capture_count c db))
      (firstn (default 20%nat limit)
              (order_by (List.filter (prospect_filter (default default_slug courseSlug) db)
                                     (customers db)))).

(** ** [POST /api/import] (the same handler in both servers) *)

Record MappedData := mkMapped {
  m_firstName : option string;
  m_lastName : option string;
  m_email : option string;
  m_phone : option string;
  m_zip : option string
}.

(** "Map fields based on source": header aliases in the order the code
    tries them. *)
Definition map_fields (source : string) (row : gmap string string) : MappedData :=
  let col (k : string) : option string := row !! k in
  if bool_decide (source = "golfnow") then
    {| m_firstName := js_or (js_or (col "First Name") (col "first_name")) (col "FirstName");
       m_lastName := js_or (js_or (col "Last Name") (col "last_name")) (col "LastName");
       m_email := js_or (js_or (col "Email") (col "email")) (col "E-mail");
       m_phone := js_or (js_or (col "Phone") (col "phone")) (col "Phone Number");
       m_zip := js_or (js_or (col "Zip") (col "zip")) (col "Postal Code") |}
  else if bool_decide (source = "clubessential") then
    {| m_firstName := js_or (js_or (col "FirstName") (col "First Name")) (col "first_name");
       m_lastName := js_or (js_or (col "LastName") (col "Last Name")) (col "last_name");
       m_email := js_or (js_or (col "Email") (col "email")) (col "EmailAddress");
       m_phone := js_or (js_or (js_or (col "Phone") (col "phone")) (col "MobilePhone"))
                        (col "HomePhone");
       m_zip := js_or (js_or (col "Zip") (col "zip")) (col "PostalCode") |}
  else
    {| m_firstName := js_or (js_or (col "first_name") (col "firstName")) (col "First Name");
       m_lastName := js_or (js_or (col "last_name") (col "lastName")) (col "Last Name");
       m_email := js_or (col "email") (col "Email");
       m_phone := js_or (col "phone") (col "Phone");
       m_zip := js_or (col "zip") (col "Zip") |}.

(** The [SET] list of the import's [UPDATE customers]: existing values
    win. *)
Definition merge_import (d : MappedData)
    (normalizedEmail normalizedPhone : option string) (c : Customer) : Customer :=
  {| cust_id := cust_id c; cust_course_id := cust_course_id c;
     first_name := coalesce (first_name c) (m_firstName d);
     last_name := coalesce (last_name c) (m_lastName d);
     email := coalesce (email c) normalizedEmail;
     phone := coalesce (phone c) normalizedPhone;
     zip := coalesce (zip c) (m_zip d);
     booking_source := booking_source c; is_local := is_local c;
     play_frequency := play_frequency c; member_elsewhere := member_elsewhere c;
     first_time_visitor := first_time_visitor c;
     visit_count := visit_count c; last_visit_at := last_visit_at c;
     membership_score := membership_score c;
     is_membership_prospect := is_membership_prospect c;
     source := source c; source_id := source_id c |}.

(** The row of the import's [INSERT INTO customers]; the other columns
    take their defaults. *)
Definition new_import_customer (courseId : Id) (source : string) (d : MappedData)
    (normalizedEmail normalizedPhone : option string)
    (row : gmap string string) (i : Id) : Customer :=
  {| cust_id := i; cust_course_id := courseId;
     first_name := m_firstName d; last_name := m_lastName d;
     email := normalizedEmail; phone := normalizedPhone; zip := m_zip d;
     booking_source := None; is_local := None; play_frequency := None;
     member_elsewhere := None; first_time_visitor := None;
     visit_count := 0; last_visit_at := None;
     membership_score := 0; is_membership_prospect := false;
     source := source ++ "_import";
     source_id := js_or (js_or (row !! "id") (row !! "ID")) None |}.

(** [INSERT INTO import_rows ...] *)
Definition insert_import_row (r : ImportRow) : Stmt unit :=
  fun db => inr (tt, with_import_rows (import_rows db ++ [r]) db).

(** The handler's counters, which live across the row loop and its
    [catch]. *)
Record Locals := mkLocals {
  newCustomers : Z;
  matchedCustomers : Z;
  skippedRows : Z;
  row_errors : list (Z * string)
}.

Definition IM (A : Type) : Type := ST (Conn * Locals) A.

(** A statement sent from the import handler. *)
Definition db_query {A} (stmt : Stmt A) : IM A :=
  fun s =>
    match query stmt (fst s) with
    | (r, c') => (r, (c', snd s))
    end.

Definition modify (f : Locals -> Locals) : IM unit :=
  fun s => (inr tt, (fst s, f (snd s))).

Definition incr_new (l : Locals) : Locals :=
  mkLocals (newCustomers l + 1) (matchedCustomers l) (skippedRows l) (row_errors l).
Definition incr_matched (l : Locals) : Locals :=
  mkLocals (newCustomers l) (matchedCustomers l + 1) (skippedRows l) (row_errors l).
Definition incr_skipped (l : Locals) : Locals :=
  mkLocals (newCustomers l) (matchedCustomers l) (skippedRows l + 1) (row_errors l).
Definition push_error (e : Z * string) (l : Locals) : Locals :=
  mkLocals (newCustomers l) (matchedCustomers l) (skippedRows l) (row_errors l ++ [e]).

Definition lookup_row_customer (key : option string)
    (q : string -> Db -> option Customer) : IM (option Customer) :=
  match key with
  | Some k => if truthy key then db_query (select (q k)) else ret None
  | None => ret None
  end.

(** The [try] block of one turn of the row loop; [i] is the zero-based
    index. *)
Definition import_row_try (courseId importId : Id) (source : string)
    (i : Z) (row : gmap string string) : IM unit :=
  (let mappedData := map_fields source row in
   let normalizedEmail := normalizeEmail (m_email mappedData) in
   let normalizedPhone := normalizePhone (m_phone mappedData) in
   if negb (truthy normalizedEmail) && negb (truthy normalizedPhone) then
     modify incr_skipped;;;
     db_query (insert_import_row
                 (mkImportRow importId None (i + 1) row "skipped" None
                              (Some "No email or phone")))
   else
     emailMatch <- lookup_row_customer normalizedEmail (customer_by_email courseId);;
     phoneMatch <-
       match emailMatch with
       | None => lookup_row_customer normalizedPhone (customer_by_phone courseId)
       | Some _ => ret None
       end;;
     let existingCustomer :=
       match emailMatch with Some _ => emailMatch | None => phoneMatch end in
     let matchType :=
       match emailMatch, phoneMatch with
       | Some _, _ => Some "email"
       | None, Some _ => Some "phone"
       | None, None => None
       end in
     customerId_action <-
       match existingCustomer with
       | Some existing =>
           db_query (update_customer (cust_id existing)
                       (merge_import mappedData normalizedEmail normalizedPhone));;;
           modify incr_matched;;;
           ret (cust_id existing, "matched")
       | None =>
           customerId <- db_query (insert_customer
                           (new_import_customer courseId source mappedData
                              normalizedEmail normalizedPhone row));;
           modify incr_new;;;
           ret (customerId, "created")
       end;;
     db_query (insert_import_row
                 (mkImportRow importId (Some (fst customerId_action)) (i + 1) row
                              (snd customerId_action) matchType None)))%tx.

(** The [catch (rowError)] block. *)
Definition import_row_catch (importId : Id) (i : Z) (row : gmap string string)
    (rowError : exn) : IM unit :=
  (modify (push_error (i + 1, message rowError));;;
   db_query (insert_import_row
               (mkImportRow importId None (i + 1) row "error" None
                            (Some (message rowError)))))%tx.

(** [for (let i = 0; i < records.length; i++) { try ... catch ... }], from
    index [i] on. *)
Fixpoint import_loop (courseId importId : Id) (source : string)
    (i : Z) (records : list (gmap string string)) : IM unit :=
  match records with
  | [] => ret tt
  | row :: rest =>
      (try_catch (import_row_try courseId importId source i row)
                 (import_row_catch importId i row);;;
       import_loop courseId importId source (i + 1) rest)%tx
  end.

Record Upload := mkUpload {
  originalname : string;
  records : list (gmap string string)
}.

Inductive ImportResponse :=
| ImportOk (importId : Id)
           (totalRows newCustomers matchedCustomers skippedRows errors : Z)
| ImportError (msg : string).

(** [INSERT INTO imports ... 'processing' ... RETURNING id]; [source] is
    [NOT NULL]. *)
Definition insert_import (courseId : Id) (source : option string) (filename : string)
    : Stmt Id :=
  fun db =>
    match source with
    | None => inl "null value in column violates not-null constraint"
    | Some src =>
        inr (next_id db,
             with_imports
               (imports db ++
                  [mkImport (next_id db) courseId src filename "processing" 0 0 0 0 0 []])
               (bump db))
    end.

(** [UPDATE imports SET status = 'completed', ... WHERE id = $1] *)
Definition complete_import (importId : Id) (total : Z) (l : Locals) : Stmt unit :=
  fun db =>
    inr (tt,
         with_imports
           (map (fun r =>
                   if bool_decide (imp_id r = importId)
                   then mkImport (imp_id r) (imp_course_id r) (imp_source r)
                                 (imp_filename r) "completed" total
                                 (newCustomers l + matchedCustomers l)
                                 (newCustomers l) (matchedCustomers l)
                                 (skippedRows l) (row_errors l)
                   else r)
                (imports db))
           db).

Definition get_locals : IM Locals := fun s => (inr (snd s), s).

Definition import_tx (courseSlug source : option string) (file : option Upload)
    : IM ImportResponse :=
  (match file with
   | None => throw (JsError "No file uploaded")
   | Some file =>
       courseResult <-
         db_query (select (course_by_slug (default default_slug courseSlug)));;
       match courseResult with
       | None => throw (JsError "Course not found")
       | Some course =>
           let courseId := course_id course in
           importId <- db_query (insert_import courseId source (originalname file));;
           import_loop courseId importId (default "" source) 0 (records file);;;
           l <- get_locals;;
           let total := Z.of_nat (length (records file)) in
           db_query (complete_import importId total l);;;
           ret (ImportOk importId total (newCustomers l) (matchedCustomers l)
                         (skippedRows l) (Z.of_nat (length (row_errors l))))
       end
   end)%tx.

(** The handler: [BEGIN], the body, [COMMIT]; an exception that leaves the
    body rolls the whole batch back and answers 500. *)
Definition import_batch (courseSlug source : option string) (file : option Upload)
    (db : Db) : ImportResponse * Db :=
  match import_tx courseSlug source file (mkConn db false, mkLocals 0 0 0 []) with
  | (inr r, s) => (r, conn_db (fst s))
  | (inl e, _) => (ImportError (message e), db)
  end.

(** ** Vocabulary of the properties *)

(** What a stored submission has written, for either server: the scored
    row, the merged row of a returning customer, and the new capture. *)
Definition stored (now : Z) (rnd : nat -> nat) (b : Body.t)
    (isNew : bool) (cid : Id) (db db' : Db) : Prop :=
  (exists row,
      customer_by_id cid db'
      = Some (set_score (calculateMembershipScore row)
                        (prospect_rule (calculateMembershipScore row) row) row))
  /\ (isNew = false ->
      exists old s q,
        customer_by_id cid db = Some old
        /\ customer_by_id cid db'
           = Some (set_score s q
                     (merge_capture now b (normalizeEmail (Body.email b))
                                    (normalizePhone (Body.phone b)) old)))
  /\ (exists cap, captures db' = (captures db ++ [cap])%list
                  /\ reward_code cap = generateRewardCode rnd).




(** How a piece of the import handler ends when it starts on a healthy
    connection: normally, on a healthy connection and with [post]; or with
    an exception, on a connection whose transaction is aborted. *)
Definition ends {A} (r : (exn + A) * (Conn * Locals))
    (post : Conn * Locals -> Prop) : Prop :=
  match r with
  | (inr _, s) => tx_failed (fst s) = false /\ post s
  | (inl _, s) => tx_failed (fst s) = true
  end.

(** From [s] to [s'], [n] records were processed without an error
    outcome: the three counters went up by [n] in all, no error was pushed,
    and [n] audit rows, none of them an error row, were appended. *)
Definition processed (n : nat) (s s' : Conn * Locals) : Prop :=
  newCustomers (snd s') + matchedCustomers (snd s') + skippedRows (snd s')
  = newCustomers (snd s) + matchedCustomers (snd s) + skippedRows (snd s) + Z.of_nat n
  /\ row_errors (snd s') = row_errors (snd s)
  /\ exists rows,
       import_rows (conn_db (fst s')) = (import_rows (conn_db (fst s)) ++ rows)%list
       /\ length rows = n
       /\ Forall (fun a => action a <> "error") rows.


(** ** A small database to run the handlers on *)
Module Sample.

Definition course : Course := mkCourse 1 "crescent-pointe".

(** Al is known by e-mail, Bea by e-mail and phone. *)
Definition al : Customer :=
  mkCustomer 10 1 (Some "Al") None (Some "a@x.com") None None None
             (Some false) None None None 1 None 0 false "capture" None.

Definition bea : Customer :=
  mkCustomer 11 1 (Some "Bea") None (Some "b@x.com") (Some "5551234567") None None
             None None None None 1 None 0 false "capture" None.

Definition db : Db := mkDb [course] [] [al; bea] [] [] [] [] [] 100.

(** The generator draws 0, 1, ..., 5: the code is CPABCDEF. *)
Definition draws (i : nat) : nat := i.

(** A submission under Al's e-mail address. *)
Definition form : Body.t :=
  Body.mk None None (Some "Bob") None (Some " A@X.com ") None (Some "29579") None
          (Some true) (Some "weekly") (Some false) None None.

(** A submission by somebody new. *)
Definition form_cy : Body.t :=
  Body.mk None None (Some "Cy") None (Some "cy@x.com") None None None
          None None None None None.

(** The customer with every maximal signal. *)
Definition best : Customer :=
  mkCustomer 12 1 (Some "Di") None (Some "d@x.com") (Some "5550001111")
             (Some "29579") None (Some true) (Some "weekly") (Some false) None
             5 None 0 false "capture" None.

(** A non-local customer, scored 25 + 15 + 15 + 5 + 5 = 65. *)
Definition visitor : Customer :=
  mkCustomer 13 1 (Some "Ed") None (Some "e@x.com") (Some "5550002222")
             (Some "10001") None (Some false) (Some "weekly") (Some false) None
             3 None 65 false "capture" None.

(** CSV records: a new address, no contact at all, and Al's address with
    Bea's phone number. *)
Definition row_new : gmap string string := {[ "email" := "new@x.com" ]}.
Definition row_blank : gmap string string := {[ "first_name" := "Zed" ]}.
Definition row_clash : gmap string string :=
  {[ "email" := "a@x.com"; "phone" := "555-123-4567" ]}.

(** The database after [form], and after [form] and then [form_cy] with
    the same draws, on the first server. *)
Definition db_after_form : Db := snd (ServerJs.capture 5 draws form db).



Definition db_after_two : Db := snd (ServerJs.capture 6 draws form_cy db_after_form).

(** The database after [form] on the extended server. *)
Definition db_claimed : Db := snd (Part000.capture 5 draws form db).

(** The sample database with the visitor added. *)
Definition db_with_visitor : Db := with_customers [al; bea; visitor] db.

End Sample.

(** ** Further vocabulary *)

(** Text of ASCII characters only.  On such text JavaScript's
    [toLowerCase], [toUpperCase] and [trim] are the ASCII mappings of this
    file: no other letter has a case and no other character is white
    space. *)
Definition is_ascii (c : ascii) : bool := Nat.ltb (nat_of_ascii c) 128.

Definition ascii_text (v : option string) : bool :=
  match v with
  | Some s => all_string is_ascii s
  | None => true
  end.

(** The rank of a [play_frequency] value in the scorer: weekly above
    monthly above rarely above anything else. *)
Definition tier (f : option string) : nat :=
  match f with
  | Some s =>
      if String.eqb s "weekly" then 3%nat
      else if String.eqb s "monthly" then 2%nat
      else if String.eqb s "rarely" then 1%nat
      else 0%nat
  | None => 0%nat
  end.

(** The symbols left out of the reward alphabet because they are easily
    misread. *)
Definition ambiguous (c : ascii) : bool :=
  existsb (Ascii.eqb c) ["0"; "O"; "1"; "I"]%char.

(** The row an optional key finds: none when the key is missing or
    empty. *)
Definition found_by (key : option string) (q : string -> Db -> option Customer)
    (db : Db) : option Customer :=
  match key with
  | Some k => if truthy key then q k db else None
  | None => None
  end.

(** The customer the first server settles on: the one found by e-mail,
    else the one found by phone. *)
Definition matched_customer (courseId : Id) (b : Body.t) (db : Db) : option Customer :=
  match found_by (normalizeEmail (Body.email b)) (customer_by_email courseId) db with
  | Some row => Some row
  | None => found_by (normalizePhone (Body.phone b)) (customer_by_phone courseId) db
  end.

(** A list of customers in the order of the prospects query. *)
Fixpoint in_order (l : list Customer) : Prop :=
  match l with
  | [] => True
  | x :: r => Forall (fun y => before x y = true) r /\ in_order r
  end.

(** ** [POST /api/admin/pipeline] of [src/unnamed/part_000] *)

Inductive PipelineResponse :=
| PipelineAdded (entry : PipelineEntry)
| PipelineConflict
| PipelineError (msg : string).

(** [INSERT INTO prospect_pipeline ... ON CONFLICT (customer_id) DO NOTHING
    RETURNING *], sent outside any transaction: [courseId] comes from the
    token, [customerId] from the body.  Both columns are [NOT NULL] and
    reference [courses] and [customers]. *)
Definition add_to_pipeline (courseId : Id) (customerId : option Id) (db : Db)
    : PipelineResponse * Db :=
  match customerId with
  | None => (PipelineError "null value in column violates not-null constraint", db)
  | Some cid =>
      if existsb (fun p => bool_decide (pp_customer_id p = cid)) (prospect_pipeline db)
      then (PipelineConflict, db)
      else if existsb (fun co => bool_decide (course_id co = courseId)) (courses db)
              && existsb (fun c => bool_decide (cust_id c = cid)) (customers db)
      then (PipelineAdded (mkPipelineEntry courseId cid "new"),
            with_pipeline (prospect_pipeline db ++ [mkPipelineEntry courseId cid "new"]) db)
      else (PipelineError fk_violation, db)
  end.

(** What an import may do to a customer row: fill in a blank among the
    five contact columns, and nothing else. *)
Definition kept (c c' : Customer) : Prop :=
  cust_id c' = cust_id c
  /\ cust_course_id c' = cust_course_id c
  /\ (forall v, first_name c = Some v -> first_name c' = Some v)
  /\ (forall v, last_name c = Some v -> last_name c' = Some v)
  /\ (forall v, email c = Some v -> email c' = Some v)
  /\ (forall v, phone c = Some v -> phone c' = Some v)
  /\ (forall v, zip c = Some v -> zip c' = Some v)
  /\ booking_source c' = booking_source c
  /\ is_local c' = is_local c
  /\ play_frequency c' = play_frequency c
  /\ member_elsewhere c' = member_elsewhere c
  /\ first_time_visitor c' = first_time_visitor c
  /\ visit_count c' = visit_count c
  /\ last_visit_at c' = last_visit_at c
  /\ membership_score c' = membership_score c
  /\ is_membership_prospect c' = is_membership_prospect c
  /\ source c' = source c
  /\ source_id c' = source_id c.

(** A customer row created by an import from [src]. *)
Definition imported_as (src : string) (c : Customer) : Prop :=
  source c = src ++ "_import"
  /\ visit_count c = 0
  /\ last_visit_at c = None
  /\ membership_score c = 0
  /\ is_membership_prospect c = false.

(** The customers after an import from [src]: the rows there were, in
    place and [kept], followed by rows [imported_as src]. *)
Definition customers_kept (src : string) (old new : list Customer) : Prop :=
  exists same added,
    new = (same ++ added)%list
    /\ Forall2 kept old same
    /\ Forall (imported_as src) added.

(** The audit row of the record at zero-based index [i]. *)
Definition audit_of (importId : Id) (i : Z) (record : gmap string string)
    (r : ImportRow) : Prop :=
  ir_import_id r = importId
  /\ row_number r = i + 1
  /\ raw_data r = record
  /\ (action r = "created" \/ action r = "matched" \/ action r = "skipped")
  /\ (action r = "skipped" <-> ir_customer_id r = None).

(** Audit rows that match the records one to one, in order, from index
    [i] on. *)
Fixpoint audited (importId : Id) (i : Z) (records : list (gmap string string))
    (rows : list ImportRow) : Prop :=
  match records, rows with
  | [], [] => True
  | record :: records', r :: rows' =>
      audit_of importId i record r /\ audited importId (i + 1) records' rows'
  | _, _ => False
  end.

(** From [s] to [s'] the records were imported from [src] as batch
    [importId], starting at index [i]. *)
Definition imported (src : string) (importId : Id) (i : Z)
    (records : list (gmap string string)) (s s' : Conn * Locals) : Prop :=
  customers_kept src (customers (conn_db (fst s))) (customers (conn_db (fst s')))
  /\ exists rows,
       import_rows (conn_db (fst s')) = (import_rows (conn_db (fst s)) ++ rows)%list
       /\ audited importId i records rows.

(** How many audit rows carry the outcome [a]. *)
Definition tally (a : string) (rows : list ImportRow) : Z :=
  Z.of_nat (length (List.filter (fun r => String.eqb (action r) a) rows)).

(** From [s] to [s'] the counters moved with the audit rows written, and
    [customers] grew by the rows created. *)
Definition tallied (s s' : Conn * Locals) : Prop :=
  exists rows,
    import_rows (conn_db (fst s')) = (import_rows (conn_db (fst s)) ++ rows)%list
    /\ newCustomers (snd s') = newCustomers (snd s) + tally "created" rows
    /\ matchedCustomers (snd s') = matchedCustomers (snd s) + tally "matched" rows
    /\ skippedRows (snd s') = skippedRows (snd s) + tally "skipped" rows
    /\ Z.of_nat (length (customers (conn_db (fst s'))))
       = Z.of_nat (length (customers (conn_db (fst s)))) + tally "created" rows.

(** ** More sample data *)
Module Sample2.

(** A submission without an e-mail address. *)
Definition form_no_email : Body.t :=
  Body.mk None None (Some "Flo") None None (Some "555-000-3333") None None
          None None None None None.

(** A submission by somebody new who gives Bea's phone number. *)
Definition form_shared_phone : Body.t :=
  Body.mk None None (Some "Gus") None (Some "gus@x.com") (Some "(555) 123-4567")
          None None None None None None None.

(** A database with no course in it. *)
Definition no_course : Db := mkDb [] [] [] [] [] [] [] [] 0.

End Sample2.

(** ** CSV export ([GET /api/export/customers] in both servers,
       [POST /api/admin/segments/:id/export]) *)

(** A cell of a result row as the export loop sees it: SQL [NULL], a text
    column, or a value of another type (number, boolean, timestamp), given
    by the text [Array.prototype.join] writes for it. *)
Inductive Cell :=
| CellNull
| CellText (s : string)
| CellOther (shown : string).

(** The double quote character. *)
Definition dquote : ascii := ascii_of_nat 34.

(** [s.includes(c)] for a one-character [c]. *)
Fixpoint includes (c : ascii) (s : string) : bool :=
  match s with
  | EmptyString => false
  | String x r => Ascii.eqb x c || includes c r
  end.

(** The [replace] of the quoting branch: every double quote is written
    twice. *)
Fixpoint double_quotes (s : string) : string :=
  match s with
  | EmptyString => EmptyString
  | String x r =>
      if Ascii.eqb x dquote
      then String dquote (String dquote (double_quotes r))
      else String x (double_quotes r)
  end.

(** The function mapped over the headers of a row. *)
Definition csv_value (val : Cell) : string :=
  match val with
  | CellNull => ""
  | CellText s =>
      if includes ","%char s || includes dquote s
      then String dquote (double_quotes s ++ String dquote "")
      else s
  | CellOther shown => shown
  end.

(** [l.join(sep)] on strings. *)
Fixpoint join (sep : string) (l : list string) : string :=
  match l with
  | [] => ""
  | x :: r =>
      match r with
      | [] => x
      | _ :: _ => x ++ sep ++ join sep r
      end
  end.

(** [values.join(',')], one line of the file. *)
Definition csv_line (values : list Cell) : string :=
  join "," (map csv_value values).

(** The line feed and the carriage return. *)
Definition line_feed : ascii := ascii_of_nat 10.
Definition carriage_return : ascii := ascii_of_nat 13.

(** The text of the reply: the header line written as it is, then one line
    per row, joined by line feeds. *)
Definition csv_body (headers : list string) (rows : list (list Cell)) : string :=
  join (String line_feed "") (join "," headers :: map csv_line rows).

(** The export of a query result: 404 when there is no row, else the text;
    [headers] are the keys of the first row. *)
Definition export_csv (headers : list string) (rows : list (list Cell))
    : option string :=
  match rows with
  | [] => None
  | _ :: _ => Some (csv_body headers rows)
  end.

(** ** Team management ([DELETE /api/admin/users/:id]) *)

(** A row of [admin_users]; [role] and [is_active] are nullable columns with
    defaults. *)
Record AdminUser := mkAdminUser {
  admin_id : Id;
  admin_course_id : option Id;
  admin_email : string;
  admin_name : string;
  admin_role : option string;
  admin_is_active : option bool
}.

(** The table, and the ids that [customer_segments.created_by] and
    [revenue_events.recorded_by] refer to; both are foreign keys without an
    [ON DELETE] action. *)
Record Team := mkTeam {
  admin_users : list AdminUser;
  admin_refs : list Id
}.

Inductive DeleteResponse :=
| DeleteOk
| DeleteRefused (error : string)
| DeleteNotFound
| DeleteFailed (error : string).

(** [role = 'admin' AND is_active = true] *)
Definition is_active_admin (u : AdminUser) : bool :=
  bool_decide (admin_role u = Some "admin")
  && bool_decide (admin_is_active u = Some true).

Definition admin_by_id (id : Id) (t : Team) : option AdminUser :=
  find (fun u => bool_decide (admin_id u = id)) (admin_users t).

Definition violates_admin_fk : string :=
  "update or delete on table admin_users violates foreign key constraint".

Definition invalid_uuid : string := "invalid input syntax for type uuid".

(** The handler.  [id] is the text of the route parameter and [requester]
    the text of [req.user.id].  The guard compares the two texts; the
    statements compare uuid values, and [uuid] is PostgreSQL's reading of a
    text as a uuid, [None] when it rejects the text. *)
Definition delete_admin_user (uuid : string -> option Id) (requester id : string)
    (t : Team) : DeleteResponse * Team :=
  if String.eqb id requester
  then (DeleteRefused "You cannot delete your own account.", t)
  else
    let adminCount := length (List.filter is_active_admin (admin_users t)) in
    match uuid id with
    | None => (DeleteFailed invalid_uuid, t)
    | Some target =>
        match admin_by_id target t with
        | None => (DeleteNotFound, t)
        | Some targetUser =>
            if bool_decide (admin_role targetUser = Some "admin")
               && (adminCount <=? 1)%nat
            then (DeleteRefused "Cannot delete the last admin user.", t)
            else if bool_decide (target ∈ admin_refs t)
            then (DeleteFailed violates_admin_fk, t)
            else (DeleteOk,
                  mkTeam (List.filter (fun u => negb (bool_decide (admin_id u = target)))
                                      (admin_users t))
                         (admin_refs t))
        end
    end.

(** ** Customer tags ([POST /api/customers/:id/tags],
       [DELETE /api/customers/:id/tags/:tagId], the same in both servers) *)

(** The ids of the rows of [tags], and [customer_tags], whose primary key is
    the pair [(customer_id, tag_id)]. *)
Record Tagging := mkTagging {
  tag_ids : gset Id;
  customer_tags : gset (Id * Id)
}.

Inductive TagResponse :=
| TagSuccess
| TagError (error : string).

Definition tag_id_null : string :=
  "null value in column tag_id violates not-null constraint".
Definition violates_customer_tags_fk : string :=
  "insert or update on table customer_tags violates foreign key constraint".

(** [INSERT INTO customer_tags ... ON CONFLICT DO NOTHING]; [tagId] is read
    from the body and may be missing. *)
Definition add_tag (id : Id) (tagId : option Id) (db : Db) (tg : Tagging)
    : TagResponse * Tagging :=
  match tagId with
  | None => (TagError tag_id_null, tg)
  | Some t =>
      match customer_by_id id db with
      | None => (TagError violates_customer_tags_fk, tg)
      | Some _ =>
          if bool_decide (t ∈ tag_ids tg)
          then (TagSuccess, mkTagging (tag_ids tg) ({[ (id, t) ]} ∪ customer_tags tg))
          else (TagError violates_customer_tags_fk, tg)
      end
  end.

(** [DELETE FROM customer_tags WHERE customer_id = $1 AND tag_id = $2] *)
Definition remove_tag (id tagId : Id) (tg : Tagging) : TagResponse * Tagging :=
  (TagSuccess, mkTagging (tag_ids tg) (customer_tags tg ∖ {[ (id, tagId) ]})).

(** ** Segment filters ([buildSegmentFilterSQL]) *)

(** The filters object of a segment, with the fields of the documented JSON
    structure; a missing or [null] field is [None].  A number is given by
    what the function sees of it: whether it is truthy, and what [parseInt]
    returns for it (for 50 that is 50, for 0.5 it is 0, and for 1e21, which
    prints as 1e+21, it is 1). *)
Record JsNumber := mkJsNumber {
  js_truthy : bool;
  js_parseInt : Z
}.

Record Filters := mkFilters {
  f_booking_source : option (list string);
  f_is_local : option bool;
  f_play_frequency : option (list string);
  f_min_score : option JsNumber;
  f_max_days_since_visit : option JsNumber;
  f_member_elsewhere : option bool;
  f_min_visits : option JsNumber
}.

(** A value bound to a placeholder of a query. *)
Inductive Param :=
| PId (i : Id)
| PTexts (l : list string)
| PBool (b : bool)
| PInt (z : Z).

(** The decimal digits of an index, as a template literal writes them. *)
Definition show_nat (n : nat) : string :=
  NilEmpty.string_of_uint (Nat.to_uint n).

(** The three variables of the function: [conditions], the caller's
    [params] array, which the function extends in place, and [idx]. *)
Record Built := mkBuilt {
  conditions : list string;
  params : list Param;
  nextIndex : nat
}.

(** One [conditions.push(...); params.push(...); idx++] block; the
    condition is the text around its placeholder. *)
Definition push_condition (before_ after_ : string) (p : Param) (b : Built)
    : Built :=
  mkBuilt (conditions b
             ++ [(before_ ++ "$" ++ show_nat (nextIndex b) ++ after_)%string])%list
          (params b ++ [p])%list
          (S (nextIndex b)).

(** [filters.x && filters.x.length > 0] *)
Definition nonempty_array (v : option (list string)) : option (list string) :=
  match v with
  | Some (x :: r) => Some (x :: r)
  | _ => None
  end.

(** [if (filters.x)] on a number, and the [parseInt(filters.x)] that is
    bound when it holds. *)
Definition truthy_number (v : option JsNumber) : option Z :=
  match v with
  | Some n => if js_truthy n then Some (js_parseInt n) else None
  | None => None
  end.

Definition push_if {A} (v : option A) (before_ after_ : string)
    (param : A -> Param) (b : Built) : Built :=
  match v with
  | Some x => push_condition before_ after_ (param x) b
  | None => b
  end.

Definition buildSegmentFilterSQL (filters : Filters) (params : list Param)
    (startIndex : nat) : Built :=
  let b := mkBuilt [] params startIndex in
  let b := push_if (nonempty_array (f_booking_source filters))
                   "c.booking_source = ANY(" ")" PTexts b in
  let b := push_if (f_is_local filters) "c.is_local = " "" PBool b in
  let b := push_if (nonempty_array (f_play_frequency filters))
                   "c.play_frequency = ANY(" ")" PTexts b in
  let b := push_if (truthy_number (f_min_score filters))
                   "c.membership_score >= " "" PInt b in
  let b := push_if (truthy_number (f_max_days_since_visit filters))
                   "c.last_visit_at >= NOW() - INTERVAL '1 day' * " "" PInt b in
  let b := push_if (f_member_elsewhere filters) "c.member_elsewhere = " "" PBool b in
  let b := push_if (truthy_number (f_min_visits filters))
                   "c.visit_count >= " "" PInt b in
  b.

(** ** A/B tests ([POST /api/admin/ab-tests], schema in
       [src/unnamed/part_003]) *)

Record AbTest := mkAbTest {
  ab_id : Id;
  ab_course_id : Id;
  ab_location_id : Id;
  ab_name : string;
  variant_a_reward_type : string;
  variant_a_description : string;
  variant_a_emoji : option string;
  variant_b_reward_type : string;
  variant_b_description : string;
  variant_b_emoji : option string;
  ab_is_active : option bool;
  ab_started_at : option Z;
  ab_ended_at : option Z
}.

(** The request body. *)
Record AbBody := mkAbBody {
  ab_locationId : option Id;
  ab_body_name : option string;
  variantARewardType : option string;
  variantADescription : option string;
  variantAEmoji : option string;
  variantBRewardType : option string;
  variantBDescription : option string;
  variantBEmoji : option string
}.

Inductive AbResponse :=
| AbCreated (test : AbTest)
| AbError (error : string).

(** The default emoji, byte for byte as the source file has it. *)
Definition default_emoji : string :=
  String (ascii_of_nat 195) (String (ascii_of_nat 176)
  (String (ascii_of_nat 197) (String (ascii_of_nat 184)
  (String (ascii_of_nat 197) (String (ascii_of_nat 189) ""))))).

(** [UPDATE ab_tests SET is_active = false, ended_at = NOW()
     WHERE location_id = $1 AND is_active = true] *)
Definition end_running (now : Z) (locationId : option Id) (t : AbTest) : AbTest :=
  if bool_decide (Some (ab_location_id t) = locationId)
     && bool_decide (ab_is_active t = Some true)
  then mkAbTest (ab_id t) (ab_course_id t) (ab_location_id t) (ab_name t)
                (variant_a_reward_type t) (variant_a_description t) (variant_a_emoji t)
                (variant_b_reward_type t) (variant_b_description t) (variant_b_emoji t)
                (Some false) (ab_started_at t) (Some now)
  else t.

Definition ab_not_null : string :=
  "null value violates not-null constraint of ab_tests".
Definition violates_ab_tests_fk : string :=
  "insert or update on table ab_tests violates foreign key constraint".

(** The [INSERT] of the handler: the row it stores, or the error of the
    rejected statement.  [fresh] is the generated id. *)
Definition insert_ab_test (now : Z) (fresh : Id) (courseId : option Id)
    (body : AbBody) (db : Db) : string + AbTest :=
  match courseId, ab_locationId body, ab_body_name body,
        variantARewardType body, variantADescription body,
        variantBRewardType body, variantBDescription body with
  | Some c, Some l, Some n, Some ta, Some da, Some tb, Some db_ =>
      if existsb (fun co => bool_decide (course_id co = c)) (courses db)
         && existsb (fun lo => bool_decide (loc_id lo = l)) (locations db)
      then inr (mkAbTest fresh c l n ta da
                         (js_or (variantAEmoji body) (Some default_emoji))
                         tb db_
                         (js_or (variantBEmoji body) (Some default_emoji))
                         (Some true) (Some now) None)
      else inl violates_ab_tests_fk
  | _, _, _, _, _, _, _ => inl ab_not_null
  end.

(** The handler: the two statements run on the pool, outside any
    transaction.  [courseId] is [req.user.courseId]. *)
Definition create_ab_test (now : Z) (fresh : Id) (courseId : option Id)
    (body : AbBody) (db : Db) (tests : list AbTest)
    : AbResponse * list AbTest :=
  let ended := map (end_running now (ab_locationId body)) tests in
  match insert_ab_test now fresh courseId body db with
  | inr test => (AbCreated test, (ended ++ [test])%list)
  | inl msg => (AbError msg, ended)
  end.

(** ** Vocabulary of the further properties *)

(** A reader of CSV text after RFC 4180: fields are separated by commas
    and records by line breaks outside quoted sections, and a doubled quote
    inside a quoted section stands for one quote.  A line break is a line
    feed, a carriage return, or the two in a row. *)
Inductive CsvState := Unquoted | Quoted | QuoteSeen | ReturnSeen.

Fixpoint csv_read (st : CsvState) (field : string) (record : list string)
    (s : string) : list (list string) :=
  match s with
  | EmptyString => [(record ++ [field])%list]
  | String c r =>
      match st with
      | Quoted =>
          if Ascii.eqb c dquote then csv_read QuoteSeen field record r
          else csv_read Quoted (field ++ String c "") record r
      | _ =>
          if Ascii.eqb c dquote
          then csv_read Quoted
                        (match st with
                         | QuoteSeen => field ++ String dquote ""
                         | _ => field
                         end)
                        record r
          else if Ascii.eqb c ","%char
          then csv_read Unquoted "" (record ++ [field])%list r
          else if Ascii.eqb c line_feed
          then match st with
               | ReturnSeen => csv_read Unquoted field record r
               | _ => (record ++ [field])%list :: csv_read Unquoted "" [] r
               end
          else if Ascii.eqb c carriage_return
          then (record ++ [field])%list :: csv_read ReturnSeen "" [] r
          else csv_read Unquoted (field ++ String c "") record r
      end
  end.

Definition csv_records (text : string) : list (list string) :=
  csv_read Unquoted "" [] text.

(** The text a cell stands for. *)
Definition cell_text (val : Cell) : string :=
  match val with
  | CellNull => ""
  | CellText s => s
  | CellOther shown => shown
  end.

(** The test of the export for putting a text in quotes. *)
Definition needs_quotes (s : string) : bool :=
  includes ","%char s || includes dquote s.

Definition has_break (s : string) : bool :=
  includes line_feed s || includes carriage_return s.

(** A text that is written without quotes and holds nothing a reader
    takes for a separator. *)
Definition plain (s : string) : bool :=
  negb (needs_quotes s) && negb (has_break s).

(** A cell the export writes so that it can be read back: a text with a
    line break only if it also has a comma or a quote, which puts it in
    quotes; numbers, booleans and timestamps are plain. *)
Definition readable (val : Cell) : bool :=
  match val with
  | CellNull => true
  | CellText s => needs_quotes s || negb (has_break s)
  | CellOther shown => plain shown
  end.

(** What one field of the filters asks for when it is set: the text before
    and after the placeholder of its condition, and the value to bind. *)
Definition asked {A} (v : option A) (before_ after_ : string)
    (param : A -> Param) : list (string * string * Param) :=
  match v with
  | Some x => [(before_, after_, param x)]
  | None => []
  end.

(** What a filters object asks for, in the order of its documented fields:
    the sources and the frequencies when the list is not empty, the two
    flags when they are given, and the three numbers when they are truthy,
    each bound as [parseInt] reads it. *)
Definition requested (f : Filters) : list (string * string * Param) :=
  (asked (nonempty_array (f_booking_source f)) "c.booking_source = ANY(" ")" PTexts
   ++ asked (f_is_local f) "c.is_local = " "" PBool
   ++ asked (nonempty_array (f_play_frequency f)) "c.play_frequency = ANY(" ")" PTexts
   ++ asked (truthy_number (f_min_score f)) "c.membership_score >= " "" PInt
   ++ asked (truthy_number (f_max_days_since_visit f))
            "c.last_visit_at >= NOW() - INTERVAL '1 day' * " "" PInt
   ++ asked (f_member_elsewhere f) "c.member_elsewhere = " "" PBool
   ++ asked (truthy_number (f_min_visits f)) "c.visit_count >= " "" PInt)%list.

(** The condition with placeholder number [n]. *)
Definition condition_text (n : nat) (r : string * string * Param) : string :=
  fst (fst r) ++ "$" ++ show_nat n ++ snd (fst r).

(** The invariant of the builder after the requests [l]: condition number
    [k] carries the placeholder [start + k], the values follow the caller's
    parameters in the same order, and the index is the next free one. *)
Definition built_from (start : nat) (ps : list Param)
    (l : list (string * string * Param)) (b : Built) : Prop :=
  conditions b = imap (fun k r => condition_text (start + k) r) l
  /\ params b = (ps ++ map snd l)%list
  /\ nextIndex b = (start + length l)%nat.

(** The running test of a location. *)
Definition running_at (l : Id) (t : AbTest) : bool :=
  bool_decide (ab_location_id t = l) && bool_decide (ab_is_active t = Some true).

Module Sample3.

Definition headers : list string := ["name"; "club"; "note"; "is_local"; "zip"].

Definition rows : list (list Cell) :=
  [[CellText "Lee, Jr."; CellNull; CellText ("6" ++ String dquote " putter");
    CellOther "true"; CellText ""];
   [CellText "Kim"; CellText "Dunes"; CellText ("left," ++ String line_feed "right");
    CellOther "false"; CellText "29579"]].

Definition filters : Filters :=
  mkFilters (Some ["golfnow"]) (Some true) None (Some (mkJsNumber true 50))
            None None None.

Definition owner : AdminUser :=
  mkAdminUser 1 (Some 1%nat) "owner@club.example" "Owner" (Some "admin") (Some true).
Definition manager : AdminUser :=
  mkAdminUser 2 (Some 1%nat) "manager@club.example" "Manager" (Some "admin") (Some true).
Definition team : Team := mkTeam [owner; manager] [].

(** A reading of texts as ids that, like PostgreSQL's of uuids, does not
    tell upper case from lower case. *)
Definition uuid (s : string) : option Id :=
  if String.eqb (toLowerCase s) "a1" then Some 1%nat
  else if String.eqb (toLowerCase s) "b2" then Some 2%nat
  else None.

End Sample3.

(** ** Segments: the rows a filter selects and their export
       ([GET /api/admin/segments/:id/customers],
       [POST /api/admin/segments/:id/export]; schema in
       [src/database/004_customer_segments.sql]) *)

(** A row of [customer_segments]; the handlers read [seg.filters || {}]. *)
Record Segment := mkSegment {
  seg_id : Id;
  seg_course_id : Id;
  seg_filters : Filters
}.

(** [String(n)] on an integer. *)
Definition show_Z (z : Z) : string :=
  NilZero.string_of_int (Z.to_int z).

(** Time is counted in milliseconds, as [Date.now()] counts it. *)
Definition day : Z := 86400000.
Definition hour : Z := 3600000.

(** A condition that is only built when its filter is set. *)
Definition holds {A} (v : option A) (test : A -> bool) : bool :=
  match v with
  | Some x => test x
  | None => true
  end.

(** A comparison with a nullable column is not true on [NULL]. *)
Definition column {A} (v : option A) (test : A -> bool) : bool :=
  match v with
  | Some x => test x
  | None => false
  end.

(** What the conditions of [buildSegmentFilterSQL] select, read at [now]:
    one conjunct per condition, in the order they are pushed. *)
Definition segment_matches (now : Z) (f : Filters) (c : Customer) : bool :=
  holds (nonempty_array (f_booking_source f))
        (fun l => column (booking_source c) (fun s => bool_decide (s ∈ l)))
  && holds (f_is_local f)
           (fun v => column (is_local c) (fun b => Bool.eqb b v))
  && holds (nonempty_array (f_play_frequency f))
           (fun l => column (play_frequency c) (fun s => bool_decide (s ∈ l)))
  && holds (truthy_number (f_min_score f))
           (fun n => (n <=? membership_score c)%Z)
  && holds (truthy_number (f_max_days_since_visit f))
           (fun n => column (last_visit_at c) (fun t => (now - day * n <=? t)%Z))
  && holds (f_member_elsewhere f)
           (fun v => column (member_elsewhere c) (fun b => Bool.eqb b v))
  && holds (truthy_number (f_min_visits f))
           (fun n => (n <=? visit_count c)%Z).

Definition text_cell (v : option string) : Cell :=
  match v with
  | Some s => CellText s
  | None => CellNull
  end.

Definition bool_cell (v : option bool) : Cell :=
  match v with
  | Some true => CellOther "true"
  | Some false => CellOther "false"
  | None => CellNull
  end.

(** The columns the segment export selects, in the order of the [SELECT]
    list, which is the order of [Object.keys] on a row. *)
Definition segment_export_row (c : Customer) : list Cell :=
  [text_cell (first_name c); text_cell (last_name c); text_cell (email c);
   text_cell (phone c); text_cell (zip c); text_cell (booking_source c);
   bool_cell (is_local c); text_cell (play_frequency c);
   CellOther (show_Z (visit_count c)); CellOther (show_Z (membership_score c))].

Definition segment_headers : list string :=
  ["first_name"; "last_name"; "email"; "phone"; "zip"; "booking_source";
   "is_local"; "play_frequency"; "visit_count"; "membership_score"].

(** The reply of the segment export for the customers the query returns,
    in the order it returns them. *)
Definition segment_export (selected : list Customer) : option string :=
  export_csv segment_headers (map segment_export_row selected).

(** The text columns of a customer in the segment export. *)
Definition exported_texts (c : Customer) : list (option string) :=
  [first_name c; last_name c; email c; phone c; zip c; booking_source c;
   play_frequency c].

(** ** Follow-up e-mail ([renderTemplate], [queueEmail],
       [PUT /api/customers/:id/unsubscribe],
       [POST /api/admin/segments/:id/email], [processEmailQueue]; schema in
       [src/database/005_email_system.sql]) *)

Record EmailTemplate := mkEmailTemplate {
  tmpl_id : Id;
  tmpl_course_id : Id;
  tmpl_type : string;
  tmpl_subject : string;
  tmpl_body_html : string;
  delay_hours : option Z;
  tmpl_is_active : option bool
}.

Record QueuedEmail := mkQueuedEmail {
  eq_id : Id;
  eq_course_id : Id;
  eq_customer_id : Id;
  eq_template_id : option Id;
  to_email : string;
  eq_subject : string;
  eq_body_html : string;
  scheduled_for : Z;
  sent_at : option Z;
  eq_status : option string;
  eq_error_message : option string
}.

Record EmailLog := mkEmailLog {
  queue_id : Id;
  sendgrid_message_id : option string
}.

(** The tables of the e-mail system.  [opted_out_email] is the column that
    the migration adds to [customers], kept here as the ids of the rows in
    which it is true; [mail_next_id] stands for the generated ids of
    [email_queue]. *)
Record Mail := mkMail {
  opted_out_email : list Id;
  email_templates : list EmailTemplate;
  email_queue : list QueuedEmail;
  email_logs : list EmailLog;
  mail_next_id : Id
}.

(** [s.split(key).join(value)] for a non-empty [key]: the occurrences of
    [key] are taken from the left and do not overlap; [skip] counts the
    characters of an occurrence that are still to be dropped. *)
Fixpoint replace_from (skip : nat) (key value s : string) : string :=
  match s with
  | EmptyString => EmptyString
  | String c r =>
      match skip with
      | S n => replace_from n key value r
      | O =>
          if String.prefix key s
          then value ++ replace_from (String.length key - 1) key value r
          else String c (replace_from 0 key value r)
      end
  end.

Definition split_join (key value s : string) : string :=
  replace_from 0 key value s.

(** The fields of [data] that [renderTemplate] reads. *)
Record TemplateData := mkTemplateData {
  d_first_name : option string;
  d_last_name : option string;
  d_reward_code : option string;
  d_visit_count : option Z
}.

(** [v || ''] *)
Definition or_empty (v : option string) : string :=
  default "" (js_or v (Some "")).

(** [data.visit_count || 1] *)
Definition or_one (v : option Z) : Z :=
  match v with
  | Some z => if (z =? 0)%Z then 1 else z
  | None => 1
  end.

Definition replacements (data : TemplateData) : list (string * string) :=
  [("{{first_name}}", or_empty (d_first_name data));
   ("{{last_name}}", or_empty (d_last_name data));
   ("{{reward_code}}", or_empty (d_reward_code data));
   ("{{visit_count}}", show_Z (or_one (d_visit_count data)))].

(** The rendered [(subject, body_html)]. *)
Definition renderTemplate (template : EmailTemplate) (data : TemplateData)
    : string * string :=
  fold_left (fun '(subject, html) '(key, value) =>
               (split_join key value subject, split_join key value html))
            (replacements data)
            (tmpl_subject template, tmpl_body_html template).

(** [INSERT INTO email_queue (...)]: [status] defaults to ['pending']. *)
Definition enqueue (courseId customerId : Id) (template : EmailTemplate)
    (to : string) (rendered : string * string) (scheduledFor : Z) (m : Mail)
    : Mail :=
  mkMail (opted_out_email m) (email_templates m)
         (email_queue m
            ++ [mkQueuedEmail (mail_next_id m) courseId customerId
                              (Some (tmpl_id template)) to
                              (fst rendered) (snd rendered) scheduledFor
                              None (Some "pending") None])%list
         (email_logs m) (S (mail_next_id m)).

(** [WHERE course_id = $1 AND type = $2 AND is_active = true] *)
Definition active_template (courseId : Id) (templateType : string)
    (t : EmailTemplate) : bool :=
  bool_decide (tmpl_course_id t = courseId)
  && String.eqb (tmpl_type t) templateType
  && is_true (tmpl_is_active t).

(** [template.delay_hours > 0 ? Date.now() + delay_hours * 3600000 : now] *)
Definition scheduled (now : Z) (template : EmailTemplate) : Z :=
  match delay_hours template with
  | Some h => if (0 <? h)%Z then now + h * hour else now
  | None => now
  end.

(** [queueEmail]: every early [return] and the swallowed error of a
    rejected insert leave the tables as they are. *)
Definition queueEmail (now : Z) (courseId customerId : Id)
    (templateType : string) (reward_code : option string) (db : Db) (m : Mail)
    : Mail :=
  match customer_by_id customerId db with
  | None => m
  | Some customer =>
      match email customer with
      | None => m
      | Some address =>
          if negb (truthy (Some address))
             || bool_decide (customerId ∈ opted_out_email m)
          then m
          else
            match find (active_template courseId templateType) (email_templates m) with
            | None => m
            | Some template =>
                let data := mkTemplateData (first_name customer) (last_name customer)
                                           reward_code (Some (visit_count customer)) in
                let rendered := renderTemplate template data in
                if existsb (fun co => bool_decide (course_id co = courseId)) (courses db)
                then enqueue courseId customerId template address rendered
                             (scheduled now template) m
                else m
            end
      end
  end.

(** [PUT /api/customers/:id/unsubscribe] *)
Definition cancel_pending (id : Id) (e : QueuedEmail) : QueuedEmail :=
  if bool_decide (eq_customer_id e = id) && bool_decide (eq_status e = Some "pending")
  then mkQueuedEmail (eq_id e) (eq_course_id e) (eq_customer_id e) (eq_template_id e)
                     (to_email e) (eq_subject e) (eq_body_html e) (scheduled_for e)
                     (sent_at e) (Some "cancelled") (eq_error_message e)
  else e.

Definition unsubscribe (id : Id) (db : Db) (m : Mail) : Mail :=
  mkMail (match customer_by_id id db with
          | Some _ => id :: opted_out_email m
          | None => opted_out_email m
          end)
         (email_templates m)
         (map (cancel_pending id) (email_queue m))
         (email_logs m) (mail_next_id m).

(** [POST /api/admin/segments/:id/email] *)
Inductive SegmentEmailResponse :=
| SegmentQueued (queued : nat)
| SegmentEmailNotFound (error : string).

(** [c.course_id = $1 AND c.opted_out_email = false AND c.email IS NOT NULL]
    and the conditions of the segment. *)
Definition segment_recipient (now : Z) (seg : Segment) (m : Mail) (c : Customer)
    : bool :=
  bool_decide (cust_course_id c = seg_course_id seg)
  && negb (bool_decide (cust_id c ∈ opted_out_email m))
  && bool_decide (is_Some (email c))
  && segment_matches now (seg_filters seg) c.

Definition segment_email (now : Z) (id : Id) (templateId : option Id)
    (segments : list Segment) (db : Db) (m : Mail)
    : SegmentEmailResponse * Mail :=
  match find (fun s => bool_decide (seg_id s = id)) segments with
  | None => (SegmentEmailNotFound "Segment not found", m)
  | Some seg =>
      let customers := List.filter (segment_recipient now seg m) (customers db) in
      match find (fun t => bool_decide (Some (tmpl_id t) = templateId))
                 (email_templates m) with
      | None => (SegmentEmailNotFound "Template not found", m)
      | Some tmpl =>
          (SegmentQueued (length customers),
           fold_left (fun m cust =>
                        enqueue (seg_course_id seg) (cust_id cust) tmpl
                                (default "" (email cust))
                                (renderTemplate tmpl
                                   (mkTemplateData (first_name cust) (last_name cust)
                                                   None (Some (visit_count cust))))
                                now m)
                     customers m)
      end
  end.

(** [processEmailQueue] *)

(** [eq.status = 'pending' AND eq.scheduled_for <= NOW()] *)
Definition due (now : Z) (e : QueuedEmail) : bool :=
  bool_decide (eq_status e = Some "pending") && (scheduled_for e <=? now)%Z.

(** [ORDER BY eq.scheduled_for ASC]; rows that tie are kept in storage
    order. *)
Fixpoint insert_by_schedule (e : QueuedEmail) (l : list QueuedEmail)
    : list QueuedEmail :=
  match l with
  | [] => [e]
  | x :: r =>
      if (scheduled_for e <=? scheduled_for x)%Z
      then e :: l
      else x :: insert_by_schedule e r
  end.

Definition order_by_schedule (l : list QueuedEmail) : list QueuedEmail :=
  fold_right insert_by_schedule [] l.

(** [UPDATE email_queue SET ... WHERE id = $1] *)
Definition update_queue (id : Id) (upd : QueuedEmail -> QueuedEmail) (m : Mail)
    : Mail :=
  mkMail (opted_out_email m) (email_templates m)
         (map (fun e => if bool_decide (eq_id e = id) then upd e else e)
              (email_queue m))
         (email_logs m) (mail_next_id m).

Definition as_sent (now : Z) (e : QueuedEmail) : QueuedEmail :=
  mkQueuedEmail (eq_id e) (eq_course_id e) (eq_customer_id e) (eq_template_id e)
                (to_email e) (eq_subject e) (eq_body_html e) (scheduled_for e)
                (Some now) (Some "sent") (eq_error_message e).

Definition as_failed (msg : string) (e : QueuedEmail) : QueuedEmail :=
  mkQueuedEmail (eq_id e) (eq_course_id e) (eq_customer_id e) (eq_template_id e)
                (to_email e) (eq_subject e) (eq_body_html e) (scheduled_for e)
                (sent_at e) (Some "failed") (Some msg).

Definition log_email (id : Id) (messageId : option string) (m : Mail) : Mail :=
  mkMail (opted_out_email m) (email_templates m) (email_queue m)
         (email_logs m ++ [mkEmailLog id messageId])%list (mail_next_id m).

(** The counters of a run. *)
Record Processed := mkProcessed {
  sent : nat;
  failed : nat;
  mode : option string
}.

(** One turn of the loop.  Without an API key ([sendgrid = None]) the
    message is marked as sent; with one, [sendgrid] is the outcome of
    [sgMail.send]: the message id of the response, or the message of the
    error it throws. *)
Definition deliver (now : Z) (sendgrid : option (QueuedEmail -> string + option string))
    (acc : Processed * Mail) (e : QueuedEmail) : Processed * Mail :=
  let '(p, m) := acc in
  match sendgrid with
  | None =>
      (mkProcessed (S (sent p)) (failed p) (mode p),
       log_email (eq_id e) None (update_queue (eq_id e) (as_sent now) m))
  | Some send =>
      match send e with
      | inr messageId =>
          (mkProcessed (S (sent p)) (failed p) (mode p),
           log_email (eq_id e) messageId (update_queue (eq_id e) (as_sent now) m))
      | inl msg =>
          (mkProcessed (sent p) (S (failed p)) (mode p),
           update_queue (eq_id e) (as_failed msg) m)
      end
  end.

(** The rows of the [SELECT]: at most 50 due messages, the earliest
    first. *)
Definition pending_batch (now : Z) (m : Mail) : list QueuedEmail :=
  firstn 50 (order_by_schedule (List.filter (due now) (email_queue m))).

(** A run, taken at the instant [now]. *)
Definition processEmailQueue (now : Z)
    (sendgrid : option (QueuedEmail -> string + option string)) (m : Mail)
    : Processed * Mail :=
  fold_left (deliver now sendgrid) (pending_batch now m)
            (mkProcessed 0 0 (match sendgrid with
                              | None => Some "dev"
                              | Some _ => None
                              end), m).

(** ** Vocabulary of the e-mail properties *)

(** What can happen to the e-mail tables. *)
Inductive MailOp :=
| OpQueue (now : Z) (courseId customerId : Id) (templateType : string)
          (reward_code : option string) (db : Db)
| OpSegmentEmail (now : Z) (id : Id) (templateId : option Id)
                 (segments : list Segment) (db : Db)
| OpUnsubscribe (id : Id) (db : Db)
| OpProcess (now : Z) (sendgrid : option (QueuedEmail -> string + option string)).

Definition run_op (m : Mail) (op : MailOp) : Mail :=
  match op with
  | OpQueue now courseId customerId templateType reward_code db =>
      queueEmail now courseId customerId templateType reward_code db m
  | OpSegmentEmail now id templateId segments db =>
      snd (segment_email now id templateId segments db m)
  | OpUnsubscribe id db => unsubscribe id db m
  | OpProcess now sendgrid => snd (processEmailQueue now sendgrid m)
  end.

Definition run_ops (ops : list MailOp) (m : Mail) : Mail :=
  fold_left run_op ops m.

(** The primary key of [email_queue]: ids are distinct, and the ids still
    to be generated are new. *)
Definition well_keyed (m : Mail) : Prop :=
  NoDup (map eq_id (email_queue m))
  /\ Forall (fun e => (eq_id e < mail_next_id m)%nat) (email_queue m).

(** The queue rows of one customer. *)
Definition mail_of (id : Id) (m : Mail) : list QueuedEmail :=
  List.filter (fun e => bool_decide (eq_customer_id e = id)) (email_queue m).

(** A queue row before and after the statements that update the rows with
    the ids [ids]: a row outside [ids] is as it was, a row inside has been
    marked as sent or as failed. *)
Definition touched (ids : list Id) (e e' : QueuedEmail) : Prop :=
  eq_id e' = eq_id e
  /\ eq_customer_id e' = eq_customer_id e
  /\ (~ In (eq_id e) ids -> e' = e)
  /\ (In (eq_id e) ids ->
      eq_status e' = Some "sent" \/ eq_status e' = Some "failed").

(** The state of a customer who has unsubscribed: the flag is set, the
    customer's queue rows are [rows], and none of them is pending. *)
Definition silenced (id : Id) (rows : list QueuedEmail) (m : Mail) : Prop :=
  In id (opted_out_email m)
  /\ mail_of id m = rows
  /\ Forall (fun e => eq_status e <> Some "pending") rows
  /\ well_keyed m.

Module Sample4.

Definition thanks : EmailTemplate :=
  mkEmailTemplate 1 1 "followup_local" "See you soon, {{first_name}}"
                  "Code {{reward_code}}, visit {{visit_count}}" (Some 72) (Some true).

Definition queued (id customer : Id) (at_ : Z) (status : string) : QueuedEmail :=
  mkQueuedEmail id 1 customer (Some 1%nat) "pat@example.com" "s" "b" at_ None
                (Some status) None.

Definition no_filter : Filters :=
  mkFilters (Some []) None None (Some (mkJsNumber false 0)) None None None.

Definition mail : Mail :=
  mkMail [] [thanks] [queued 1 10 10 "pending"; queued 2 11 5 "pending";
                      queued 3 10 0 "sent"] [] 4.

End Sample4.

(** * Properties *)

(** ** Strings *)

Lemma filter_string_all p s : all_string p (filter_string p s) = true.
Proof.
  induction s as [|c r IH]; simpl; [reflexivity|].
  destruct (p c) eqn:Hc; simpl; [rewrite Hc|]; exact IH.
Qed.

Lemma filter_string_fixed p s : all_string p s = true -> filter_string p s = s.
Proof.
  induction s as [|c r IH]; simpl; [reflexivity|].
  intros [Hc Hr]%andb_true_iff. rewrite Hc, (IH Hr). reflexivity.
Qed.

Lemma truthy_of_length (s : string) n :
  String.length s = S n -> truthy (Some s) = true.
Proof. destruct s; simpl; [discriminate|reflexivity]. Qed.

(** A string of exactly ten digits is its own normal form. *)
Lemma normalizePhone_ten_digits (r : string) :
  String.length r = 10%nat -> all_string is_digit r = true ->
  normalizePhone (Some r) = Some r.
Proof.
  intros Hlen Hdig. unfold normalizePhone, strip_non_digits.
  rewrite (truthy_of_length r 9 Hlen), (filter_string_fixed _ _ Hdig), Hlen.
  reflexivity.
Qed.

Lemma slice1_length (s : string) n :
  String.length s = S n -> String.length (slice1 s) = n.
Proof. destruct s; simpl; congruence. Qed.

Lemma slice1_all p s : all_string p s = true -> all_string p (slice1 s) = true.
Proof. destruct s; simpl; [trivial|]. intros [_ H]%andb_true_iff. exact H. Qed.

(** What [normalizePhone] returns is null or ten digits. *)
Lemma normalizePhone_shape (phone : option string) (r : string) :
  normalizePhone phone = Some r ->
  String.length r = 10%nat /\ all_string is_digit r = true.
Proof.
  unfold normalizePhone. destruct (truthy phone); simpl; [|discriminate].
  destruct phone as [p|]; [|discriminate].
  pose proof (filter_string_all is_digit p) as Hall. fold (strip_non_digits p) in Hall.
  destruct (Nat.eqb_spec (String.length (strip_non_digits p)) 10) as [H10|_].
  - intros [= <-]. auto.
  - destruct (Nat.eqb_spec (String.length (strip_non_digits p)) 11) as [H11|_];
      simpl; [|discriminate].
    destruct (starts_with_1 (strip_non_digits p)); [|discriminate].
    intros [= <-]. split; [apply slice1_length; exact H11 | apply slice1_all; exact Hall].
Qed.

(** C6.  Phone normalization keeps the digits of its argument; it returns
    them when there are exactly ten, drops a leading 1 when there are
    eleven and the first is 1, and returns null for any other count and for
    a missing or empty argument.  Hence it is idempotent and its result is
    null or exactly ten digits. *)
Theorem normalizePhone_correct (phone : option string) :
  let digits := strip_non_digits (default "" phone) in
  all_string is_digit digits = true
  /\ (String.length digits = 10%nat -> normalizePhone phone = Some digits)
  /\ (String.length digits = 11%nat -> starts_with_1 digits = true ->
      normalizePhone phone = Some (slice1 digits))
  /\ (String.length digits <> 10%nat ->
      ~ (String.length digits = 11%nat /\ starts_with_1 digits = true) ->
      normalizePhone phone = None)
  /\ normalizePhone (normalizePhone phone) = normalizePhone phone
  /\ (normalizePhone phone = None
      \/ exists r, normalizePhone phone = Some r
                   /\ String.length r = 10%nat /\ all_string is_digit r = true).
Proof.
  intros digits.
  assert (Hfalsy : truthy phone = false -> digits = "").
  { subst digits. destruct phone as [[|c s]|]; simpl; try discriminate; reflexivity. }
  assert (Hrun : truthy phone = true ->
                 normalizePhone phone =
                 if Nat.eqb (String.length digits) 10 then Some digits
                 else if Nat.eqb (String.length digits) 11 && starts_with_1 digits
                      then Some (slice1 digits) else None).
  { intros Ht. unfold normalizePhone. rewrite Ht. simpl.
    destruct phone; [reflexivity|discriminate]. }
  assert (Hnull : truthy phone = false -> normalizePhone phone = None).
  { intros Hf. unfold normalizePhone. rewrite Hf. reflexivity. }
  split; [apply filter_string_all|].
  split.
  { intros H10. destruct (truthy phone) eqn:Ht.
    - rewrite (Hrun eq_refl), H10. reflexivity.
    - rewrite (Hfalsy eq_refl) in H10. discriminate. }
  split.
  { intros H11 H1. destruct (truthy phone) eqn:Ht.
    - rewrite (Hrun eq_refl), H11, H1. reflexivity.
    - rewrite (Hfalsy eq_refl) in H11. discriminate. }
  split.
  { intros N10 N11. destruct (truthy phone) eqn:Ht; [|apply Hnull; reflexivity].
    rewrite (Hrun eq_refl).
    destruct (Nat.eqb_spec (String.length digits) 10); [contradiction|].
    destruct (Nat.eqb_spec (String.length digits) 11); simpl; [|reflexivity].
    destruct (starts_with_1 digits); [|reflexivity]. exfalso. apply N11. auto. }
  destruct (normalizePhone phone) as [r|] eqn:Hr.
  - destruct (normalizePhone_shape _ _ Hr) as [Hlen Hdig].
    split; [apply normalizePhone_ten_digits; assumption|].
    right. exists r. auto.
  - split; [reflexivity | left; reflexivity].
Qed.

Lemma normalizePhone_correct_witness :
  normalizePhone (Some "1 (555) 123-4567") = Some "5551234567".
Proof.
  apply (proj1 (proj2 (proj2 (normalizePhone_correct (Some "1 (555) 123-4567")))));
    reflexivity.
Defined.

(** ** Scoring *)

Lemma plays_exclusive (c : Customer) (a b : string) :
  a <> b -> plays c a = true -> plays c b = false.
Proof.
  unfold plays. destruct (play_frequency c) as [f|]; [|discriminate].
  intros Hab Ha%String.eqb_eq. subst f. apply String.eqb_neq. exact Hab.
Qed.

Lemma frequency_band (c : Customer) (s : Z) :
  (if plays c "weekly" then s + 25
   else if plays c "monthly" then s + 15
   else if plays c "rarely" then s + 5 else s) = s + frequency_points c
  /\ 0 <= frequency_points c <= 25
  /\ (plays c "weekly" = true -> frequency_points c = 25).
Proof.
  pose proof (plays_exclusive c "weekly" "monthly") as Hwm.
  pose proof (plays_exclusive c "weekly" "rarely") as Hwr.
  pose proof (plays_exclusive c "monthly" "rarely") as Hmr.
  unfold frequency_points, points.
  destruct (plays c "weekly") eqn:Ew.
  - rewrite Hwm, Hwr by (reflexivity || discriminate). lia.
  - destruct (plays c "monthly") eqn:Em.
    + rewrite Hmr by (reflexivity || discriminate).
      repeat split; (lia || discriminate).
    + destruct (plays c "rarely"); repeat split; (lia || discriminate).
Qed.

Lemma visit_band (c : Customer) (s : Z) :
  (if visit_count c >=? 5 then s + 20
   else if visit_count c >=? 3 then s + 15
   else if visit_count c >=? 2 then s + 10 else s) = s + visit_points c
  /\ 0 <= visit_points c <= 20
  /\ (5 <= visit_count c -> visit_points c = 20).
Proof.
  unfold visit_points, points.
  destruct (Z.geb_spec (visit_count c) 5), (Z.geb_spec (visit_count c) 3),
           (Z.geb_spec (visit_count c) 2), (Z.eqb_spec (visit_count c) 3),
           (Z.eqb_spec (visit_count c) 4), (Z.eqb_spec (visit_count c) 2);
    simpl; lia.
Qed.

(** C5.  The membership score is the clamped sum of the point table, whose
    [play_frequency] and [visit_count] bands each contribute at most one
    entry; it lies between 0 and 100, and the customer with every maximal
    signal scores exactly 100. *)
Theorem calculateMembershipScore_table (c : Customer) :
  calculateMembershipScore c = Z.min (table_score c) 100
  /\ 0 <= calculateMembershipScore c <= 100
  /\ (is_local c = Some true -> play_frequency c = Some "weekly" ->
      5 <= visit_count c -> member_elsewhere c = Some false ->
      truthy (email c) = true -> truthy (phone c) = true ->
      truthy (zip c) = true ->
      calculateMembershipScore c = 100).
Proof.
  assert (Hweekly : play_frequency c = Some "weekly" -> plays c "weekly" = true).
  { unfold plays. intros ->. reflexivity. }
  unfold calculateMembershipScore, table_score.
  set (s0 := if is_true (is_local c) then 0 + 30 else 0).
  destruct (frequency_band c s0) as (-> & Hf & Hfmax).
  destruct (visit_band c (s0 + frequency_points c)) as (-> & Hv & Hvmax).
  subst s0. unfold points.
  split; [|split].
  - destruct (is_true (is_local c)), (is_false (member_elsewhere c)),
      (truthy (email c)), (truthy (phone c)), (truthy (zip c)); simpl; lia.
  - destruct (is_true (is_local c)), (is_false (member_elsewhere c)),
      (truthy (email c)), (truthy (phone c)), (truthy (zip c)); simpl; lia.
  - intros -> Hw Hvisits -> -> -> ->. simpl.
    rewrite (Hfmax (Hweekly Hw)), (Hvmax Hvisits). reflexivity.
Qed.

Lemma calculateMembershipScore_table_witness :
  calculateMembershipScore Sample.best = 100.
Proof.
  apply (proj2 (proj2 (calculateMembershipScore_table Sample.best)));
    first [reflexivity | simpl; lia].
Defined.

(** ** Running statements *)

Lemma bind_ok {S A B} (m : ST S A) (k : A -> ST S B) s b s' :
  bind m k s = (inr b, s') ->
  exists a s1, m s = (inr a, s1) /\ k a s1 = (inr b, s').
Proof.
  unfold bind. destruct (m s) as [[e|a] s1]; [discriminate|]. eauto.
Qed.

Lemma query_ok {A} (stmt : Stmt A) c a c' :
  query stmt c = (inr a, c') ->
  tx_failed c = false /\ stmt (conn_db c) = inr (a, conn_db c') /\ tx_failed c' = false.
Proof.
  unfold query. destruct (tx_failed c); [discriminate|].
  destruct (stmt (conn_db c)) as [msg|[a0 db']]; [discriminate|].
  intros [= <- <-]. auto.
Qed.

Lemma select_ok {A} (q : Db -> A) c a c' :
  query (select q) c = (inr a, c') ->
  a = q (conn_db c) /\ conn_db c' = conn_db c /\ tx_failed c' = false.
Proof.
  intros (_ & Hs & Hf)%query_ok. unfold select in Hs. injection Hs as <- <-. auto.
Qed.

Lemma lookup_if_present_ok key q c o c' :
  lookup_if_present key q c = (inr o, c') ->
  conn_db c' = conn_db c
  /\ (o = None \/ exists k, key = Some k /\ o = q k (conn_db c)).
Proof.
  unfold lookup_if_present. destruct key as [k|].
  - destruct (truthy (Some k)).
    + intros (-> & -> & _)%select_ok. eauto.
    + intros [= <- <-]. auto.
  - intros [= <- <-]. auto.
Qed.

(** ** Rows by primary key *)

Lemma find_id_map (cid : Id) (f : Customer -> Customer) (l : list Customer) :
  (forall c, cust_id (f c) = cust_id c) ->
  find (fun c => bool_decide (cust_id c = cid))
       (map (fun c => if bool_decide (cust_id c = cid) then f c else c) l)
  = option_map f (find (fun c => bool_decide (cust_id c = cid)) l).
Proof.
  intros Hid. induction l as [|x r IH]; simpl; [reflexivity|].
  destruct (bool_decide (cust_id x = cid)) eqn:Hx.
  - rewrite Hid, Hx. reflexivity.
  - rewrite Hx. exact IH.
Qed.

Lemma customer_by_id_with_customers cid cs db :
  customer_by_id cid (with_customers cs db)
  = find (fun c => bool_decide (cust_id c = cid)) cs.
Proof. reflexivity. Qed.

Lemma update_customer_ok cid upd db db' :
  (forall c, cust_id (upd c) = cust_id c) ->
  update_customer cid upd db = inr (tt, db') ->
  customer_by_id cid db' = option_map upd (customer_by_id cid db)
  /\ captures db' = captures db.
Proof.
  intros Hid. unfold update_customer.
  destruct (existsb _ _); [discriminate|]. intros [= <-].
  rewrite customer_by_id_with_customers, find_id_map by exact Hid. auto.
Qed.

Lemma rescore_ok customerId c p c' :
  rescore customerId c = (inr p, c') ->
  exists row,
    customer_by_id customerId (conn_db c) = Some row
    /\ p = prospect_rule (calculateMembershipScore row) row
    /\ customer_by_id customerId (conn_db c')
       = Some (set_score (calculateMembershipScore row) p row)
    /\ captures (conn_db c') = captures (conn_db c)
    /\ prospect_pipeline (conn_db c') = prospect_pipeline (conn_db c).
Proof.
  unfold rescore. intros (o & c1 & Hsel & Hk)%bind_ok.
  apply select_ok in Hsel as (-> & Hdb & _).
  destruct (customer_by_id customerId (conn_db c)) as [row|] eqn:Hrow; [|discriminate].
  apply bind_ok in Hk as ([] & c2 & Hupd & Hret).
  injection Hret as <- <-.
  apply query_ok in Hupd as (_ & Hupd & _). unfold update_unkeyed in Hupd.
  injection Hupd as Hdb2. exists row. rewrite <- Hdb2, Hdb.
  rewrite customer_by_id_with_customers, find_id_map by reflexivity.
  fold (customer_by_id customerId (conn_db c)). rewrite Hrow. auto.
Qed.

Lemma insert_capture_ok row db i db' :
  insert_capture row db = inr (i, db') ->
  captures db' = (captures db ++ [row (next_id db)])%list
  /\ customers db' = customers db.
Proof.
  unfold insert_capture. cbv zeta.
  destruct (match location_id _ with Some _ => _ | None => _ end); [|discriminate].
  intros [= <- <-]. auto.
Qed.

(** The score ignores the two columns that store it. *)
Lemma score_of_set_score s p row :
  calculateMembershipScore (set_score s p row) = calculateMembershipScore row.
Proof. reflexivity. Qed.

Lemma upsert_capture_customer_ok now courseId b ne np customerId c cid c1 :
  upsert_capture_customer now courseId b ne np customerId c = (inr cid, c1) ->
  captures (conn_db c1) = captures (conn_db c)
  /\ prospect_pipeline (conn_db c1) = prospect_pipeline (conn_db c)
  /\ (customerId = None \/ customerId = Some cid)
  /\ (customerId = Some cid ->
      customer_by_id cid (conn_db c1)
      = option_map (merge_capture now b ne np) (customer_by_id cid (conn_db c))).
Proof.
  unfold upsert_capture_customer. destruct customerId as [cid0|].
  - intros ([] & c0 & Hupd & Hret)%bind_ok. injection Hret as <- <-.
    apply query_ok in Hupd as (_ & Hupd & _).
    assert (Hdb : prospect_pipeline (conn_db c0) = prospect_pipeline (conn_db c)).
    { unfold update_customer in Hupd. destruct (existsb _ _); [discriminate|].
      injection Hupd as <-. reflexivity. }
    apply update_customer_ok in Hupd as [Hrow Hcaps]; [|reflexivity]. auto.
  - intros (_ & Hins & _)%query_ok. unfold insert_customer in Hins.
    destruct (existsb _ _); [discriminate|]. injection Hins as _ <-.
    repeat split; auto. discriminate.
Qed.

(** What the customer and capture writes of one stored submission leave
    behind. *)
Lemma capture_writes now courseId b ne np customerId code rtype c cid c1 p c2 i c3 :
  upsert_capture_customer now courseId b ne np customerId c = (inr cid, c1) ->
  rescore cid c1 = (inr p, c2) ->
  query (insert_capture (capture_row courseId cid b code rtype)) c2 = (inr i, c3) ->
  (exists row,
      customer_by_id cid (conn_db c3)
      = Some (set_score (calculateMembershipScore row)
                        (prospect_rule (calculateMembershipScore row) row) row))
  /\ (customerId = None \/ customerId = Some cid)
  /\ (customerId = Some cid ->
      exists old s q,
        customer_by_id cid (conn_db c) = Some old
        /\ customer_by_id cid (conn_db c3)
           = Some (set_score s q (merge_capture now b ne np old)))
  /\ (exists cap, captures (conn_db c3) = (captures (conn_db c) ++ [cap])%list
                  /\ reward_code cap = code)
  /\ prospect_pipeline (conn_db c3) = prospect_pipeline (conn_db c).
Proof.
  intros (Hcaps1 & Hpp1 & Hwhich & Hmerge)%upsert_capture_customer_ok
         (row & Hrow & -> & Hrow2 & Hcaps2 & Hpp2)%rescore_ok
         (_ & Hins & _)%query_ok.
  assert (Hpp3 : prospect_pipeline (conn_db c3) = prospect_pipeline (conn_db c2)).
  { unfold insert_capture in Hins. cbv zeta in Hins.
    destruct (match location_id _ with Some _ => _ | None => _ end); [|discriminate].
    injection Hins as _ <-. reflexivity. }
  apply insert_capture_ok in Hins as [Hcaps3 Hcust3].
  assert (Hsame : customer_by_id cid (conn_db c3) = customer_by_id cid (conn_db c2)).
  { unfold customer_by_id. rewrite Hcust3. reflexivity. }
  split; [exists row; rewrite Hsame; exact Hrow2|].
  split; [exact Hwhich|].
  split.
  - intros Heq. specialize (Hmerge Heq). rewrite Hrow in Hmerge.
    destruct (customer_by_id cid (conn_db c)) as [old|]; [|discriminate].
    injection Hmerge as ->. exists old. eexists. eexists.
    split; [reflexivity|]. rewrite Hsame. exact Hrow2.
  - split; [|congruence]. eexists. split.
    + rewrite Hcaps3, Hcaps2, Hcaps1. reflexivity.
    + reflexivity.
Qed.

(** ** Stored submissions *)

Lemma is_new_false (customerId : option Id) (cid : Id) :
  customerId = None \/ customerId = Some cid ->
  bool_decide (customerId = None) = false -> customerId = Some cid.
Proof.
  intros [->| ->]; [|reflexivity].
  rewrite bool_decide_eq_false. intros H. exfalso. apply H. reflexivity.
Qed.

Lemma server_js_capture_stored now rnd b db rc isNew cid db' :
  ServerJs.capture now rnd b db = (CaptureOk rc isNew cid, db') ->
  rc = Some (generateRewardCode rnd) /\ stored now rnd b isNew cid db db'.
Proof.
  unfold ServerJs.capture.
  destruct (ServerJs.capture_tx now rnd b (mkConn db false)) as [[e|r] c3] eqn:Htx;
    [discriminate|].
  intros [= -> <-]. unfold ServerJs.capture_tx in Htx.
  apply bind_ok in Htx as (courseResult & c0 & Hcourse & Htx).
  apply select_ok in Hcourse as (_ & Hdb0 & _).
  destruct courseResult as [course|]; [|discriminate].
  apply bind_ok in Htx as (byEmail & c1 & Hemail & Htx).
  apply lookup_if_present_ok in Hemail as [Hdb1 _].
  apply bind_ok in Htx as (byPhone & c2 & Hphone & Htx).
  assert (Hdb2 : conn_db c2 = conn_db c1).
  { destruct (option_map cust_id byEmail).
    - injection Hphone as _ <-. reflexivity.
    - apply lookup_if_present_ok in Hphone as [H _]. exact H. }
  apply bind_ok in Htx as (customerId & c4 & Hupsert & Htx).
  apply bind_ok in Htx as (p & c5 & Hscore & Htx).
  apply bind_ok in Htx as (i & c6 & Hcap & Hret).
  injection Hret as <- <- <- <-.
  destruct (capture_writes _ _ _ _ _ _ _ _ _ _ _ _ _ _ _ Hupsert Hscore Hcap)
    as (Hrow & Hwhich & Hmerge & Hcaps & _).
  rewrite Hdb2, Hdb1, Hdb0 in Hmerge, Hcaps. simpl in Hmerge, Hcaps.
  split; [reflexivity|]. split; [exact Hrow|]. split; [|exact Hcaps].
  intros Hnew. apply Hmerge. apply is_new_false; assumption.
Qed.

Lemma part000_capture_tx_stored now rnd b db isNew cid c' :
  Part000.capture_tx now rnd b (mkConn db false) = (inr (Part000.Stored isNew cid), c') ->
  stored now rnd b isNew cid db (conn_db c').
Proof.
  unfold Part000.capture_tx. intros Htx.
  apply bind_ok in Htx as (courseResult & c0 & Hcourse & Htx).
  apply select_ok in Hcourse as (_ & Hdb0 & _).
  destruct courseResult as [course|]; [|discriminate].
  apply bind_ok in Htx as (byEmail & c1 & Hemail & Htx).
  apply lookup_if_present_ok in Hemail as [Hdb1 _].
  apply bind_ok in Htx as (check1 & c2 & Hcheck1 & Htx).
  assert (Hdb2 : conn_db c2 = conn_db c1).
  { destruct (option_map cust_id byEmail).
    - apply select_ok in Hcheck1 as (_ & H & _). exact H.
    - injection Hcheck1 as _ <-. reflexivity. }
  destruct check1; [discriminate|].
  apply bind_ok in Htx as (check2 & c3 & Hcheck2 & Htx).
  assert (Hdb3 : conn_db c3 = conn_db c2).
  { destruct (normalizeEmail (Body.email b)) as [e|].
    - destruct (truthy (Some e)).
      + apply select_ok in Hcheck2 as (_ & H & _). exact H.
      + injection Hcheck2 as _ <-. reflexivity.
    - injection Hcheck2 as _ <-. reflexivity. }
  destruct check2; [discriminate|].
  apply bind_ok in Htx as (customerId & c4 & Hupsert & Htx).
  apply bind_ok in Htx as (p & c5 & Hscore & Htx).
  apply bind_ok in Htx as (i & c6 & Hcap & Htx).
  apply bind_ok in Htx as ([] & c7 & Henroll & Hret).
  injection Hret as <- <- <-.
  destruct (capture_writes _ _ _ _ _ _ _ _ _ _ _ _ _ _ _ Hupsert Hscore Hcap)
    as (Hrow & Hwhich & Hmerge & Hcaps & _).
  rewrite Hdb3, Hdb2, Hdb1, Hdb0 in Hmerge, Hcaps. simpl in Hmerge, Hcaps.
  assert (Hsame : customers (conn_db c7) = customers (conn_db c6)
                  /\ captures (conn_db c7) = captures (conn_db c6)).
  { destruct p.
    - apply query_ok in Henroll as (_ & H & _). unfold Part000.enroll_prospect in H.
      destruct (existsb _ _); injection H as <-; auto.
    - injection Henroll as <-. auto. }
  destruct Hsame as [Hcust7 Hcaps7]. unfold stored, customer_by_id in *.
  rewrite Hcust7, Hcaps7.
  split; [exact Hrow|]. split; [|exact Hcaps].
  intros Hnew. apply Hmerge. apply is_new_false; assumption.
Qed.

Lemma part000_capture_stored now rnd b db rc isNew cid db' :
  Part000.capture now rnd b db = (CaptureOk rc isNew cid, db') ->
  stored now rnd b isNew cid db db'.
Proof.
  unfold Part000.capture.
  destruct (Part000.capture_tx now rnd b (mkConn db false)) as [[e|[|n i]] c] eqn:Htx;
    try discriminate.
  destruct (normalizeEmail (Body.email b)); [|discriminate].
  intros [= _ -> -> <-]. eapply part000_capture_tx_stored. exact Htx.
Qed.

(** ** C1: the merge of a returning customer *)





(** ** C2: the persisted prospect flag *)

(** C2.  After a capture is processed, on either server, the row of its
    customer has [membership_score] equal to the score of the row and
    [is_membership_prospect] equal to (score >= 60 and [is_local] is
    true); a customer whose [is_local] is not true is never flagged.  For
    the extended server this is stated of every committed transaction,
    whatever the reply. *)
Theorem capture_sets_prospect_flag now rnd b db isNew cid db' :
  (exists rc, ServerJs.capture now rnd b db = (CaptureOk rc isNew cid, db'))
  \/ (exists rc, Part000.capture now rnd b db = (CaptureOk rc isNew cid, db'))
  \/ (exists c', Part000.capture_tx now rnd b (mkConn db false)
                 = (inr (Part000.Stored isNew cid), c') /\ db' = conn_db c') ->
  exists c,
    customer_by_id cid db' = Some c
    /\ membership_score c = calculateMembershipScore c
    /\ is_membership_prospect c = ((membership_score c >=? 60) && is_true (is_local c))
    /\ (is_local c <> Some true -> is_membership_prospect c = false).
Proof.
  intros H.
  assert (Hst : stored now rnd b isNew cid db db').
  { destruct H as [[rc H]|[[rc H]|(c' & H & ->)]].
    - apply server_js_capture_stored in H as [_ H]. exact H.
    - apply part000_capture_stored in H. exact H.
    - apply part000_capture_tx_stored in H. exact H. }
  destruct Hst as ((row & Hrow) & _ & _).
  eexists. split; [exact Hrow|]. rewrite score_of_set_score. simpl.
  split; [reflexivity|]. split; [reflexivity|].
  intros Hlocal. unfold prospect_rule.
  destruct (is_local row) as [[|]|]; simpl; try apply andb_false_r.
  exfalso. apply Hlocal. reflexivity.
Qed.

Lemma capture_sets_prospect_flag_witness :
  exists c,
    customer_by_id 10 Sample.db_after_form = Some c
    /\ membership_score c = calculateMembershipScore c
    /\ is_membership_prospect c = ((membership_score c >=? 60) && is_true (is_local c))
    /\ (is_local c <> Some true -> is_membership_prospect c = false).
Proof.
  apply (capture_sets_prospect_flag 5 Sample.draws Sample.form Sample.db false 10
           Sample.db_after_form).
  left. exists (Some "CPABCDEF"). vm_compute. reflexivity.
Defined.

(** ** C4: one claim per e-mail address *)

Lemma select_live {A} (q : Db -> A) (db : Db) :
  query (select q) (mkConn db false) = (inr (q db), mkConn db false).
Proof. reflexivity. Qed.

Lemma lookup_if_present_live key q db :
  exists o, lookup_if_present key q (mkConn db false) = (inr o, mkConn db false).
Proof.
  unfold lookup_if_present. destruct key as [k|]; [|eexists; reflexivity].
  destruct (truthy (Some k)); eexists; reflexivity.
Qed.

Lemma truthy_nonempty (e : string) : e <> "" -> truthy (Some e) = true.
Proof. intros He. simpl. apply negb_true_iff, String.eqb_neq. exact He. Qed.

(** C4.  On the extended server, when the course exists and the submitted
    address, once normalized, is that of a customer of the course who has a
    capture on record, the submission is answered "already claimed" and
    the database is left as it was: no customer is created or changed, no
    capture is stored, no reward code is issued.  A submitted address is
    one that is not empty after normalization: the handler treats the
    empty string as no address at all and runs neither check for it. *)
Theorem already_claimed_leaves_state now rnd b db course e cap cu :
  course_by_slug (slug_or_default (Body.courseSlug b)) db = Some course ->
  normalizeEmail (Body.email b) = Some e ->
  e <> "" ->
  In cap (captures db) ->
  In cu (customers db) ->
  customer_id cap = Some (cust_id cu) ->
  cust_course_id cu = course_id course ->
  email cu = Some e ->
  Part000.capture now rnd b db = (AlreadyClaimed, db).
Proof.
  intros Hcourse Hemail Hne Hcap Hcu Hlink Hat Haddr.
  assert (Hjoin : Part000.email_has_capture (course_id course) e db = true).
  { unfold Part000.email_has_capture. apply existsb_exists. exists cap. split; [exact Hcap|].
    apply existsb_exists. exists cu. split; [exact Hcu|].
    rewrite !andb_true_iff, !bool_decide_eq_true. auto. }
  unfold Part000.capture, Part000.capture_tx, bind.
  rewrite select_live, Hcourse, Hemail.
  destruct (lookup_if_present_live (Some e) (customer_by_email (course_id course)) db)
    as [byEmail ->].
  destruct (option_map cust_id byEmail) as [cid|].
  - rewrite select_live. destruct (Part000.has_capture cid db); [reflexivity|].
    rewrite (truthy_nonempty e Hne), select_live, Hjoin. reflexivity.
  - unfold ret at 1. rewrite (truthy_nonempty e Hne), select_live, Hjoin. reflexivity.
Qed.

Lemma already_claimed_leaves_state_witness :
  Part000.capture 6 Sample.draws Sample.form Sample.db_claimed
  = (AlreadyClaimed, Sample.db_claimed).
Proof.
  refine (already_claimed_leaves_state 6 Sample.draws Sample.form Sample.db_claimed
            Sample.course "a@x.com"
            (capture_row 1 10 Sample.form "CPABCDEF" "free_beer" 100)
            (set_score 85 true (merge_capture 5 Sample.form (Some "a@x.com") None Sample.al))
            _ _ _ _ _ _ _ _);
    try (vm_compute; reflexivity).
  - discriminate.
  - left. vm_compute. reflexivity.
  - left. vm_compute. reflexivity.
Defined.

(** ** C3: redemption *)









Lemma redeem_rows_keeps now code redeemedBy db c :
  In c (captures db) -> redeemable code c = false ->
  In c (captures (snd (redeem_rows now code redeemedBy db))).
Proof.
  intros Hin Hc. simpl. apply in_map_iff. exists c. rewrite Hc. auto.
Qed.











(** ** C10: the case of a submitted code *)

Lemma upper_ascii_idem (c : ascii) : upper_ascii (upper_ascii c) = upper_ascii c.
Proof. destruct c as [[] [] [] [] [] [] [] []]; reflexivity. Qed.

Lemma toUpperCase_idem (s : string) : toUpperCase (toUpperCase s) = toUpperCase s.
Proof.
  unfold toUpperCase. induction s as [|c r IH]; simpl; [reflexivity|].
  rewrite upper_ascii_idem, IH. reflexivity.
Qed.







(** ** C9: reward codes *)

(** C9, counterexample.  Two submissions served with the same draws leave
    two capture rows with the same reward code. *)
Lemma reward_codes_can_repeat :
  exists c1 c2,
    In c1 (captures Sample.db_after_two)
    /\ In c2 (captures Sample.db_after_two)
    /\ cap_id c1 <> cap_id c2
    /\ customer_id c1 <> customer_id c2
    /\ reward_code c1 = reward_code c2.
Proof.
  exists (capture_row 1 10 Sample.form "CPABCDEF" "free_beer" 100),
         (capture_row 1 101 Sample.form_cy "CPABCDEF" "free_beer" 102).
  vm_compute. repeat split; auto; discriminate.
Qed.

Lemma get_list (s : string) (i : nat) :
  String.get i s = list_ascii_of_string s !! i.
Proof.
  revert i. induction s as [|c r IH]; intros [|i]; simpl; auto.
Qed.

Lemma chars_distinct : NoDup (list_ascii_of_string chars).
Proof.
  apply (bool_decide_unpack (NoDup (list_ascii_of_string chars))).
  vm_compute. exact I.
Qed.

(** A draw below 32 appends one symbol, and different draws append
    different symbols. *)
Lemma charAt_symbol (i : nat) :
  (i < 32)%nat -> exists c, String.get i chars = Some c /\ charAt chars i = String c "".
Proof.
  intros Hi. unfold charAt. rewrite get_list.
  destruct (list_ascii_of_string chars !! i) as [c|] eqn:Hc; [eauto|].
  apply lookup_ge_None in Hc. simpl in Hc. lia.
Qed.

Lemma symbol_draw (i j : nat) (c : ascii) :
  String.get i chars = Some c -> String.get j chars = Some c -> i = j.
Proof. rewrite !get_list. apply NoDup_lookup, chars_distinct. Qed.

Lemma generateRewardCode_draws (r1 r2 : nat -> nat) :
  (forall i, (i < 6)%nat -> (r1 i < 32)%nat /\ (r2 i < 32)%nat) ->
  generateRewardCode r1 = generateRewardCode r2 <->
  (forall i, (i < 6)%nat -> r1 i = r2 i).
Proof.
  intros Hvalid.
  assert (Hfold : forall r : nat -> nat, generateRewardCode r =
            ((((("CP" ++ charAt chars (r 0%nat)) ++ charAt chars (r 1%nat))
                 ++ charAt chars (r 2%nat)) ++ charAt chars (r 3%nat))
                 ++ charAt chars (r 4%nat)) ++ charAt chars (r 5%nat)).
  { intros r. reflexivity. }
  split.
  - rewrite !Hfold. intros Heq i Hi.
    destruct (Hvalid 0%nat ltac:(lia)) as [[a0 [Ga0 Ha0]]%charAt_symbol [b0 [Gb0 Hb0]]%charAt_symbol].
    destruct (Hvalid 1%nat ltac:(lia)) as [[a1 [Ga1 Ha1]]%charAt_symbol [b1 [Gb1 Hb1]]%charAt_symbol].
    destruct (Hvalid 2%nat ltac:(lia)) as [[a2 [Ga2 Ha2]]%charAt_symbol [b2 [Gb2 Hb2]]%charAt_symbol].
    destruct (Hvalid 3%nat ltac:(lia)) as [[a3 [Ga3 Ha3]]%charAt_symbol [b3 [Gb3 Hb3]]%charAt_symbol].
    destruct (Hvalid 4%nat ltac:(lia)) as [[a4 [Ga4 Ha4]]%charAt_symbol [b4 [Gb4 Hb4]]%charAt_symbol].
    destruct (Hvalid 5%nat ltac:(lia)) as [[a5 [Ga5 Ha5]]%charAt_symbol [b5 [Gb5 Hb5]]%charAt_symbol].
    rewrite Ha0, Ha1, Ha2, Ha3, Ha4, Ha5, Hb0, Hb1, Hb2, Hb3, Hb4, Hb5 in Heq.
    simpl in Heq. injection Heq as -> -> -> -> -> ->.
    destruct i as [|[|[|[|[|[|i]]]]]]; try lia; eapply symbol_draw; eassumption.
  - intros Heq. rewrite !Hfold.
    rewrite (Heq 0%nat), (Heq 1%nat), (Heq 2%nat), (Heq 3%nat), (Heq 4%nat), (Heq 5%nat) by lia.
    reflexivity.
Qed.

(** C9, amended.  Nothing makes reward codes unique: a stored submission
    appends one capture row whose code is the generator's output, whatever
    codes are on record, and two generated codes are equal exactly when
    their six draws are equal. *)
Theorem reward_code_follows_draws now rnd b db rc isNew cid db' :
  ServerJs.capture now rnd b db = (CaptureOk rc isNew cid, db')
  \/ Part000.capture now rnd b db = (CaptureOk rc isNew cid, db') ->
  (exists cap, captures db' = (captures db ++ [cap])%list
               /\ reward_code cap = generateRewardCode rnd)
  /\ (forall rnd',
         (forall i, (i < 6)%nat -> (rnd i < 32)%nat /\ (rnd' i < 32)%nat) ->
         generateRewardCode rnd = generateRewardCode rnd' <->
         (forall i, (i < 6)%nat -> rnd i = rnd' i)).
Proof.
  intros H.
  assert (Hst : stored now rnd b isNew cid db db').
  { destruct H as [H|H].
    - apply server_js_capture_stored in H as [_ H]. exact H.
    - apply part000_capture_stored in H. exact H. }
  destruct Hst as (_ & _ & Hcap).
  split; [exact Hcap|]. intros rnd'. apply generateRewardCode_draws.
Qed.

Lemma reward_code_follows_draws_witness :
  (exists cap, captures Sample.db_after_form = (captures Sample.db ++ [cap])%list
               /\ reward_code cap = generateRewardCode Sample.draws)
  /\ (forall rnd',
         (forall i, (i < 6)%nat -> (Sample.draws i < 32)%nat /\ (rnd' i < 32)%nat) ->
         generateRewardCode Sample.draws = generateRewardCode rnd' <->
         (forall i, (i < 6)%nat -> Sample.draws i = rnd' i)).
Proof.
  apply (reward_code_follows_draws 5 Sample.draws Sample.form Sample.db
           (Some "CPABCDEF") false 10 Sample.db_after_form).
  left. vm_compute. reflexivity.
Defined.

(** ** C8: the prospects list *)

(** C8, counterexample.  The visitor belongs to the course and is scored
    65, yet the list is empty: he is not local. *)
Lemma prospects_skips_non_local :
  In Sample.visitor (customers Sample.db_with_visitor)
  /\ course_by_slug default_slug Sample.db_with_visitor = Some Sample.course
  /\ cust_course_id Sample.visitor = course_id Sample.course
  /\ membership_score Sample.visitor = calculateMembershipScore Sample.visitor
  /\ 50 <= membership_score Sample.visitor
  /\ is_local Sample.visitor = Some false
  /\ prospects None None Sample.db_with_visitor = [].
Proof.
  split; [right; right; left; reflexivity|].
  repeat split; try reflexivity. simpl. lia.
Qed.

Lemma insert_ordered_In (c x : Customer) (l : list Customer) :
  In x (insert_ordered c l) <-> x = c \/ In x l.
Proof.
  induction l as [|y r IH]; simpl.
  - intuition.
  - destruct (before c y); simpl; [|rewrite IH]; intuition.
Qed.

Lemma order_by_In (x : Customer) (l : list Customer) :
  In x (order_by l) <-> In x l.
Proof.
  unfold order_by. induction l as [|y r IH]; simpl; [reflexivity|].
  rewrite insert_ordered_In, IH. intuition.
Qed.

Lemma insert_ordered_length (c : Customer) (l : list Customer) :
  length (insert_ordered c l) = S (length l).
Proof.
  induction l as [|y r IH]; simpl; [reflexivity|].
  destruct (before c y); simpl; [|rewrite IH]; reflexivity.
Qed.

Lemma order_by_length (l : list Customer) : length (order_by l) = length l.
Proof.
  unfold order_by. induction l as [|y r IH]; simpl; [reflexivity|].
  rewrite insert_ordered_length, IH. reflexivity.
Qed.

Lemma firstn_In {A} (x : A) (n : nat) (l : list A) : In x (firstn n l) -> In x l.
Proof.
  revert l. induction n as [|n IH]; intros [|y r]; simpl; try tauto.
  intros [->|H]; auto.
Qed.

Lemma prospect_filter_iff (courseSlug : string) (db : Db) (c : Customer) :
  prospect_filter courseSlug db c = true <->
  (exists co, In co (courses db) /\ cust_course_id c = course_id co
              /\ slug co = courseSlug)
  /\ is_local c = Some true
  /\ 50 <= membership_score c.
Proof.
  unfold prospect_filter. rewrite !andb_true_iff, existsb_exists.
  assert (Hl : is_true (is_local c) = true <-> is_local c = Some true).
  { destruct (is_local c) as [[|]|]; simpl; split; congruence. }
  rewrite Hl, Z.geb_le. split.
  - intros [[(co & Hin & Hco) Hloc] Hs]. split; [|auto].
    apply andb_true_iff in Hco as [H1 H2].
    apply bool_decide_eq_true in H1, H2. eauto.
  - intros [(co & Hin & H1 & H2) [Hloc Hs]]. split; [split|]; auto.
    exists co. split; [exact Hin|].
    rewrite andb_true_iff, !bool_decide_eq_true. auto.
Qed.

(** C8, amended.  The prospects list holds customers of the course with
    [is_local = true] and [membership_score >= 50], at most [limit] of
    them (20 by default): every listed customer meets both conditions, and
    every customer who meets them is listed when there are no more than
    [limit] of them.  Locality is required here too. *)
Theorem prospects_lists_local_candidates courseSlug limit db c :
  let listed := map fst (prospects courseSlug limit db) in
  let eligible :=
    In c (customers db)
    /\ (exists co, In co (courses db) /\ cust_course_id c = course_id co
                   /\ slug co = default default_slug courseSlug)
    /\ is_local c = Some true
    /\ 50 <= membership_score c in
  (In c listed -> eligible)
  /\ ((length (List.filter (prospect_filter (default default_slug courseSlug) db)
                           (customers db)) <= default 20%nat limit)%nat ->
      eligible -> In c listed)
  /\ (length listed <= default 20%nat limit)%nat.
Proof.
  intros listed eligible. subst listed eligible. unfold prospects.
  rewrite map_map. simpl. rewrite map_id.
  set (found := List.filter _ (customers db)).
  assert (Hfound : forall x, In x found <-> In x (customers db)
                     /\ prospect_filter (default default_slug courseSlug) db x = true).
  { intros x. apply filter_In. }
  split; [|split].
  - intros Hin%firstn_In%order_by_In%Hfound. destruct Hin as [Hin Hf].
    apply prospect_filter_iff in Hf. tauto.
  - intros Hfew (Hin & Hco & Hloc & Hs).
    rewrite firstn_all2 by (rewrite order_by_length; exact Hfew).
    apply order_by_In, Hfound. split; [exact Hin|].
    apply prospect_filter_iff. auto.
  - rewrite length_firstn. lia.
Qed.

Lemma prospects_lists_local_candidates_witness :
  In (set_score 85 true (merge_capture 5 Sample.form (Some "a@x.com") None Sample.al))
     (map fst (prospects None None Sample.db_after_form)).
Proof.
  apply (proj1 (proj2 (prospects_lists_local_candidates None None Sample.db_after_form
                         (set_score 85 true
                            (merge_capture 5 Sample.form (Some "a@x.com") None
                                           Sample.al))))).
  - vm_compute. lia.
  - split; [left; vm_compute; reflexivity|].
    split; [exists Sample.course; vm_compute; auto|].
    split; [reflexivity|simpl; lia].
Defined.

(** ** C7: the import batch *)

Lemma update_customer_import_rows cid upd db u db' :
  update_customer cid upd db = inr (u, db') -> import_rows db' = import_rows db.
Proof.
  unfold update_customer. destruct (existsb _ _); [discriminate|].
  intros [= _ <-]. reflexivity.
Qed.

Lemma insert_customer_import_rows row db i db' :
  insert_customer row db = inr (i, db') -> import_rows db' = import_rows db.
Proof.
  unfold insert_customer. destruct (existsb _ _); [discriminate|].
  intros [= _ <-]. reflexivity.
Qed.

Lemma processed_refl s : processed 0 s s.
Proof.
  unfold processed. split; [simpl; lia|]. split; [reflexivity|].
  exists []. rewrite app_nil_r. auto.
Qed.

Lemma processed_trans n m s1 s2 s3 :
  processed n s1 s2 -> processed m s2 s3 -> processed (n + m) s1 s3.
Proof.
  intros (Hc1 & He1 & r1 & Hr1 & Hl1 & Hf1) (Hc2 & He2 & r2 & Hr2 & Hl2 & Hf2).
  split; [lia|]. split; [congruence|].
  exists (r1 ++ r2)%list. rewrite Hr2, Hr1, <- app_assoc, length_app, Hl1, Hl2.
  rewrite Forall_app. auto.
Qed.

(** One more record with a non-error outcome. *)
Lemma processed_one (c : Conn) (l l' : Locals) (db' : Db) (r : ImportRow) :
  newCustomers l' + matchedCustomers l' + skippedRows l'
  = newCustomers l + matchedCustomers l + skippedRows l + 1 ->
  row_errors l' = row_errors l ->
  import_rows db' = (import_rows (conn_db c) ++ [r])%list ->
  action r <> "error" ->
  processed 1 (c, l) (mkConn db' false, l').
Proof.
  intros Hc He Hr Ha. split; [simpl; lia|]. split; [exact He|].
  exists [r]. simpl. auto.
Qed.

(** The [try] block either writes one audit row that is not an error row,
    or fails on a rejected statement. *)
Lemma import_row_try_ends courseId importId source i row s :
  tx_failed (fst s) = false ->
  ends (import_row_try courseId importId source i row s) (processed 1 s).
Proof.
  destruct s as [[db failed] l]. simpl. intros ->.
  unfold import_row_try, lookup_row_customer, bind, db_query, query, modify, ret,
    select, insert_import_row.
  cbn [fst snd conn_db tx_failed].
  repeat (case_match; simplify_eq; cbn [fst snd conn_db tx_failed ends] in * );
    try reflexivity;
    (split; [reflexivity|]);
    repeat match goal with
           | H : update_customer _ _ _ = inr _ |- _ =>
               apply update_customer_import_rows in H
           | H : insert_customer _ _ = inr _ |- _ =>
               apply insert_customer_import_rows in H
           end;
    (eapply processed_one;
     [simpl; lia | reflexivity
     | simpl;
       first [reflexivity
             | match goal with H : import_rows _ = _ |- _ => rewrite H end;
               reflexivity]
     | simpl; discriminate]).
Qed.

(** On an aborted transaction the [catch] block cannot write its audit
    row: its [INSERT] is rejected and the exception leaves the loop. *)
Lemma import_row_catch_rejected importId i row rowError s :
  tx_failed (fst s) = true ->
  ends (import_row_catch importId i row rowError s) (fun _ => False).
Proof.
  destruct s as [[db failed] l]. simpl. intros ->. reflexivity.
Qed.

(** One turn of the loop. *)
Lemma import_turn_ends courseId importId source i row s :
  tx_failed (fst s) = false ->
  ends (try_catch (import_row_try courseId importId source i row)
                  (import_row_catch importId i row) s)
       (processed 1 s).
Proof.
  intros Hlive. pose proof (import_row_try_ends courseId importId source i row s Hlive) as Htry.
  unfold try_catch.
  destruct (import_row_try courseId importId source i row s) as [[e|[]] s1].
  - pose proof (import_row_catch_rejected importId i row e s1 Htry) as Hcatch.
    destruct (import_row_catch importId i row e s1) as [[e'|[]] s2]; simpl in *; tauto.
  - exact Htry.
Qed.

(** The whole loop: it ends normally only if no record had an error
    outcome. *)
Lemma import_loop_ends courseId importId source records i s :
  tx_failed (fst s) = false ->
  ends (import_loop courseId importId source i records s)
       (processed (length records) s).
Proof.
  revert i s. induction records as [|row rest IH]; intros i s Hlive.
  - simpl. split; [exact Hlive|apply processed_refl].
  - pose proof (import_turn_ends courseId importId source i row s Hlive) as Hturn.
    cbn [import_loop]. unfold bind at 1.
    destruct (try_catch _ _ s) as [[e|[]] s1]; [exact Hturn|].
    destruct Hturn as [Hlive1 Hone].
    specialize (IH (i + 1) s1 Hlive1).
    destruct (import_loop courseId importId source (i + 1) rest s1) as [[e|[]] s2];
      [exact IH|].
    destruct IH as [Hlive2 Hrest]. split; [exact Hlive2|].
    exact (processed_trans 1 (length rest) s s1 s2 Hone Hrest).
Qed.

(** No import records an error outcome.  A batch that gets a reply with
    statistics has zero errors, its three other counters add up to the
    number of records, and it has written one audit row per record, none
    of them an error row; any other batch is rolled back whole. *)
Lemma import_batch_outcomes courseSlug source file db :
  match import_batch courseSlug source file db with
  | (ImportOk _ totalRows created matched skipped errs, db') =>
      errs = 0
      /\ created + matched + skipped = totalRows
      /\ exists f rows,
           file = Some f
           /\ totalRows = Z.of_nat (length (records f))
           /\ import_rows db' = (import_rows db ++ rows)%list
           /\ length rows = length (records f)
           /\ Forall (fun a => action a <> "error") rows
  | (ImportError _, db') => db' = db
  end.
Proof.
  unfold import_batch, import_tx.
  destruct file as [f|]; [|reflexivity].
  unfold bind at 1. unfold db_query at 1. cbn [fst snd]. rewrite select_live.
  destruct (course_by_slug (default default_slug courseSlug) db) as [course|];
    [|reflexivity].
  unfold bind at 1. unfold db_query at 1, query, insert_import. cbn [fst snd conn_db tx_failed].
  destruct source as [src|]; [|reflexivity].
  set (s0 := (mkConn _ false, mkLocals 0 0 0 [])).
  pose proof (import_loop_ends (course_id course) (next_id db) (default "" (Some src))
                (records f) 0 s0 eq_refl) as Hloop.
  unfold bind at 1.
  destruct (import_loop _ _ _ 0 (records f) s0) as [[e|[]] [[db1 failed] l1]];
    [reflexivity|].
  destruct Hloop as [Hlive (Hcount & Herr & rows & Hrows & Hlen & Hact)].
  simpl in Hlive, Hcount, Herr, Hrows. subst failed.
  unfold bind, get_locals, db_query, query, complete_import, ret. simpl.
  rewrite Herr. simpl. split; [reflexivity|]. split; [lia|].
  exists f, rows. rewrite Hrows. auto.
Qed.

(** C7, at the failing input.  The second of three records has Al's
    address and Bea's phone number: filling in Al's phone breaks
    [unique_phone_per_course], the statement is rejected, the
    [catch] block's audit [INSERT] is rejected in turn because the
    transaction is aborted, and the whole batch is rolled back with a 500
    reply: no audit row, not even for the first record, and the third
    record is never reached. *)
Theorem import_row_failure_aborts_batch :
  import_batch None (Some "generic")
               (Some (mkUpload "members.csv"
                               [Sample.row_new; Sample.row_clash; Sample.row_blank]))
               Sample.db
  = (ImportError tx_aborted, Sample.db).
Proof. vm_compute. reflexivity. Qed.

(** * Further properties *)

(** ** Contact normalization *)

Lemma filter_string_app p (a b : string) :
  filter_string p (a ++ b) = filter_string p a ++ filter_string p b.
Proof.
  induction a as [|c r IH]; simpl; [reflexivity|].
  destruct (p c); simpl; rewrite IH; reflexivity.
Qed.

(** What [normalizePhone] does on a string, the empty one included. *)
Lemma normalizePhone_run (p : string) :
  normalizePhone (Some p)
  = if Nat.eqb (String.length (strip_non_digits p)) 10 then Some (strip_non_digits p)
    else if Nat.eqb (String.length (strip_non_digits p)) 11
            && starts_with_1 (strip_non_digits p)
         then Some (slice1 (strip_non_digits p)) else None.
Proof. destruct p; reflexivity. Qed.

(** A ten-digit number written with the country code 1 in front, in any
    punctuation, normalizes to the same key as the number without it. *)
Theorem normalizePhone_country_code (prefix s : string) :
  strip_non_digits prefix = "1" ->
  String.length (strip_non_digits s) = 10%nat ->
  normalizePhone (Some (prefix ++ s)) = Some (strip_non_digits s)
  /\ normalizePhone (Some s) = Some (strip_non_digits s).
Proof.
  intros Hp Hs. rewrite !normalizePhone_run. unfold strip_non_digits in *.
  rewrite filter_string_app, Hp.
  change ("1" ++ filter_string is_digit s)
    with (String "1"%char (filter_string is_digit s)).
  cbn [String.length starts_with_1 slice1]. rewrite Hs. auto.
Qed.

Lemma normalizePhone_country_code_witness :
  normalizePhone (Some ("+1 " ++ "(555) 123-4567")) = Some "5551234567"
  /\ normalizePhone (Some "(555) 123-4567") = Some "5551234567".
Proof.
  apply (normalizePhone_country_code "+1 " "(555) 123-4567"); reflexivity.
Defined.

Lemma lower_ascii_idem (c : ascii) : lower_ascii (lower_ascii c) = lower_ascii c.
Proof. destruct c as [[] [] [] [] [] [] [] []]; reflexivity. Qed.

Lemma lower_ascii_space (c : ascii) : is_space (lower_ascii c) = is_space c.
Proof. destruct c as [[] [] [] [] [] [] [] []]; reflexivity. Qed.

Lemma toLowerCase_idem (s : string) : toLowerCase (toLowerCase s) = toLowerCase s.
Proof.
  unfold toLowerCase. induction s as [|c r IH]; simpl; [reflexivity|].
  rewrite lower_ascii_idem, IH. reflexivity.
Qed.

Lemma toLowerCase_trim_start (s : string) :
  toLowerCase (trim_start s) = trim_start (toLowerCase s).
Proof.
  unfold toLowerCase. induction s as [|c r IH]; simpl; [reflexivity|].
  rewrite lower_ascii_space. destruct (is_space c); [exact IH|reflexivity].
Qed.

Lemma toLowerCase_trim_end (s : string) :
  toLowerCase (trim_end s) = trim_end (toLowerCase s).
Proof.
  unfold toLowerCase. induction s as [|c r IH]; simpl; [reflexivity|].
  rewrite <- IH, lower_ascii_space.
  destruct (trim_end r); simpl; [destruct (is_space c)|]; reflexivity.
Qed.

Lemma trim_start_cases (s : string) :
  trim_start s = "" \/ exists c r, trim_start s = String c r /\ is_space c = false.
Proof.
  induction s as [|c r IH]; simpl; [auto|].
  destruct (is_space c) eqn:Hc; [exact IH|]. right. eauto.
Qed.

Lemma trim_end_idem (s : string) : trim_end (trim_end s) = trim_end s.
Proof.
  induction s as [|c r IH]; simpl; [reflexivity|].
  destruct (trim_end r) as [|d t] eqn:Ht.
  - destruct (is_space c) eqn:Hc; simpl; [reflexivity|]. rewrite Hc. reflexivity.
  - simpl in *. rewrite IH. reflexivity.
Qed.

Lemma trim_end_head (c : ascii) (r : string) :
  is_space c = false -> exists r', trim_end (String c r) = String c r'.
Proof.
  intros Hc. simpl. destruct (trim_end r); [rewrite Hc|]; eauto.
Qed.

Lemma trim_idem (s : string) : trim (trim s) = trim s.
Proof.
  unfold trim. destruct (trim_start_cases s) as [->|(c & r & -> & Hc)]; [reflexivity|].
  destruct (trim_end_head c r Hc) as [r' Hr']. rewrite Hr' at 1. simpl trim_start.
  rewrite Hc, <- Hr'. apply trim_end_idem.
Qed.

Lemma toLowerCase_trim (s : string) : toLowerCase (trim s) = trim (toLowerCase s).
Proof. unfold trim. rewrite toLowerCase_trim_end, toLowerCase_trim_start. reflexivity. Qed.

Lemma lower_ascii_is_ascii (c : ascii) : is_ascii c = true -> is_ascii (lower_ascii c) = true.
Proof. destruct c as [[] [] [] [] [] [] [] []]; intros H; (reflexivity || discriminate). Qed.

Lemma toLowerCase_is_ascii (s : string) :
  all_string is_ascii s = true -> all_string is_ascii (toLowerCase s) = true.
Proof.
  unfold toLowerCase. induction s as [|c r IH]; simpl; [reflexivity|].
  intros [Hc Hr]%andb_true_iff. now rewrite lower_ascii_is_ascii, IH.
Qed.

Lemma trim_start_all (p : ascii -> bool) (s : string) :
  all_string p s = true -> all_string p (trim_start s) = true.
Proof.
  induction s as [|c r IH]; simpl; [reflexivity|].
  intros H. destruct (is_space c); [|exact H].
  apply andb_true_iff in H as [_ H]. auto.
Qed.

Lemma trim_end_all (p : ascii -> bool) (s : string) :
  all_string p s = true -> all_string p (trim_end s) = true.
Proof.
  induction s as [|c r IH]; simpl; [reflexivity|].
  intros [Hc Hr]%andb_true_iff. specialize (IH Hr).
  destruct (trim_end r) as [|d t].
  - destruct (is_space c); simpl; [reflexivity|]. now rewrite Hc.
  - simpl in *. now rewrite Hc.
Qed.

(** X2.  On an address of ASCII characters the normalized form is ASCII
    text again, lower case and trimmed, and normalizing it again changes
    nothing; a missing address stays missing. *)
Theorem normalizeEmail_idempotent (email : option string) :
  ascii_text email = true ->
  ascii_text (normalizeEmail email) = true
  /\ normalizeEmail (normalizeEmail email) = normalizeEmail email
  /\ (forall r, normalizeEmail email = Some r -> toLowerCase r = r /\ trim r = r)
  /\ (normalizeEmail email = None <-> email = None).
Proof.
  intros Hascii. destruct email as [e|]; simpl.
  - split; [|split; [|split]].
    + unfold trim. apply trim_end_all, trim_start_all, toLowerCase_is_ascii.
      exact Hascii.
    + rewrite toLowerCase_trim, toLowerCase_idem, trim_idem. reflexivity.
    + intros r [= <-]. split.
      * rewrite toLowerCase_trim, toLowerCase_idem. reflexivity.
      * apply trim_idem.
    + split; discriminate.
  - split; [reflexivity|]. split; [reflexivity|]. split; [discriminate|tauto].
Qed.

Lemma normalizeEmail_idempotent_witness :
  normalizeEmail (normalizeEmail (Some " A@X.com ")) = normalizeEmail (Some " A@X.com ").
Proof.
  apply (normalizeEmail_idempotent (Some " A@X.com ")). reflexivity.
Defined.

(** ** Scoring *)

Lemma tier_points (c : Customer) :
  frequency_points c
  = match tier (play_frequency c) with
    | 3%nat => 25 | 2%nat => 15 | 1%nat => 5 | _ => 0
    end.
Proof.
  unfold frequency_points, points, plays, tier.
  destruct (play_frequency c) as [f|]; [|reflexivity].
  destruct (String.eqb_spec f "weekly") as [->|]; [reflexivity|].
  destruct (String.eqb_spec f "monthly") as [->|]; [reflexivity|].
  destruct (String.eqb f "rarely"); reflexivity.
Qed.

(** The score never goes down when a customer visits more, plays more
    often or turns out to be local, the other signals staying as they
    are. *)
Theorem calculateMembershipScore_monotone (c c' : Customer) :
  (is_true (is_local c) = true -> is_true (is_local c') = true) ->
  (tier (play_frequency c) <= tier (play_frequency c'))%nat ->
  visit_count c <= visit_count c' ->
  is_false (member_elsewhere c) = is_false (member_elsewhere c') ->
  truthy (email c) = truthy (email c') ->
  truthy (phone c) = truthy (phone c') ->
  truthy (zip c) = truthy (zip c') ->
  calculateMembershipScore c <= calculateMembershipScore c'.
Proof.
  intros Hl Ht Hv Hm He Hp Hz.
  assert (Hsum : forall x : Customer,
             calculateMembershipScore x
             = Z.min (points (is_true (is_local x)) 30 + frequency_points x
                      + visit_points x + points (is_false (member_elsewhere x)) 15
                      + points (truthy (email x) && truthy (phone x)) 5
                      + points (truthy (zip x)) 5) 100).
  { intros x. unfold calculateMembershipScore.
    set (s0 := if is_true (is_local x) then 0 + 30 else 0).
    destruct (frequency_band x s0) as (-> & _ & _).
    destruct (visit_band x (s0 + frequency_points x)) as (-> & _ & _).
    subst s0. unfold points.
    destruct (is_true (is_local x)), (is_false (member_elsewhere x)),
      (truthy (email x)), (truthy (phone x)), (truthy (zip x)); simpl; lia. }
  rewrite (Hsum c), (Hsum c').
  apply Z.min_le_compat_r.
  rewrite Hm, He, Hp, Hz, !tier_points.
  assert (Hvisits : visit_points c <= visit_points c').
  { unfold visit_points, points.
    destruct (Z.geb_spec (visit_count c) 5), (Z.geb_spec (visit_count c') 5),
      (Z.eqb_spec (visit_count c) 3), (Z.eqb_spec (visit_count c') 3),
      (Z.eqb_spec (visit_count c) 4), (Z.eqb_spec (visit_count c') 4),
      (Z.eqb_spec (visit_count c) 2), (Z.eqb_spec (visit_count c') 2); simpl; lia. }
  assert (Hlocal : points (is_true (is_local c)) 30 <= points (is_true (is_local c')) 30).
  { unfold points. destruct (is_true (is_local c)); [rewrite Hl by reflexivity; lia|].
    destruct (is_true (is_local c')); lia. }
  assert (Htier : match tier (play_frequency c) with
                  | 3%nat => 25 | 2%nat => 15 | 1%nat => 5 | _ => 0 end
                  <= match tier (play_frequency c') with
                     | 3%nat => 25 | 2%nat => 15 | 1%nat => 5 | _ => 0 end).
  { assert (Hmax : forall f, (tier f <= 3)%nat).
    { intros [f|]; simpl; [|lia].
      destruct (String.eqb f "weekly"), (String.eqb f "monthly"),
        (String.eqb f "rarely"); lia. }
    pose proof (Hmax (play_frequency c')).
    destruct (tier (play_frequency c)) as [|[|[|[|n]]]],
             (tier (play_frequency c')) as [|[|[|[|n']]]]; lia. }
  lia.
Qed.

Lemma calculateMembershipScore_monotone_witness :
  calculateMembershipScore Sample.visitor <= calculateMembershipScore Sample.best.
Proof.
  apply (calculateMembershipScore_monotone Sample.visitor Sample.best);
    first [reflexivity | discriminate | simpl; lia].
Defined.

(** ** The reward code *)

Lemma charAt_clear (i : nat) :
  forall c, In c (list_ascii_of_string (charAt chars i)) -> ambiguous c = false.
Proof.
  do 32 (destruct i as [|i]; [intros c [<-|[]]; reflexivity|]).
  intros c [].
Qed.

Lemma list_ascii_app (a b : string) :
  list_ascii_of_string (a ++ b)
  = (list_ascii_of_string a ++ list_ascii_of_string b)%list.
Proof. induction a as [|c r IH]; simpl; [reflexivity|]. rewrite IH. reflexivity. Qed.

(** A reward code never holds 0, O, 1 or I; with draws in range it is the
    prefix CP followed by six symbols of the alphabet, eight characters in
    all. *)
Theorem generateRewardCode_format (rnd : nat -> nat) :
  (forall c, In c (list_ascii_of_string (generateRewardCode rnd)) -> ambiguous c = false)
  /\ ((forall i, (i < 6)%nat -> (rnd i < 32)%nat) ->
      String.length (generateRewardCode rnd) = 8%nat
      /\ exists symbols,
           generateRewardCode rnd = "CP" ++ symbols
           /\ String.length symbols = 6%nat
           /\ forall c, In c (list_ascii_of_string symbols) ->
                        In c (list_ascii_of_string chars)).
Proof.
  assert (Hfold : generateRewardCode rnd =
            ((((("CP" ++ charAt chars (rnd 0%nat)) ++ charAt chars (rnd 1%nat))
                 ++ charAt chars (rnd 2%nat)) ++ charAt chars (rnd 3%nat))
                 ++ charAt chars (rnd 4%nat)) ++ charAt chars (rnd 5%nat)) by reflexivity.
  split.
  - rewrite Hfold. intros c. rewrite !list_ascii_app, !in_app_iff.
    intros [[[[[[Hc|Hc]|Hc]|Hc]|Hc]|Hc]|Hc];
      try (eapply charAt_clear; exact Hc).
    destruct Hc as [<-|[<-|[]]]; reflexivity.
  - intros Hvalid.
    destruct (charAt_symbol _ (Hvalid 0%nat ltac:(lia))) as (a0 & G0 & H0).
    destruct (charAt_symbol _ (Hvalid 1%nat ltac:(lia))) as (a1 & G1 & H1).
    destruct (charAt_symbol _ (Hvalid 2%nat ltac:(lia))) as (a2 & G2 & H2).
    destruct (charAt_symbol _ (Hvalid 3%nat ltac:(lia))) as (a3 & G3 & H3).
    destruct (charAt_symbol _ (Hvalid 4%nat ltac:(lia))) as (a4 & G4 & H4).
    destruct (charAt_symbol _ (Hvalid 5%nat ltac:(lia))) as (a5 & G5 & H5).
    rewrite Hfold, H0, H1, H2, H3, H4, H5. simpl. split; [reflexivity|].
    eexists. split; [reflexivity|]. split; [reflexivity|].
    assert (Hin : forall i a, String.get i chars = Some a ->
                              In a (list_ascii_of_string chars)).
    { intros i a Ha. rewrite get_list in Ha. apply list_elem_of_In.
      eapply list_elem_of_lookup_2. exact Ha. }
    intros c [<-|[<-|[<-|[<-|[<-|[<-|[]]]]]]]; eapply Hin; eassumption.
Qed.

Lemma generateRewardCode_format_witness :
  String.length (generateRewardCode Sample.draws) = 8%nat
  /\ exists symbols,
       generateRewardCode Sample.draws = "CP" ++ symbols
       /\ String.length symbols = 6%nat
       /\ forall c, In c (list_ascii_of_string symbols) ->
                    In c (list_ascii_of_string chars).
Proof.
  apply (proj2 (generateRewardCode_format Sample.draws)).
  intros i Hi. unfold Sample.draws. lia.
Defined.

(** ** The capture handlers, step by step *)

Lemma lookup_if_present_found key q c o c' :
  lookup_if_present key q c = (inr o, c') ->
  o = found_by key q (conn_db c) /\ conn_db c' = conn_db c.
Proof.
  unfold lookup_if_present, found_by. destruct key as [k|].
  - destruct (truthy (Some k)).
    + intros (-> & -> & _)%select_ok. auto.
    + intros [= <- <-]. auto.
  - intros [= <- <-]. auto.
Qed.

Lemma insert_capture_row row db i db' :
  insert_capture row db = inr (i, db') ->
  db' = with_captures (captures db ++ [row (next_id db)]) (bump db).
Proof.
  unfold insert_capture. cbv zeta.
  destruct (match location_id _ with Some _ => _ | None => _ end); [|discriminate].
  intros [= _ <-]. reflexivity.
Qed.

(** The steps of a submission the first server has stored. *)
Lemma server_js_capture_steps now rnd b db rc isNew cid db' :
  ServerJs.capture now rnd b db = (CaptureOk rc isNew cid, db') ->
  exists course c2 c4 p c5 i c6,
    course_by_slug (slug_or_default (Body.courseSlug b)) db = Some course
    /\ conn_db c2 = db
    /\ isNew = bool_decide (option_map cust_id (matched_customer (course_id course) b db)
                            = None)
    /\ upsert_capture_customer now (course_id course) b
         (normalizeEmail (Body.email b)) (normalizePhone (Body.phone b))
         (option_map cust_id (matched_customer (course_id course) b db)) c2
       = (inr cid, c4)
    /\ rescore cid c4 = (inr p, c5)
    /\ query (insert_capture
                (capture_row (course_id course) cid b (generateRewardCode rnd)
                             "free_beer")) c5 = (inr i, c6)
    /\ db' = conn_db c6
    /\ rc = Some (generateRewardCode rnd).
Proof.
  unfold ServerJs.capture.
  destruct (ServerJs.capture_tx now rnd b (mkConn db false)) as [[e|r] c6] eqn:Htx;
    [discriminate|].
  intros [= -> <-]. unfold ServerJs.capture_tx in Htx.
  apply bind_ok in Htx as (courseResult & c0 & Hcourse & Htx).
  apply select_ok in Hcourse as (-> & Hdb0 & _). simpl in Htx, Hdb0.
  destruct (course_by_slug _ db) as [course|] eqn:Hcourse; [|discriminate].
  apply bind_ok in Htx as (byEmail & c1 & Hemail & Htx).
  apply lookup_if_present_found in Hemail as [-> Hdb1]. rewrite Hdb0 in *.
  apply bind_ok in Htx as (byPhone & c2 & Hphone & Htx).
  assert (Hmatch :
            match byPhone with
            | Some row => Some (cust_id row)
            | None => option_map cust_id
                        (found_by (normalizeEmail (Body.email b))
                                  (customer_by_email (course_id course)) db)
            end = option_map cust_id (matched_customer (course_id course) b db)
            /\ conn_db c2 = db).
  { unfold matched_customer.
    destruct (found_by (normalizeEmail (Body.email b)) _ db) as [a|]; simpl in *.
    - injection Hphone as <- <-. auto.
    - apply lookup_if_present_found in Hphone as [-> Hdb2]. rewrite Hdb1 in *.
      destruct (found_by (normalizePhone (Body.phone b)) _ db); auto. }
  destruct Hmatch as [Hmatch Hdb2]. rewrite Hmatch in Htx.
  apply bind_ok in Htx as (customerId & c4 & Hupsert & Htx).
  apply bind_ok in Htx as (p & c5 & Hscore & Htx).
  apply bind_ok in Htx as (i & c7 & Hcap & Hret).
  injection Hret as <- <- <- <-.
  exists course, c2, c4, p, c5, i, c7. repeat split; auto.
Qed.

Lemma update_customer_ids cid upd db u db' :
  (forall c, cust_id (upd c) = cust_id c) ->
  update_customer cid upd db = inr (u, db') ->
  map cust_id (customers db') = map cust_id (customers db).
Proof.
  intros Hid. unfold update_customer. destruct (existsb _ _); [discriminate|].
  intros [= _ <-]. simpl. rewrite map_map. apply map_ext. intros c.
  destruct (bool_decide _); [apply Hid|reflexivity].
Qed.

Lemma rescore_rows cid c p c' :
  rescore cid c = (inr p, c') ->
  customers (conn_db c')
  = map (fun x => if bool_decide (cust_id x = cid)
                  then set_score (calculateMembershipScore
                                    (default x (customer_by_id cid (conn_db c))))
                                 p x
                  else x)
        (customers (conn_db c)).
Proof.
  unfold rescore. intros (o & c1 & Hsel & Hk)%bind_ok.
  apply select_ok in Hsel as (-> & Hdb & _).
  destruct (customer_by_id cid (conn_db c)) as [row|] eqn:Hrow; [|discriminate].
  apply bind_ok in Hk as ([] & c2 & Hupd & Hret). injection Hret as <- <-.
  apply query_ok in Hupd as (_ & Hupd & _). unfold update_unkeyed in Hupd.
  injection Hupd as Hdb2. rewrite <- Hdb2, Hdb. reflexivity.
Qed.

(** The first server looks a customer up by e-mail address and, failing
    that, by phone number.  A submission that finds one is stored under
    that customer's id and adds no customer row; one that finds none
    creates exactly one row, on its first visit and with source
    "capture". *)
Theorem server_js_matches_email_then_phone now rnd b db rc isNew cid db' :
  ServerJs.capture now rnd b db = (CaptureOk rc isNew cid, db') ->
  exists course,
    course_by_slug (slug_or_default (Body.courseSlug b)) db = Some course
    /\ match matched_customer (course_id course) b db with
       | Some row =>
           isNew = false /\ cid = cust_id row
           /\ map cust_id (customers db') = map cust_id (customers db)
       | None =>
           isNew = true
           /\ exists rows row,
                customers db' = (rows ++ [row])%list
                /\ map cust_id rows = map cust_id (customers db)
                /\ cust_id row = cid
                /\ visit_count row = 1
                /\ source row = "capture"
                /\ email row = normalizeEmail (Body.email b)
                /\ phone row = normalizePhone (Body.phone b)
       end.
Proof.
  intros (course & c2 & c4 & p & c5 & i & c6 & Hcourse & Hdb2 & -> & Hupsert & Hscore
          & Hcap & -> & _)%server_js_capture_steps.
  exists course. split; [exact Hcourse|].
  apply query_ok in Hcap as (_ & Hcap & _). apply insert_capture_ok in Hcap as [_ Hcust6].
  rewrite Hcust6, (rescore_rows _ _ _ _ Hscore).
  assert (Hids : forall l : list Customer,
             map cust_id
               (map (fun x => if bool_decide (cust_id x = cid)
                              then set_score
                                     (calculateMembershipScore
                                        (default x (customer_by_id cid (conn_db c4)))) p x
                              else x) l)
             = map cust_id l).
  { intros l. rewrite map_map. apply map_ext. intros x. destruct (bool_decide _); reflexivity. }
  unfold upsert_capture_customer in Hupsert.
  destruct (matched_customer (course_id course) b db) as [row|]; simpl in *.
  - apply bind_ok in Hupsert as (u & c3 & Hupd & Hret). injection Hret as <- <-.
    apply query_ok in Hupd as (_ & Hupd & _).
    apply update_customer_ids in Hupd; [|reflexivity].
    rewrite Hids, Hupd, Hdb2. auto.
  - apply query_ok in Hupsert as (_ & Hins & _). unfold insert_customer in Hins.
    destruct (existsb _ _); [discriminate|]. injection Hins as Hcid Hdb4.
    rewrite Hdb2 in *.
    assert (Hcs : customers (conn_db c4)
                  = (customers db
                     ++ [new_capture_customer now (course_id course) b
                           (normalizeEmail (Body.email b))
                           (normalizePhone (Body.phone b)) (next_id db)])%list).
    { rewrite <- Hdb4. reflexivity. }
    rewrite Hcs, map_app. split; [reflexivity|].
    eexists. eexists. split; [reflexivity|]. split; [apply Hids|].
    cbn [map new_capture_customer cust_id].
    rewrite bool_decide_eq_true_2 by exact Hcid. repeat split; auto.
Qed.

Lemma server_js_matches_email_then_phone_witness :
  exists course,
    course_by_slug (slug_or_default (Body.courseSlug Sample.form)) Sample.db = Some course
    /\ match matched_customer (course_id course) Sample.form Sample.db with
       | Some row =>
           false = false /\ 10%nat = cust_id row
           /\ map cust_id (customers Sample.db_after_form)
              = map cust_id (customers Sample.db)
       | None =>
           false = true
           /\ exists rows row,
                customers Sample.db_after_form = (rows ++ [row])%list
                /\ map cust_id rows = map cust_id (customers Sample.db)
                /\ cust_id row = 10%nat
                /\ visit_count row = 1
                /\ source row = "capture"
                /\ email row = normalizeEmail (Body.email Sample.form)
                /\ phone row = normalizePhone (Body.phone Sample.form)
       end.
Proof.
  apply (server_js_matches_email_then_phone 5 Sample.draws Sample.form Sample.db
           (Some "CPABCDEF") false 10 Sample.db_after_form).
  vm_compute. reflexivity.
Defined.

(** The steps of a submission the extended server has stored. *)
Lemma part000_capture_tx_steps now rnd b db isNew cid c7 :
  Part000.capture_tx now rnd b (mkConn db false) = (inr (Part000.Stored isNew cid), c7) ->
  exists course c3 c4 p c5 i c6,
    course_by_slug (slug_or_default (Body.courseSlug b)) db = Some course
    /\ conn_db c3 = db
    /\ isNew = bool_decide
                 (option_map cust_id
                    (found_by (normalizeEmail (Body.email b))
                              (customer_by_email (course_id course)) db) = None)
    /\ upsert_capture_customer now (course_id course) b
         (normalizeEmail (Body.email b)) (normalizePhone (Body.phone b))
         (option_map cust_id
            (found_by (normalizeEmail (Body.email b))
                      (customer_by_email (course_id course)) db)) c3
       = (inr cid, c4)
    /\ rescore cid c4 = (inr p, c5)
    /\ query (insert_capture
                (capture_row (course_id course) cid b (generateRewardCode rnd)
                             (Part000.reward_type_of (Body.chosenReward b)))) c5
       = (inr i, c6)
    /\ (if p then query (Part000.enroll_prospect (course_id course) cid) c6 = (inr tt, c7)
        else c7 = c6).
Proof.
  unfold Part000.capture_tx. intros Htx.
  apply bind_ok in Htx as (courseResult & c0 & Hcourse & Htx).
  apply select_ok in Hcourse as (-> & Hdb0 & _). simpl in Htx, Hdb0.
  destruct (course_by_slug _ db) as [course|] eqn:Hcourse; [|discriminate].
  apply bind_ok in Htx as (byEmail & c1 & Hemail & Htx).
  apply lookup_if_present_found in Hemail as [-> Hdb1]. rewrite Hdb0 in *.
  apply bind_ok in Htx as (check1 & c2 & Hcheck1 & Htx).
  assert (Hdb2 : conn_db c2 = db).
  { destruct (option_map cust_id _).
    - apply select_ok in Hcheck1 as (_ & H & _). congruence.
    - injection Hcheck1 as _ <-. exact Hdb1. }
  destruct check1; [discriminate|].
  apply bind_ok in Htx as (check2 & c3 & Hcheck2 & Htx).
  assert (Hdb3 : conn_db c3 = db).
  { destruct (normalizeEmail (Body.email b)) as [e|].
    - destruct (truthy (Some e)).
      + apply select_ok in Hcheck2 as (_ & H & _). congruence.
      + injection Hcheck2 as _ <-. exact Hdb2.
    - injection Hcheck2 as _ <-. exact Hdb2. }
  destruct check2; [discriminate|].
  apply bind_ok in Htx as (customerId & c4 & Hupsert & Htx).
  apply bind_ok in Htx as (p & c5 & Hscore & Htx).
  apply bind_ok in Htx as (i & c6 & Hcap & Htx).
  apply bind_ok in Htx as ([] & c8 & Henroll & Hret).
  injection Hret as <- <- <-.
  exists course, c3, c4, p, c5, i, c6. repeat split; auto.
  destruct p; [exact Henroll|]. injection Henroll as <-. reflexivity.
Qed.

(** ** Exits of the capture handlers *)

(** An unknown course slug stops a submission and an upload alike: the
    reply is "Course not found" and nothing is written. *)
Theorem course_not_found_leaves_state now rnd b db :
  course_by_slug (slug_or_default (Body.courseSlug b)) db = None ->
  ServerJs.capture now rnd b db = (ServerError "Course not found", db)
  /\ Part000.capture now rnd b db = (ServerError "Course not found", db)
  /\ (forall courseSlug source file,
         course_by_slug (default default_slug courseSlug) db = None ->
         import_batch courseSlug source (Some file) db
         = (ImportError "Course not found", db)).
Proof.
  intros Hnone. split; [|split].
  - unfold ServerJs.capture, ServerJs.capture_tx, bind.
    rewrite select_live, Hnone. reflexivity.
  - unfold Part000.capture, Part000.capture_tx, bind.
    rewrite select_live, Hnone. reflexivity.
  - intros courseSlug source file Himport. unfold import_batch, import_tx, bind, db_query.
    cbn [fst snd]. rewrite select_live, Himport. reflexivity.
Qed.

Lemma course_not_found_leaves_state_witness :
  ServerJs.capture 5 Sample.draws Sample.form Sample2.no_course
  = (ServerError "Course not found", Sample2.no_course)
  /\ Part000.capture 5 Sample.draws Sample.form
       Sample2.no_course
     = (ServerError "Course not found", Sample2.no_course)
  /\ (forall courseSlug source file,
         course_by_slug (default default_slug courseSlug)
                        Sample2.no_course = None ->
         import_batch courseSlug source (Some file)
                      Sample2.no_course
         = (ImportError "Course not found",
            Sample2.no_course)).
Proof.
  apply (course_not_found_leaves_state 5 Sample.draws Sample.form
           Sample2.no_course).
  reflexivity.
Defined.

Lemma no_customer_no_capture (courseId : Id) (e : string) (db : Db) :
  customer_by_email courseId e db = None ->
  Part000.email_has_capture courseId e db = false.
Proof.
  unfold customer_by_email, Part000.email_has_capture. intros Hnone.
  apply not_true_is_false. intros (cap & _ & (cu & Hcu & Hhit)%existsb_exists)%existsb_exists.
  apply andb_true_iff in Hhit as [[_ Hc]%andb_true_iff He].
  pose proof (find_none _ _ Hnone cu Hcu) as Hno. simpl in Hno.
  rewrite Hc, He in Hno. discriminate.
Qed.

Lemma insert_customer_clash row db :
  existsb (clashes (row (next_id db))) (customers db) = true ->
  insert_customer row db = inl unique_violation.
Proof. intros H. unfold insert_customer. rewrite H. reflexivity. Qed.

(** The extended server never matches on the phone number.  A submission
    under an unknown address that gives the phone number of an existing
    customer of the course is therefore sent to [INSERT], which breaks
    [unique_phone_per_course]: the reply is a server error and nothing is
    written. *)
Theorem part000_shared_phone_rejected now rnd b db course p cu :
  course_by_slug (slug_or_default (Body.courseSlug b)) db = Some course ->
  found_by (normalizeEmail (Body.email b)) (customer_by_email (course_id course)) db
  = None ->
  normalizePhone (Body.phone b) = Some p ->
  In cu (customers db) ->
  cust_course_id cu = course_id course ->
  phone cu = Some p ->
  cust_id cu <> next_id db ->
  Part000.capture now rnd b db = (ServerError unique_violation, db).
Proof.
  intros Hcourse Hnone Hphone Hin Hat Hp Hfresh.
  assert (Hclash : existsb
            (clashes (new_capture_customer now (course_id course) b
                        (normalizeEmail (Body.email b)) (Some p) (next_id db)))
            (customers db) = true).
  { apply existsb_exists. exists cu. split; [exact Hin|]. unfold clashes. simpl.
    rewrite Hp, Hat. simpl.
    rewrite (bool_decide_eq_false_2 (next_id db = cust_id cu)) by congruence.
    rewrite !bool_decide_eq_true_2 by reflexivity. simpl. apply orb_true_r. }
  unfold Part000.capture, Part000.capture_tx, bind.
  rewrite select_live, Hcourse, Hphone.
  unfold lookup_if_present. unfold found_by in Hnone.
  destruct (normalizeEmail (Body.email b)) as [e|] eqn:He.
  - destruct (truthy (Some e)) eqn:Ht.
    + rewrite select_live, Hnone. cbn [option_map ret].
      rewrite select_live, (no_customer_no_capture _ _ _ Hnone).
      cbn [upsert_capture_customer query conn_db tx_failed].
      rewrite (insert_customer_clash _ _ Hclash). reflexivity.
    + cbn [option_map ret upsert_capture_customer query conn_db tx_failed].
      rewrite (insert_customer_clash _ _ Hclash). reflexivity.
  - cbn [option_map ret upsert_capture_customer query conn_db tx_failed].
    rewrite (insert_customer_clash _ _ Hclash). reflexivity.
Qed.

Lemma part000_shared_phone_rejected_witness :
  Part000.capture 5 Sample.draws Sample2.form_shared_phone Sample.db
  = (ServerError unique_violation, Sample.db).
Proof.
  refine (part000_shared_phone_rejected 5 Sample.draws Sample2.form_shared_phone Sample.db
            Sample.course "5551234567" Sample.bea _ _ _ _ _ _ _);
    try reflexivity.
  - right. left. reflexivity.
  - discriminate.
Defined.

Lemma enroll_prospect_keeps courseId cid c6 c7 :
  query (Part000.enroll_prospect courseId cid) c6 = (inr tt, c7) ->
  customers (conn_db c7) = customers (conn_db c6)
  /\ captures (conn_db c7) = captures (conn_db c6)
  /\ (prospect_pipeline (conn_db c7) = prospect_pipeline (conn_db c6)
      /\ In cid (map pp_customer_id (prospect_pipeline (conn_db c6)))
      \/ prospect_pipeline (conn_db c7)
         = (prospect_pipeline (conn_db c6) ++ [mkPipelineEntry courseId cid "new"])%list
         /\ ~ In cid (map pp_customer_id (prospect_pipeline (conn_db c6)))).
Proof.
  intros (_ & H & _)%query_ok. unfold Part000.enroll_prospect in H.
  destruct (existsb _ _) eqn:Hex; injection H as <-; simpl; repeat split; auto.
  - left. split; [reflexivity|].
    apply existsb_exists in Hex as (p & Hp & Hid%bool_decide_eq_true).
    apply in_map_iff. eauto.
  - right. split; [reflexivity|].
    intros (p & Hid & Hp)%in_map_iff.
    assert (existsb (fun p => bool_decide (pp_customer_id p = cid))
                    (prospect_pipeline (conn_db c6)) = true); [|congruence].
    apply existsb_exists. exists p. split; [exact Hp|]. apply bool_decide_eq_true. exact Hid.
Qed.


Lemma part000_stored_row now rnd b db isNew cid c7 :
  Part000.capture_tx now rnd b (mkConn db false) = (inr (Part000.Stored isNew cid), c7) ->
  exists courseId i,
    captures (conn_db c7)
    = (captures db
       ++ [capture_row courseId cid b (generateRewardCode rnd)
                       (Part000.reward_type_of (Body.chosenReward b)) i])%list.
Proof.
  intros (course & c3 & c4 & p & c5 & i & c6 & _ & Hdb3 & _ & Hupsert & Hscore
          & Hcap & Henroll)%part000_capture_tx_steps.
  apply upsert_capture_customer_ok in Hupsert as (Hc4 & _).
  apply rescore_ok in Hscore as (_ & _ & _ & _ & Hc5 & _).
  apply query_ok in Hcap as (_ & Hcap & _). apply insert_capture_ok in Hcap as [Hc6 _].
  exists (course_id course), (next_id (conn_db c5)).
  assert (Hc7 : captures (conn_db c7) = captures (conn_db c6)).
  { destruct p; [|subst; reflexivity].
    apply enroll_prospect_keeps in Henroll as (_ & H & _). exact H. }
  rewrite Hc7, Hc6, Hc5, Hc4, Hdb3. reflexivity.
Qed.

(** Without an address the extended server never answers "already
    claimed". *)
Lemma part000_no_email_not_claimed now rnd b db c :
  Body.email b = None ->
  Part000.capture_tx now rnd b (mkConn db false) <> (inr Part000.Claimed, c).
Proof.
  intros Hnone Htx. unfold Part000.capture_tx in Htx. rewrite Hnone in Htx. simpl in Htx.
  apply bind_ok in Htx as (courseResult & c0 & _ & Htx).
  destruct courseResult as [course|]; [|discriminate].
  apply bind_ok in Htx as (byEmail & c1 & Hemail & Htx). injection Hemail as <- <-.
  apply bind_ok in Htx as (check1 & c2 & Hcheck1 & Htx). injection Hcheck1 as <- <-.
  apply bind_ok in Htx as (check2 & c3 & Hcheck2 & Htx). injection Hcheck2 as <- <-.
  apply bind_ok in Htx as (customerId & c4 & _ & Htx).
  apply bind_ok in Htx as (p & c5 & _ & Htx).
  apply bind_ok in Htx as (i & c6 & _ & Htx).
  apply bind_ok in Htx as (u & c7 & _ & Htx). discriminate.
Qed.

(** A submission without an e-mail address never gets the success reply
    from the extended server; when it passes every statement it is
    committed all the same, as a new customer with a capture, and answered
    with a server error. *)
Theorem part000_missing_email_commits now rnd b db :
  Body.email b = None ->
  (exists msg, fst (Part000.capture now rnd b db) = ServerError msg)
  /\ (forall isNew cid c',
         Part000.capture_tx now rnd b (mkConn db false)
         = (inr (Part000.Stored isNew cid), c') ->
         Part000.capture now rnd b db
         = (ServerError "Cannot read properties of undefined", conn_db c')
         /\ isNew = true
         /\ exists cap, captures (conn_db c') = (captures db ++ [cap])%list
                        /\ customer_id cap = Some cid).
Proof.
  intros Hnone.
  assert (Hne : normalizeEmail (Body.email b) = None) by (rewrite Hnone; reflexivity).
  split.
  - pose proof (part000_no_email_not_claimed now rnd b db) as Hnot.
    unfold Part000.capture. rewrite Hne.
    destruct (Part000.capture_tx now rnd b (mkConn db false)) as [[e|[|n i]] c];
      simpl; eauto.
    exfalso. exact (Hnot c Hnone eq_refl).
  - intros isNew cid c' Htx. unfold Part000.capture. rewrite Htx, Hne.
    split; [reflexivity|].
    destruct (part000_stored_row _ _ _ _ _ _ _ Htx) as (courseId & i & Hcaps).
    apply part000_capture_tx_steps in Htx
      as (course & _ & _ & _ & _ & _ & _ & _ & _ & -> & _).
    rewrite Hne. split; [reflexivity|]. eexists. split; [exact Hcaps|reflexivity].
Qed.

Lemma part000_missing_email_commits_witness :
  (exists msg, fst (Part000.capture 5 Sample.draws Sample2.form_no_email Sample.db)
               = ServerError msg)
  /\ (forall isNew cid c',
         Part000.capture_tx 5 Sample.draws Sample2.form_no_email (mkConn Sample.db false)
         = (inr (Part000.Stored isNew cid), c') ->
         Part000.capture 5 Sample.draws Sample2.form_no_email Sample.db
         = (ServerError "Cannot read properties of undefined", conn_db c')
         /\ isNew = true
         /\ exists cap, captures (conn_db c') = (captures Sample.db ++ [cap])%list
                        /\ customer_id cap = Some cid).
Proof.
  apply (part000_missing_email_commits 5 Sample.draws Sample2.form_no_email Sample.db).
  reflexivity.
Defined.

(** ** From the form to the till *)





(** ** The prospect pipeline *)

Lemma NoDup_snoc {A} (l : list A) (x : A) : NoDup l -> ~ In x l -> NoDup (l ++ [x]).
Proof.
  intros Hl Hx. apply NoDup_app. split; [exact Hl|]. split.
  - intros y Hy. rewrite list_elem_of_In in Hy. intros Hin%list_elem_of_In.
    destruct Hin as [->|[]]. exact (Hx Hy).
  - apply NoDup_singleton.
Qed.

Lemma insert_capture_pipeline row c5 i c6 :
  query (insert_capture row) c5 = (inr i, c6) ->
  prospect_pipeline (conn_db c6) = prospect_pipeline (conn_db c5).
Proof.
  intros (_ & H & _)%query_ok. apply insert_capture_row in H. rewrite H. reflexivity.
Qed.

(** The pipeline of a stored submission of the extended server: what was
    there, and the customer when flagged. *)
Lemma part000_stored_pipeline now rnd b db isNew cid c7 :
  Part000.capture_tx now rnd b (mkConn db false) = (inr (Part000.Stored isNew cid), c7) ->
  exists c,
    customer_by_id cid (conn_db c7) = Some c
    /\ (is_membership_prospect c = true ->
        In cid (map pp_customer_id (prospect_pipeline (conn_db c7)))
        /\ (prospect_pipeline (conn_db c7) = prospect_pipeline db
            \/ exists entry,
                 prospect_pipeline (conn_db c7) = (prospect_pipeline db ++ [entry])%list
                 /\ pp_customer_id entry = cid /\ pp_status entry = "new"
                 /\ ~ In cid (map pp_customer_id (prospect_pipeline db))))
    /\ (is_membership_prospect c = false ->
        prospect_pipeline (conn_db c7) = prospect_pipeline db).
Proof.
  intros (course & c3 & c4 & p & c5 & i & c6 & _ & Hdb3 & _ & Hupsert & Hscore
          & Hcap & Henroll)%part000_capture_tx_steps.
  apply upsert_capture_customer_ok in Hupsert as (_ & Hp4 & _).
  apply rescore_ok in Hscore as (row & _ & Hp & Hrow & _ & Hp5).
  pose proof (insert_capture_pipeline _ _ _ _ Hcap) as Hp6.
  apply query_ok in Hcap as (_ & Hcap & _). apply insert_capture_ok in Hcap as [_ Hcust6].
  assert (Hpipe : prospect_pipeline (conn_db c6) = prospect_pipeline db)
    by (rewrite Hp6, Hp5, Hp4, Hdb3; reflexivity).
  assert (Hfind6 : customer_by_id cid (conn_db c6)
                   = Some (set_score (calculateMembershipScore row) p row)).
  { unfold customer_by_id in *. rewrite Hcust6. exact Hrow. }
  destruct p.
  - apply enroll_prospect_keeps in Henroll as (Hcust7 & _ & Hcases).
    exists (set_score (calculateMembershipScore row) true row).
    split; [unfold customer_by_id in *; rewrite Hcust7; exact Hfind6|].
    split; [|discriminate]. intros _. rewrite Hpipe in Hcases.
    destruct Hcases as [[-> Hin]|[-> Hnot]].
    + auto.
    + split.
      * rewrite map_app, in_app_iff. right. left. reflexivity.
      * right. eexists. repeat split; auto.
  - subst c7. exists (set_score (calculateMembershipScore row) false row).
    split; [exact Hfind6|]. split; [discriminate|]. intros _. exact Hpipe.
Qed.

(** A stored submission of the extended server leaves its customer in the
    pipeline whenever it flags the customer as a prospect, adding a "new"
    entry only if there was none, and leaves the pipeline as it was
    otherwise. *)
Theorem part000_enrolls_flagged now rnd b db isNew cid c' :
  Part000.capture_tx now rnd b (mkConn db false) = (inr (Part000.Stored isNew cid), c') ->
  exists c,
    customer_by_id cid (conn_db c') = Some c
    /\ (is_membership_prospect c = true ->
        In cid (map pp_customer_id (prospect_pipeline (conn_db c')))
        /\ (prospect_pipeline (conn_db c') = prospect_pipeline db
            \/ exists entry,
                 prospect_pipeline (conn_db c') = (prospect_pipeline db ++ [entry])%list
                 /\ pp_customer_id entry = cid /\ pp_status entry = "new"
                 /\ ~ In cid (map pp_customer_id (prospect_pipeline db))))
    /\ (is_membership_prospect c = false ->
        prospect_pipeline (conn_db c') = prospect_pipeline db).
Proof. apply part000_stored_pipeline. Qed.

Lemma part000_enrolls_flagged_witness :
  exists c,
    customer_by_id 10 Sample.db_claimed = Some c
    /\ (is_membership_prospect c = true ->
        In 10%nat (map pp_customer_id (prospect_pipeline Sample.db_claimed))
        /\ (prospect_pipeline Sample.db_claimed = prospect_pipeline Sample.db
            \/ exists entry,
                 prospect_pipeline Sample.db_claimed
                 = (prospect_pipeline Sample.db ++ [entry])%list
                 /\ pp_customer_id entry = 10%nat /\ pp_status entry = "new"
                 /\ ~ In 10%nat (map pp_customer_id (prospect_pipeline Sample.db))))
    /\ (is_membership_prospect c = false ->
        prospect_pipeline Sample.db_claimed = prospect_pipeline Sample.db).
Proof.
  apply (part000_enrolls_flagged 5 Sample.draws Sample.form Sample.db false 10
           (mkConn Sample.db_claimed false)).
  vm_compute. reflexivity.
Defined.

(** The pipeline never holds two entries for one customer: neither a
    submission to the extended server nor a manual addition breaks that,
    and adding a customer who is already in the pipeline is refused and
    changes nothing. *)
Theorem pipeline_one_entry_per_customer db :
  NoDup (map pp_customer_id (prospect_pipeline db)) ->
  (forall now rnd b,
      NoDup (map pp_customer_id (prospect_pipeline (snd (Part000.capture now rnd b db)))))
  /\ (forall courseId customerId,
         NoDup (map pp_customer_id
                    (prospect_pipeline (snd (add_to_pipeline courseId customerId db)))))
  /\ (forall courseId cid,
         In cid (map pp_customer_id (prospect_pipeline db)) ->
         add_to_pipeline courseId (Some cid) db = (PipelineConflict, db)).
Proof.
  intros Hnodup. split; [|split].
  - intros now rnd b. unfold Part000.capture.
    destruct (Part000.capture_tx now rnd b (mkConn db false)) as [[e|[|isNew cid]] c7] eqn:Htx;
      try exact Hnodup.
    apply part000_stored_pipeline in Htx as (c & _ & Hyes & Hno).
    assert (Hpipe : NoDup (map pp_customer_id (prospect_pipeline (conn_db c7)))).
    { destruct (is_membership_prospect c).
      - destruct (Hyes eq_refl) as [_ [->|(entry & -> & Hid & _ & Hnot)]]; [exact Hnodup|].
        rewrite map_app. simpl. rewrite Hid. apply NoDup_snoc; assumption.
      - rewrite (Hno eq_refl). exact Hnodup. }
    destruct (normalizeEmail (Body.email b)); exact Hpipe.
  - intros courseId [cid|]; [|exact Hnodup]. unfold add_to_pipeline.
    destruct (existsb _ (prospect_pipeline db)) eqn:Hex; [exact Hnodup|].
    destruct (_ && _); [|exact Hnodup]. simpl. rewrite map_app. simpl.
    apply NoDup_snoc; [exact Hnodup|].
    intros (p & Hid & Hp)%in_map_iff.
    assert (existsb (fun p => bool_decide (pp_customer_id p = cid)) (prospect_pipeline db)
            = true); [|congruence].
    apply existsb_exists. exists p. split; [exact Hp|]. apply bool_decide_eq_true. exact Hid.
  - intros courseId cid (p & Hid & Hp)%in_map_iff. unfold add_to_pipeline.
    assert (Hex : existsb (fun p => bool_decide (pp_customer_id p = cid))
                          (prospect_pipeline db) = true).
    { apply existsb_exists. exists p. split; [exact Hp|]. apply bool_decide_eq_true. exact Hid. }
    rewrite Hex. reflexivity.
Qed.

Lemma pipeline_one_entry_per_customer_witness :
  (forall now rnd b,
      NoDup (map pp_customer_id
                 (prospect_pipeline (snd (Part000.capture now rnd b Sample.db_claimed)))))
  /\ (forall courseId customerId,
         NoDup (map pp_customer_id
                    (prospect_pipeline
                       (snd (add_to_pipeline courseId customerId Sample.db_claimed)))))
  /\ (forall courseId cid,
         In cid (map pp_customer_id (prospect_pipeline Sample.db_claimed)) ->
         add_to_pipeline courseId (Some cid) Sample.db_claimed
         = (PipelineConflict, Sample.db_claimed)).
Proof.
  apply (pipeline_one_entry_per_customer Sample.db_claimed).
  vm_compute. apply NoDup_cons. split; [|apply NoDup_nil; exact I].
  apply not_elem_of_nil.
Defined.

(** ** The order of the prospects list *)

Lemma before_spec (a b : Customer) :
  before a b = true
  <-> membership_score b < membership_score a
      \/ (membership_score b = membership_score a /\ visit_count b <= visit_count a).
Proof.
  unfold before. rewrite orb_true_iff, andb_true_iff, Z.ltb_lt, Z.eqb_eq, Z.leb_le.
  tauto.
Qed.

Lemma before_total (a b : Customer) : before a b = false -> before b a = true.
Proof.
  intros H. apply before_spec.
  assert (Hn : ~ (membership_score b < membership_score a
                  \/ (membership_score b = membership_score a
                      /\ visit_count b <= visit_count a))).
  { rewrite <- before_spec, H. discriminate. }
  lia.
Qed.

Lemma before_trans (a b c : Customer) :
  before a b = true -> before b c = true -> before a c = true.
Proof. rewrite !before_spec. lia. Qed.

Lemma insert_ordered_in_order (c : Customer) (l : list Customer) :
  in_order l -> in_order (insert_ordered c l).
Proof.
  induction l as [|x r IH]; simpl; [auto|].
  intros [Hx Hr]. destruct (before c x) eqn:Hcx; simpl.
  - split; [|auto]. constructor; [exact Hcx|].
    eapply Forall_impl; [exact Hx|]. intros y Hy. eapply before_trans; eassumption.
  - split; [|apply IH; exact Hr].
    apply List.Forall_forall. intros y Hy%insert_ordered_In.
    destruct Hy as [->|Hy]; [apply before_total; exact Hcx|].
    rewrite List.Forall_forall in Hx. apply Hx. exact Hy.
Qed.

Lemma firstn_in_order (n : nat) (l : list Customer) :
  in_order l -> in_order (firstn n l).
Proof.
  revert n. induction l as [|x r IH]; intros [|n]; simpl; auto.
  intros [Hx Hr]. split; [|apply IH; exact Hr].
  apply List.Forall_forall. intros y Hy%firstn_In. rewrite List.Forall_forall in Hx. auto.
Qed.

(** The prospects list comes best first: no customer is listed after one
    with a lower score, nor after one with the same score and fewer
    visits. *)
Theorem prospects_in_order courseSlug limit db :
  in_order (map fst (prospects courseSlug limit db))
  /\ (forall a b,
         before a b = true
         <-> membership_score b < membership_score a
             \/ (membership_score b = membership_score a
                 /\ visit_count b <= visit_count a)).
Proof.
  split; [|apply before_spec]. unfold prospects.
  rewrite map_map. simpl. rewrite map_id. apply firstn_in_order.
  unfold order_by. induction (List.filter _ (customers db)) as [|x r IH]; simpl; [exact I|].
  apply insert_ordered_in_order. exact IH.
Qed.

(** ** What an import leaves behind *)

Lemma kept_refl (c : Customer) : kept c c.
Proof. unfold kept. repeat split; auto. Qed.

Lemma kept_trans (a b c : Customer) : kept a b -> kept b c -> kept a c.
Proof.
  unfold kept. intros H1 H2.
  destruct H1 as (? & ? & ? & ? & ? & ? & ? & ? & ? & ? & ? & ? & ? & ? & ? & ? & ? & ?).
  destruct H2 as (? & ? & ? & ? & ? & ? & ? & ? & ? & ? & ? & ? & ? & ? & ? & ? & ? & ?).
  repeat split; try congruence; auto.
Qed.

Lemma kept_imported src (a b : Customer) : imported_as src a -> kept a b -> imported_as src b.
Proof.
  unfold imported_as, kept. intros (? & ? & ? & ? & ?).
  intros (? & ? & ? & ? & ? & ? & ? & ? & ? & ? & ? & ? & ? & ? & ? & ? & ? & ?).
  repeat split; congruence.
Qed.

Lemma kept_merge_import d ne np (c : Customer) : kept c (merge_import d ne np c).
Proof. unfold kept. simpl. repeat split; auto; intros v ->; reflexivity. Qed.

Lemma kept_all (l : list Customer) : Forall2 kept l l.
Proof. induction l; constructor; auto using kept_refl. Qed.

Lemma kept_map cid d ne np (l : list Customer) :
  Forall2 kept l
    (map (fun c => if bool_decide (cust_id c = cid) then merge_import d ne np c else c) l).
Proof.
  induction l as [|x r IH]; simpl; constructor; [|exact IH].
  destruct (bool_decide _); [apply kept_merge_import|apply kept_refl].
Qed.

Lemma customers_kept_refl src l : customers_kept src l l.
Proof. exists l, []. rewrite app_nil_r. auto using kept_all. Qed.

Lemma customers_kept_trans src a b c :
  customers_kept src a b -> customers_kept src b c -> customers_kept src a c.
Proof.
  intros (s1 & a1 & -> & Hs1 & Ha1) (s2 & a2 & -> & Hs2 & Ha2).
  apply Forall2_app_inv_l in Hs2 as (k1 & k2 & Hk1 & Hk2 & ->).
  exists k1, (k2 ++ a2)%list. rewrite <- app_assoc. split; [reflexivity|]. split.
  - clear - Hs1 Hk1. revert k1 Hk1.
    induction Hs1 as [|x y l l' Hxy Hl IH]; intros k1 Hk1; inversion Hk1; subst;
      constructor; eauto using kept_trans.
  - apply Forall_app. split; [|exact Ha2].
    clear - Ha1 Hk2. induction Hk2 as [|x y l l' Hxy Hl IH]; [constructor|].
    inversion Ha1; subst. constructor; eauto using kept_imported.
Qed.

Lemma update_customer_rows cid upd db u db' :
  update_customer cid upd db = inr (u, db') ->
  customers db'
  = map (fun c => if bool_decide (cust_id c = cid) then upd c else c) (customers db)
  /\ import_rows db' = import_rows db.
Proof.
  unfold update_customer. destruct (existsb _ _); [discriminate|].
  intros [= _ <-]. auto.
Qed.

Lemma insert_customer_rows row db i db' :
  insert_customer row db = inr (i, db') ->
  customers db' = (customers db ++ [row (next_id db)])%list
  /\ import_rows db' = import_rows db.
Proof.
  unfold insert_customer. destruct (existsb _ _); [discriminate|].
  intros [= _ <-]. auto.
Qed.

(** One record imported. *)
Lemma imported_one src importId i record (c : Conn) (l l' : Locals) (db' : Db)
    (r : ImportRow) :
  customers_kept src (customers (conn_db c)) (customers db') ->
  import_rows db' = (import_rows (conn_db c) ++ [r])%list ->
  audit_of importId i record r ->
  imported src importId i [record] (c, l) (mkConn db' false, l').
Proof.
  intros Hc Hr Ha. split; [exact Hc|]. exists [r]. simpl. auto.
Qed.

Lemma import_row_try_imported courseId importId source i row s :
  tx_failed (fst s) = false ->
  ends (import_row_try courseId importId source i row s)
       (imported source importId i [row] s).
Proof.
  destruct s as [[db failed] l]. simpl. intros ->.
  unfold import_row_try, lookup_row_customer, bind, db_query, query, modify, ret,
    select, insert_import_row.
  cbn [fst snd conn_db tx_failed].
  repeat (case_match; simplify_eq; cbn [fst snd conn_db tx_failed ends] in * );
    try reflexivity;
    (split; [reflexivity|]);
    repeat match goal with
           | H : update_customer _ _ _ = inr _ |- _ =>
               apply update_customer_rows in H; destruct H as [? ?]
           | H : insert_customer _ _ = inr _ |- _ =>
               apply insert_customer_rows in H; destruct H as [? ?]
           end;
    (eapply imported_one;
     [ cbn [conn_db customers with_import_rows];
       first [ apply customers_kept_refl
             | match goal with H : customers _ = _ |- _ => rewrite H end;
               first [ eexists; exists []; rewrite app_nil_r;
                       split; [reflexivity|]; split; [apply kept_map|constructor]
                     | eexists; eexists; split; [reflexivity|];
                       split; [apply kept_all|];
                       constructor; [|constructor];
                       unfold imported_as; simpl; auto ] ]
     | cbn [conn_db import_rows with_import_rows];
       first [ reflexivity
             | match goal with H : import_rows _ = _ |- _ => rewrite H end; reflexivity ]
     | unfold audit_of; simpl; repeat split; auto; try discriminate;
       intros; discriminate ]).
Qed.

Lemma imported_nil src importId i s : imported src importId i [] s s.
Proof.
  split; [apply customers_kept_refl|]. exists []. rewrite app_nil_r. simpl. auto.
Qed.

Lemma imported_cons src importId i record records s1 s2 s3 :
  imported src importId i [record] s1 s2 ->
  imported src importId (i + 1) records s2 s3 ->
  imported src importId i (record :: records) s1 s3.
Proof.
  intros (Hc1 & r1 & Hr1 & Ha1) (Hc2 & r2 & Hr2 & Ha2).
  split; [eapply customers_kept_trans; eassumption|].
  destruct r1 as [|r [|]]; simpl in Ha1; try tauto.
  exists (r :: r2). rewrite Hr2, Hr1, <- app_assoc. simpl. tauto.
Qed.

Lemma import_loop_imported courseId importId source records i s :
  tx_failed (fst s) = false ->
  ends (import_loop courseId importId source i records s)
       (imported source importId i records s).
Proof.
  revert i s. induction records as [|row rest IH]; intros i s Hlive.
  - simpl. split; [exact Hlive|apply imported_nil].
  - pose proof (import_row_try_imported courseId importId source i row s Hlive) as Htry.
    cbn [import_loop]. unfold bind at 1. unfold try_catch.
    destruct (import_row_try courseId importId source i row s) as [[e|[]] s1].
    + pose proof (import_row_catch_rejected importId i row e s1 Htry) as Hcatch.
      destruct (import_row_catch importId i row e s1) as [[e'|[]] s2]; simpl in *; tauto.
    + destruct Htry as [Hlive1 Hone].
      specialize (IH (i + 1) s1 Hlive1).
      destruct (import_loop courseId importId source (i + 1) rest s1) as [[e|[]] s2];
        [exact IH|].
      destruct IH as [Hlive2 Hrest]. split; [exact Hlive2|].
      eapply imported_cons; eassumption.
Qed.

(** What a batch that completes has done to [customers] and
    [import_rows]. *)
Lemma import_batch_imported courseSlug source file db importId total n m k e db' :
  import_batch courseSlug source file db = (ImportOk importId total n m k e, db') ->
  exists src f,
    source = Some src /\ file = Some f
    /\ customers_kept src (customers db) (customers db')
    /\ exists rows,
         import_rows db' = (import_rows db ++ rows)%list
         /\ audited importId 0 (records f) rows.
Proof.
  unfold import_batch, import_tx.
  destruct file as [f|]; [|discriminate].
  unfold bind at 1. unfold db_query at 1. cbn [fst snd]. rewrite select_live.
  destruct (course_by_slug (default default_slug courseSlug) db) as [course|];
    [|discriminate].
  unfold bind at 1. unfold db_query at 1, query, insert_import. cbn [fst snd conn_db tx_failed].
  destruct source as [src|]; [|discriminate].
  set (s0 := (mkConn _ false, mkLocals 0 0 0 [])).
  pose proof (import_loop_imported (course_id course) (next_id db) (default "" (Some src))
                (records f) 0 s0 eq_refl) as Hloop.
  unfold bind at 1.
  destruct (import_loop _ _ _ 0 (records f) s0) as [[err|[]] [[db1 failed] l1]];
    [discriminate|].
  destruct Hloop as [Hlive (Hkept & rows & Hrows & Haudit)].
  simpl in Hlive, Hkept, Hrows. subst failed.
  unfold bind, get_locals, db_query, query, complete_import, ret. simpl.
  intros [= <- _ _ _ _ _ <-]. simpl.
  exists src, f. repeat split; auto. exists rows. auto.
Qed.

(** An import only fills blanks.  After a batch that completes, every
    customer row that was there is still there, in place: a first name,
    last name, address, phone number or zip that was known is unchanged,
    and so is every other column, visit count and score included; the rows
    behind them are the ones the batch created, tagged with the import
    source, with no visit and no score. *)
Theorem import_fills_blanks_only courseSlug source file db importId total n m k e db' :
  import_batch courseSlug source file db = (ImportOk importId total n m k e, db') ->
  exists src, source = Some src /\ customers_kept src (customers db) (customers db').
Proof.
  intros (src & f & -> & _ & Hkept & _)%import_batch_imported. eauto.
Qed.

Lemma import_fills_blanks_only_witness :
  exists src,
    Some "generic" = Some src
    /\ customers_kept src (customers Sample.db)
         (customers (snd (import_batch None (Some "generic")
                            (Some (mkUpload "members.csv"
                                            [Sample.row_new; Sample.row_blank]))
                            Sample.db))).
Proof.
  apply (import_fills_blanks_only None (Some "generic")
           (Some (mkUpload "members.csv" [Sample.row_new; Sample.row_blank]))
           Sample.db 100 2 1 0 1 0).
  vm_compute. reflexivity.
Defined.

(** The audit trail of a batch that completes matches its records one to
    one and in order: the row of the k-th record carries the batch id, the
    row number k, the record as it came, and an outcome among created,
    matched and skipped, with a customer exactly when it is not
    skipped. *)
Theorem import_audit_trail courseSlug source file db importId total n m k e db' :
  import_batch courseSlug source file db = (ImportOk importId total n m k e, db') ->
  exists f rows,
    file = Some f
    /\ import_rows db' = (import_rows db ++ rows)%list
    /\ audited importId 0 (records f) rows.
Proof.
  intros (src & f & _ & -> & _ & rows & Hrows & Haudit)%import_batch_imported. eauto.
Qed.

Lemma import_audit_trail_witness :
  exists f rows,
    Some (mkUpload "members.csv" [Sample.row_new; Sample.row_blank]) = Some f
    /\ import_rows (snd (import_batch None (Some "generic")
                           (Some (mkUpload "members.csv"
                                           [Sample.row_new; Sample.row_blank]))
                           Sample.db))
       = (import_rows Sample.db ++ rows)%list
    /\ audited 100 0 (records f) rows.
Proof.
  apply (import_audit_trail None (Some "generic")
           (Some (mkUpload "members.csv" [Sample.row_new; Sample.row_blank]))
           Sample.db 100 2 1 0 1 0).
  vm_compute. reflexivity.
Defined.

Lemma tally_app a (r1 r2 : list ImportRow) : tally a (r1 ++ r2) = tally a r1 + tally a r2.
Proof. unfold tally. rewrite List.filter_app, length_app. lia. Qed.

Lemma tallied_refl s : tallied s s.
Proof.
  exists []. rewrite app_nil_r. unfold tally. simpl. repeat split; lia.
Qed.

Lemma tallied_trans s1 s2 s3 : tallied s1 s2 -> tallied s2 s3 -> tallied s1 s3.
Proof.
  intros (r1 & Hr1 & Hn1 & Hm1 & Hk1 & Hc1) (r2 & Hr2 & Hn2 & Hm2 & Hk2 & Hc2).
  exists (r1 ++ r2)%list. rewrite Hr2, Hr1, <- app_assoc, !tally_app.
  repeat split; lia.
Qed.

Lemma tallied_one (c : Conn) (l l' : Locals) (db' : Db) (r : ImportRow) :
  import_rows db' = (import_rows (conn_db c) ++ [r])%list ->
  newCustomers l' = newCustomers l + tally "created" [r] ->
  matchedCustomers l' = matchedCustomers l + tally "matched" [r] ->
  skippedRows l' = skippedRows l + tally "skipped" [r] ->
  Z.of_nat (length (customers db'))
  = Z.of_nat (length (customers (conn_db c))) + tally "created" [r] ->
  tallied (c, l) (mkConn db' false, l').
Proof. intros. exists [r]. simpl. auto. Qed.

Lemma import_row_try_tallied courseId importId source i row s :
  tx_failed (fst s) = false ->
  ends (import_row_try courseId importId source i row s) (tallied s).
Proof.
  destruct s as [[db failed] l]. simpl. intros ->.
  unfold import_row_try, lookup_row_customer, bind, db_query, query, modify, ret,
    select, insert_import_row.
  cbn [fst snd conn_db tx_failed].
  repeat (case_match; simplify_eq; cbn [fst snd conn_db tx_failed ends] in * );
    try reflexivity;
    (split; [reflexivity|]);
    repeat match goal with
           | H : update_customer _ _ _ = inr _ |- _ =>
               apply update_customer_rows in H; destruct H as [? ?]
           | H : insert_customer _ _ = inr _ |- _ =>
               apply insert_customer_rows in H; destruct H as [? ?]
           end;
    (eapply tallied_one;
     [ cbn [conn_db import_rows with_import_rows];
       first [ reflexivity
             | match goal with H : import_rows _ = _ |- _ => rewrite H end; reflexivity ]
     | unfold tally; simpl; lia
     | unfold tally; simpl; lia
     | unfold tally; simpl; lia
     | unfold tally; cbn [conn_db customers with_import_rows];
       try match goal with H : customers _ = _ |- _ => rewrite H end;
       rewrite ?length_map, ?length_app; simpl; lia ]).
Qed.

Lemma import_loop_tallied courseId importId source records i s :
  tx_failed (fst s) = false ->
  ends (import_loop courseId importId source i records s) (tallied s).
Proof.
  revert i s. induction records as [|row rest IH]; intros i s Hlive.
  - simpl. split; [exact Hlive|apply tallied_refl].
  - pose proof (import_row_try_tallied courseId importId source i row s Hlive) as Htry.
    cbn [import_loop]. unfold bind at 1. unfold try_catch.
    destruct (import_row_try courseId importId source i row s) as [[e|[]] s1].
    + pose proof (import_row_catch_rejected importId i row e s1 Htry) as Hcatch.
      destruct (import_row_catch importId i row e s1) as [[e'|[]] s2]; simpl in *; tauto.
    + destruct Htry as [Hlive1 Hone].
      specialize (IH (i + 1) s1 Hlive1).
      destruct (import_loop courseId importId source (i + 1) rest s1) as [[e|[]] s2];
        [exact IH|].
      destruct IH as [Hlive2 Hrest]. split; [exact Hlive2|].
      eapply tallied_trans; eassumption.
Qed.

(** The statistics of a batch that completes agree with what it wrote:
    the created, matched and skipped counts are the numbers of audit rows
    with those outcomes, and [customers] has grown by exactly the created
    count. *)
Theorem import_statistics_agree courseSlug source file db importId total n m k e db' :
  import_batch courseSlug source file db = (ImportOk importId total n m k e, db') ->
  exists rows,
    import_rows db' = (import_rows db ++ rows)%list
    /\ n = tally "created" rows
    /\ m = tally "matched" rows
    /\ k = tally "skipped" rows
    /\ Z.of_nat (length (customers db')) = Z.of_nat (length (customers db)) + n.
Proof.
  unfold import_batch, import_tx.
  destruct file as [f|]; [|discriminate].
  unfold bind at 1. unfold db_query at 1. cbn [fst snd]. rewrite select_live.
  destruct (course_by_slug (default default_slug courseSlug) db) as [course|];
    [|discriminate].
  unfold bind at 1. unfold db_query at 1, query, insert_import. cbn [fst snd conn_db tx_failed].
  destruct source as [src|]; [|discriminate].
  set (s0 := (mkConn _ false, mkLocals 0 0 0 [])).
  pose proof (import_loop_tallied (course_id course) (next_id db) (default "" (Some src))
                (records f) 0 s0 eq_refl) as Hloop.
  unfold bind at 1.
  destruct (import_loop _ _ _ 0 (records f) s0) as [[err|[]] [[db1 failed] l1]];
    [discriminate|].
  destruct Hloop as [Hlive (rows & Hrows & Hn & Hm & Hk & Hc)].
  simpl in Hlive, Hrows, Hn, Hm, Hk, Hc. subst failed.
  unfold bind, get_locals, db_query, query, complete_import, ret. simpl.
  intros [= <- _ <- <- <- _ <-]. simpl.
  exists rows. repeat split; auto; lia.
Qed.

Lemma import_statistics_agree_witness :
  exists rows,
    import_rows (snd (import_batch None (Some "generic")
                        (Some (mkUpload "members.csv"
                                        [Sample.row_new; Sample.row_blank]))
                        Sample.db))
    = (import_rows Sample.db ++ rows)%list
    /\ 1 = tally "created" rows
    /\ 0 = tally "matched" rows
    /\ 1 = tally "skipped" rows
    /\ Z.of_nat (length (customers
                           (snd (import_batch None (Some "generic")
                                   (Some (mkUpload "members.csv"
                                                   [Sample.row_new; Sample.row_blank]))
                                   Sample.db))))
       = Z.of_nat (length (customers Sample.db)) + 1.
Proof.
  apply (import_statistics_agree None (Some "generic")
           (Some (mkUpload "members.csv" [Sample.row_new; Sample.row_blank]))
           Sample.db 100 2 1 0 1 0).
  vm_compute. reflexivity.
Defined.

(** ** CSV export *)

Lemma append_cons (c : ascii) (s t : string) :
  String c s ++ t = String c (s ++ t).
Proof. reflexivity. Qed.

Lemma append_empty_l (t : string) : "" ++ t = t.
Proof. reflexivity. Qed.

Lemma append_empty_r (s : string) : s ++ "" = s.
Proof.
  induction s as [|c s IH]; [reflexivity|]. now rewrite append_cons, IH.
Qed.

Lemma append_assoc_r (a b c : string) : (a ++ b) ++ c = a ++ (b ++ c).
Proof.
  induction a as [|x a IH]; [reflexivity|]. now rewrite !append_cons, IH.
Qed.

Lemma plain_parts (s : string) :
  plain s = true ->
  includes ","%char s = false /\ includes dquote s = false
  /\ includes line_feed s = false /\ includes carriage_return s = false.
Proof.
  unfold plain, needs_quotes, has_break.
  intros [H1 H2]%andb_true_iff.
  apply negb_true_iff, orb_false_iff in H1. apply negb_true_iff, orb_false_iff in H2.
  tauto.
Qed.

(** Plain text is read as it is written. *)
Lemma csv_read_plain (s f : string) (record : list string) (rest : string) :
  plain s = true ->
  csv_read Unquoted f record (s ++ rest) = csv_read Unquoted (f ++ s) record rest.
Proof.
  intros (Hc & Hq & Hl & Hr)%plain_parts.
  revert f. induction s as [|c s IH]; intros f.
  - now rewrite append_empty_l, append_empty_r.
  - cbn [includes] in Hc, Hq, Hl, Hr.
    apply orb_false_iff in Hc as [Hc1 Hc2]. apply orb_false_iff in Hq as [Hq1 Hq2].
    apply orb_false_iff in Hl as [Hl1 Hl2]. apply orb_false_iff in Hr as [Hr1 Hr2].
    rewrite append_cons. cbn [csv_read]. rewrite Hq1, Hc1, Hl1, Hr1.
    rewrite IH by assumption. now rewrite append_assoc_r.
Qed.

(** Inside a quoted section the doubled text is read back, up to the
    closing quote, line breaks included. *)
Lemma csv_read_doubled (s f : string) (record : list string) (rest : string) :
  csv_read Quoted f record (double_quotes s ++ String dquote rest)
  = csv_read QuoteSeen (f ++ s) record rest.
Proof.
  revert f. induction s as [|c s IH]; intros f.
  - cbn [double_quotes]. rewrite append_empty_l. cbn [csv_read].
    rewrite Ascii.eqb_refl. now rewrite append_empty_r.
  - cbn [double_quotes]. destruct (Ascii.eqb c dquote) eqn:E.
    + apply Ascii.eqb_eq in E as ->.
      rewrite !append_cons. cbn [csv_read]. rewrite !Ascii.eqb_refl.
      rewrite IH. now rewrite append_assoc_r.
    + rewrite append_cons. cbn [csv_read]. rewrite E.
      rewrite IH. now rewrite append_assoc_r.
Qed.

(** After a value the reader holds its text, outside a quoted section or
    just behind the closing quote. *)
Lemma csv_read_value (v : Cell) :
  readable v = true ->
  exists st, (st = Unquoted \/ st = QuoteSeen)
    /\ forall record rest,
         csv_read Unquoted "" record (csv_value v ++ rest)
         = csv_read st (cell_text v) record rest.
Proof.
  intros Hp. destruct v as [|s|s]; cbn [csv_value cell_text].
  - exists Unquoted. split; [now left|]. intros. now rewrite append_empty_l.
  - cbn [readable] in Hp. unfold needs_quotes in Hp.
    destruct (includes ","%char s || includes dquote s) eqn:E.
    + exists QuoteSeen. split; [now right|]. intros.
      rewrite append_cons. cbn [csv_read]. rewrite Ascii.eqb_refl.
      rewrite append_assoc_r, append_cons, append_empty_l.
      now rewrite csv_read_doubled.
    + exists Unquoted. split; [now left|]. intros.
      rewrite csv_read_plain; [reflexivity|].
      unfold plain, needs_quotes. rewrite E. exact Hp.
  - exists Unquoted. split; [now left|]. intros.
    now rewrite csv_read_plain.
Qed.

Lemma csv_read_comma (st : CsvState) (f : string) (record : list string) (r : string) :
  st = Unquoted \/ st = QuoteSeen ->
  csv_read st f record (String ","%char r) = csv_read Unquoted "" (record ++ [f]) r.
Proof. intros [-> | ->]; reflexivity. Qed.

Lemma csv_read_break (st : CsvState) (f : string) (record : list string) (r : string) :
  st = Unquoted \/ st = QuoteSeen ->
  csv_read st f record (String line_feed r)
  = (record ++ [f])%list :: csv_read Unquoted "" [] r.
Proof. intros [-> | ->]; reflexivity. Qed.

Lemma csv_read_end (st : CsvState) (f : string) (record : list string) :
  csv_read st f record "" = [(record ++ [f])%list].
Proof. reflexivity. Qed.

(** A line is read field by field into the record. *)
Lemma csv_read_line (values : list Cell) :
  values <> [] ->
  forallb readable values = true ->
  forall record rest,
  exists st f init,
    (st = Unquoted \/ st = QuoteSeen)
    /\ map cell_text values = (init ++ [f])%list
    /\ csv_read Unquoted "" record (csv_line values ++ rest)
       = csv_read st f (record ++ init) rest.
Proof.
  unfold csv_line.
  induction values as [|v values IH]; intros Hne Hp record rest; [congruence|].
  cbn [forallb] in Hp. apply andb_true_iff in Hp as [Hv Hp].
  destruct (csv_read_value v Hv) as (st & Hst & Hread).
  destruct values as [|w values].
  - exists st, (cell_text v), []. split; [exact Hst|]. split; [reflexivity|].
    cbn [map join]. rewrite Hread. now rewrite app_nil_r.
  - change (join "," (map csv_value (v :: w :: values)))
      with (csv_value v ++ "," ++ join "," (map csv_value (w :: values))).
    rewrite !append_assoc_r, Hread, append_cons, append_empty_l.
    rewrite (csv_read_comma st _ _ _ Hst).
    destruct (IH ltac:(congruence) Hp (record ++ [cell_text v])%list rest)
      as (st' & f & init & Hst' & Hmap & Hrest).
    exists st', f, (cell_text v :: init). split; [exact Hst'|]. split.
    + cbn [map] in *. now rewrite Hmap.
    + rewrite Hrest. now rewrite <- app_assoc.
Qed.

(** Lines joined by line feeds are read record by record. *)
Lemma csv_read_lines (lines : list (list Cell)) :
  lines <> [] ->
  Forall (fun values => values <> [] /\ forallb readable values = true) lines ->
  csv_records (join (String line_feed "") (map csv_line lines))
  = map (map cell_text) lines.
Proof.
  unfold csv_records.
  induction lines as [|l lines IH]; intros Hne Hall; [congruence|].
  apply Forall_cons in Hall as [[Hl Hp] Hall].
  destruct lines as [|l' lines].
  - cbn [map join].
    destruct (csv_read_line l Hl Hp [] "") as (st & f & init & _ & Hmap & Hread).
    rewrite append_empty_r in Hread. rewrite Hread, csv_read_end.
    cbn [app]. now rewrite Hmap.
  - change (join (String line_feed "") (map csv_line (l :: l' :: lines)))
      with (csv_line l ++ String line_feed ""
            ++ join (String line_feed "") (map csv_line (l' :: lines))).
    destruct (csv_read_line l Hl Hp []
                (String line_feed ""
                 ++ join (String line_feed "") (map csv_line (l' :: lines))))
      as (st & f & init & Hst & Hmap & Hread).
    rewrite Hread, append_cons, append_empty_l, (csv_read_break st _ _ _ Hst).
    rewrite IH by (congruence || assumption).
    cbn [app map]. now rewrite Hmap.
Qed.

Lemma header_line (headers : list string) :
  join "," headers = csv_line (map CellOther headers).
Proof.
  unfold csv_line. rewrite map_map. cbn [csv_value]. now rewrite map_id.
Qed.

(** The text of an export is read back record by record. *)
Lemma csv_body_records (headers : list string) (rows : list (list Cell)) :
  headers <> [] ->
  forallb plain headers = true ->
  Forall (fun row => length row = length headers /\ forallb readable row = true) rows ->
  csv_records (csv_body headers rows) = headers :: map (map cell_text) rows.
Proof.
  intros Hne Hplain Hrows. unfold csv_body. rewrite header_line.
  change (csv_line (map CellOther headers) :: map csv_line rows)
    with (map csv_line (map CellOther headers :: rows)).
  rewrite csv_read_lines.
  - cbn [map]. rewrite map_map. cbn [cell_text]. now rewrite map_id.
  - discriminate.
  - constructor.
    + split; [now destruct headers|].
      rewrite forallb_forall in Hplain. apply forallb_forall.
      intros x (h & <- & Hh)%in_map_iff. cbn [readable]. auto.
    + eapply Forall_impl; [exact Hrows|]. cbn. intros row [Hlen Hp].
      split; [|exact Hp]. destruct row; [|discriminate].
      destruct headers; [congruence|discriminate].
Qed.

(** X18: the CSV text of an export, read back as CSV, gives the header
    record and then one record per row with the text of every cell in
    order, a NULL as the empty text: commas, quotes and line breaks inside
    a quoted text survive.  This holds when no text that is written without
    quotes (one without comma and quote) holds a line break; the export
    writes such a text as it is, and its row then spreads over two
    lines. *)
Theorem csv_export_reads_back (headers : list string) (rows : list (list Cell)) :
  headers <> [] ->
  forallb plain headers = true ->
  Forall (fun row => length row = length headers /\ forallb readable row = true) rows ->
  match export_csv headers rows with
  | None => rows = []
  | Some body =>
      rows <> [] /\ csv_records body = headers :: map (map cell_text) rows
  end.
Proof.
  intros Hne Hplain Hrows. unfold export_csv.
  destruct rows as [|row rows]; [reflexivity|].
  split; [discriminate|]. now apply csv_body_records.
Qed.

Lemma csv_export_reads_back_witness :
  match export_csv Sample3.headers Sample3.rows with
  | None => Sample3.rows = []
  | Some body =>
      Sample3.rows <> []
      /\ csv_records body = Sample3.headers :: map (map cell_text) Sample3.rows
  end.
Proof.
  apply (csv_export_reads_back Sample3.headers Sample3.rows).
  - discriminate.
  - reflexivity.
  - repeat constructor.
Defined.

(** ** Team management *)

Lemma nodup_map_inj {A B} (f : A -> B) (l : list A) (a b : A) :
  NoDup (map f l) -> In a l -> In b l -> f a = f b -> a = b.
Proof.
  induction l as [|x l IH]; cbn [map In]; intros Hnd Ha Hb Hf; [tauto|].
  apply NoDup_cons in Hnd as [Hx Hnd].
  destruct Ha as [->|Ha], Hb as [->|Hb]; auto.
  - exfalso. apply Hx. rewrite Hf. apply list_elem_of_In. now apply in_map.
  - exfalso. apply Hx. rewrite <- Hf. apply list_elem_of_In. now apply in_map.
Qed.

Lemma nodup_of_map {A B} (f : A -> B) (l : list A) :
  NoDup (map f l) -> NoDup l.
Proof.
  induction l as [|x l IH]; cbn [map]; intros Hnd; [constructor|].
  apply NoDup_cons in Hnd as [Hx Hnd]. apply NoDup_cons. split; [|auto].
  intros Hin. apply Hx. apply list_elem_of_In. apply in_map.
  now apply list_elem_of_In.
Qed.

(** With two active administrators, one of them is not the row [id]. *)
Lemma another_admin (id : Id) (l : list AdminUser) :
  NoDup (map admin_id l) ->
  (2 <= length (List.filter is_active_admin l))%nat ->
  exists u, In u l /\ is_active_admin u = true /\ admin_id u <> id.
Proof.
  intros Hnd Hlen.
  destruct (List.filter is_active_admin l) as [|a [|b r]] eqn:E;
    cbn [length] in Hlen; try lia.
  assert (Ha : In a (List.filter is_active_admin l)) by (rewrite E; now left).
  assert (Hb : In b (List.filter is_active_admin l)) by (rewrite E; right; now left).
  apply filter_In in Ha as [Ha Hpa]. apply filter_In in Hb as [Hb Hpb].
  assert (Hab : a <> b).
  { pose proof (List.NoDup_filter is_active_admin
                  (proj1 (NoDup_ListNoDup _) (nodup_of_map _ _ Hnd))) as Hf.
    rewrite E in Hf. apply List.NoDup_cons_iff in Hf as [Hf _].
    intros ->. apply Hf. now left. }
  destruct (decide (admin_id a = id)) as [Hid|Hid].
  - exists b. repeat split; auto. intros Hid'. apply Hab.
    apply (nodup_map_inj admin_id l); auto. congruence.
  - exists a. repeat split; auto.
Qed.

(** X19: deleting a team member never leaves the table without an active
    administrator when it had one.  The id spelled as the requester's own is
    refused, and the requester's row stays whenever the id reads as another
    uuid; the guard compares texts, so it does not cover another spelling of
    the requester's uuid.  A deletion removes the row the id reads as and
    nothing else, and every other reply leaves the table as it was. *)
Theorem delete_keeps_an_admin (uuid : string -> option Id) (requester id : string)
    (t : Team) :
  NoDup (map admin_id (admin_users t)) ->
  let '(r, t') := delete_admin_user uuid requester id t in
  (Exists (fun u => is_active_admin u = true) (admin_users t) ->
   Exists (fun u => is_active_admin u = true) (admin_users t'))
  /\ (id = requester -> r = DeleteRefused "You cannot delete your own account.")
  /\ (forall u, In u (admin_users t) -> uuid requester = Some (admin_id u) ->
                uuid id <> uuid requester -> In u (admin_users t'))
  /\ (r = DeleteOk ->
      exists target, uuid id = Some target
        /\ forall u, In u (admin_users t')
                     <-> In u (admin_users t) /\ admin_id u <> target)
  /\ (r <> DeleteOk -> t' = t).
Proof.
  intros Hnd. unfold delete_admin_user.
  destruct (String.eqb id requester) eqn:Hself.
  { repeat split; auto; discriminate. }
  apply String.eqb_neq in Hself.
  destruct (uuid id) as [target|] eqn:Huuid.
  2: { repeat split; auto; try discriminate. contradiction. }
  destruct (admin_by_id target t) as [targetUser|] eqn:Hfind.
  2: { repeat split; auto; try discriminate. contradiction. }
  destruct (bool_decide (admin_role targetUser = Some "admin")
            && (length (List.filter is_active_admin (admin_users t)) <=? 1)%nat)
    eqn:Hlast.
  { repeat split; auto; try discriminate. contradiction. }
  destruct (bool_decide (target ∈ admin_refs t)) eqn:Href.
  { repeat split; auto; try discriminate. contradiction. }
  cbn [admin_users].
  assert (Hrows : forall u,
    In u (List.filter (fun u => negb (bool_decide (admin_id u = target))) (admin_users t))
    <-> In u (admin_users t) /\ admin_id u <> target).
  { intros u. rewrite filter_In, negb_true_iff, bool_decide_eq_false. tauto. }
  unfold admin_by_id in Hfind. apply find_some in Hfind as [Htin Htid].
  apply bool_decide_eq_true in Htid.
  split_and!.
  - intros Hex. apply List.Exists_exists in Hex as (u & Hu & Hact).
    apply List.Exists_exists.
    destruct (decide (admin_id u = target)) as [Hid|Hid].
    + assert (u = targetUser) as ->
        by (apply (nodup_map_inj admin_id (admin_users t)); auto; congruence).
      assert (Hrole : bool_decide (admin_role targetUser = Some "admin") = true).
      { unfold is_active_admin in Hact. now apply andb_true_iff in Hact as [? _]. }
      rewrite Hrole in Hlast. cbn [andb] in Hlast.
      apply Nat.leb_gt in Hlast.
      destruct (another_admin target (admin_users t) Hnd) as (u' & Hu' & Hact' & Hid');
        [lia|].
      exists u'. split; [apply Hrows; auto | exact Hact'].
    + exists u. split; [apply Hrows; auto | exact Hact].
  - intros Heq. contradiction.
  - intros u Hu Hreq Hother. apply Hrows. split; [exact Hu|].
    intros Heq. apply Hother. now rewrite Hreq, Heq.
  - intros _. exists target. split; [reflexivity | exact Hrows].
  - intros Hr. now contradiction Hr.
Qed.

Lemma delete_keeps_an_admin_witness :
  let '(r, t') := delete_admin_user Sample3.uuid "a1" "b2" Sample3.team in
  (Exists (fun u => is_active_admin u = true) (admin_users Sample3.team) ->
   Exists (fun u => is_active_admin u = true) (admin_users t'))
  /\ ("b2" = "a1" -> r = DeleteRefused "You cannot delete your own account.")
  /\ (forall u, In u (admin_users Sample3.team) ->
                Sample3.uuid "a1" = Some (admin_id u) ->
                Sample3.uuid "b2" <> Sample3.uuid "a1" -> In u (admin_users t'))
  /\ (r = DeleteOk ->
      exists target, Sample3.uuid "b2" = Some target
        /\ forall u, In u (admin_users t')
                     <-> In u (admin_users Sample3.team) /\ admin_id u <> target)
  /\ (r <> DeleteOk -> t' = Sample3.team).
Proof.
  apply (delete_keeps_an_admin Sample3.uuid "a1" "b2" Sample3.team).
  apply (bool_decide_unpack (NoDup (map admin_id (admin_users Sample3.team)))).
  vm_compute. exact I.
Defined.

(** ** Customer tags *)

(** X20: attaching a tag twice is the same as attaching it once; detaching
    it afterwards leaves the customer without it, and gives back the table
    from before the attachment when the tag was not attached then.  No
    other pair of the table is touched. *)
Theorem tag_add_remove (id t : Id) (db : Db) (tg : Tagging) :
  let '(r, tg1) := add_tag id (Some t) db tg in
  add_tag id (Some t) db tg1 = (r, tg1)
  /\ (r = TagSuccess -> (id, t) ∈ customer_tags tg1)
  /\ (forall p, p <> (id, t) ->
        (p ∈ customer_tags tg1 <-> p ∈ customer_tags tg))
  /\ ((id, t) ∉ customer_tags (snd (remove_tag id t tg1)))
  /\ ((id, t) ∉ customer_tags tg -> snd (remove_tag id t tg1) = tg).
Proof.
  assert (Hback : forall tg0 : Tagging,
            customer_tags tg0 = customer_tags tg
            \/ customer_tags tg0 = {[ (id, t) ]} ∪ customer_tags tg ->
            tag_ids tg0 = tag_ids tg ->
            (id, t) ∉ customer_tags tg ->
            snd (remove_tag id t tg0) = tg).
  { intros tg0 Hct Hids Hno. unfold remove_tag. cbn [snd].
    destruct tg as [ids ct]. cbn [customer_tags tag_ids] in *.
    rewrite Hids. f_equal. destruct Hct as [-> | ->]; set_solver. }
  unfold add_tag.
  destruct (customer_by_id id db) as [c|];
    [destruct (bool_decide (t ∈ tag_ids tg)) eqn:Ht|].
  - cbn [tag_ids customer_tags]. rewrite Ht. split_and!.
    + do 2 f_equal. set_solver.
    + set_solver.
    + set_solver.
    + unfold remove_tag. cbn [snd customer_tags]. set_solver.
    + apply Hback; [now right | reflexivity].
  - rewrite Ht. split_and!.
    + reflexivity.
    + discriminate.
    + tauto.
    + unfold remove_tag. cbn [snd customer_tags]. set_solver.
    + apply Hback; [now left | reflexivity].
  - split_and!.
    + reflexivity.
    + discriminate.
    + tauto.
    + unfold remove_tag. cbn [snd customer_tags]. set_solver.
    + apply Hback; [now left | reflexivity].
Qed.

(** ** Segment filters *)

Lemma built_start (start : nat) (ps : list Param) :
  built_from start ps [] (mkBuilt [] ps start).
Proof.
  unfold built_from. cbn [conditions params nextIndex length map imap].
  rewrite app_nil_r. repeat split; lia.
Qed.

Lemma built_push_if {A} (start : nat) (ps : list Param)
    (l : list (string * string * Param)) (v : option A)
    (before_ after_ : string) (param : A -> Param) (b : Built) :
  built_from start ps l b ->
  built_from start ps (l ++ asked v before_ after_ param)
             (push_if v before_ after_ param b).
Proof.
  intros (Hc & Hp & Hn).
  destruct v as [x|]; cbn [push_if asked]; [|now rewrite app_nil_r].
  unfold built_from, push_condition. cbn [conditions params nextIndex].
  rewrite imap_app, map_app, length_app. cbn [imap map length].
  rewrite Hc, Hp, Hn, Nat.add_0_r.
  split; [reflexivity|]. split; [now rewrite <- app_assoc | lia].
Qed.

Lemma built_requested (filters : Filters) (ps : list Param) (start : nat) :
  built_from start ps (requested filters) (buildSegmentFilterSQL filters ps start).
Proof.
  assert (H : exists l, built_from start ps l (buildSegmentFilterSQL filters ps start)
                        /\ l = requested filters).
  { eexists. split.
    - unfold buildSegmentFilterSQL. cbv zeta.
      repeat apply built_push_if. apply built_start.
    - unfold requested. rewrite <- !app_assoc. reflexivity. }
  destruct H as (l & H & ->). exact H.
Qed.

(** X21: the builder turns what the filters ask for into conditions and
    values that line up: condition number [k] is the requested condition
    with the placeholder [startIndex + k], the caller's parameters are
    followed by the requested values in the same order, and [nextIndex] is
    the start index plus the number of conditions.  With the start index
    one past the caller's parameters, as every caller passes it, the value
    of a condition with placeholder [$n] is parameter number [n]. *)
Theorem segment_placeholders_line_up (filters : Filters) (ps : list Param)
    (start : nat) :
  let b := buildSegmentFilterSQL filters ps start in
  conditions b = imap (fun k r => condition_text (start + k) r) (requested filters)
  /\ params b = (ps ++ map snd (requested filters))%list
  /\ nextIndex b = (start + length (conditions b))%nat
  /\ (start = S (length ps) ->
      forall k r, requested filters !! k = Some r ->
        conditions b !! k = Some (condition_text (start + k) r)
        /\ params b !! (start + k - 1)%nat = Some (snd r)).
Proof.
  cbv zeta. destruct (built_requested filters ps start) as (Hc & Hp & Hn).
  split; [exact Hc|]. split; [exact Hp|]. split.
  - rewrite Hn, Hc. now rewrite length_imap.
  - intros -> k r Hk. split.
    + rewrite Hc, list_lookup_imap, Hk. reflexivity.
    + rewrite Hp, lookup_app_r by lia.
      replace (S (length ps) + k - 1 - length ps)%nat with k by lia.
      rewrite list_lookup_fmap, Hk. reflexivity.
Qed.

Lemma segment_placeholders_line_up_witness :
  conditions (buildSegmentFilterSQL Sample3.filters [PId 1] 2)
  = ["c.booking_source = ANY($2)"; "c.is_local = $3"; "c.membership_score >= $4"]
  /\ params (buildSegmentFilterSQL Sample3.filters [PId 1] 2)
     = [PId 1; PTexts ["golfnow"]; PBool true; PInt 50].
Proof.
  destruct (segment_placeholders_line_up Sample3.filters [PId 1] 2)
    as (Hc & Hp & _).
  split; [exact Hc | exact Hp].
Defined.

(** ** A/B tests *)

Lemma end_running_location (now : Z) (l : option Id) (t : AbTest) :
  ab_location_id (end_running now l t) = ab_location_id t.
Proof. unfold end_running. now case_match. Qed.

Lemma end_running_stops (now : Z) (l : Id) (t : AbTest) :
  running_at l (end_running now (Some l) t) = false.
Proof.
  unfold running_at, end_running.
  destruct (bool_decide (Some (ab_location_id t) = Some l)) eqn:E1;
    destruct (bool_decide (ab_is_active t = Some true)) eqn:E2;
    cbn [andb ab_location_id ab_is_active].
  - rewrite andb_false_r. reflexivity.
  - rewrite E2. now rewrite andb_false_r.
  - apply bool_decide_eq_false in E1.
    rewrite bool_decide_eq_false_2 by congruence. reflexivity.
  - rewrite E2. now rewrite andb_false_r.
Qed.

Lemma end_running_elsewhere (now : Z) (l : option Id) (t : AbTest) :
  Some (ab_location_id t) <> l -> end_running now l t = t.
Proof.
  intros Hl. unfold end_running.
  now rewrite bool_decide_eq_false_2 by exact Hl.
Qed.

Lemma filter_map_elsewhere (now : Z) (loc : option Id) (l : Id)
    (tests : list AbTest) :
  loc <> Some l ->
  List.filter (fun t => bool_decide (ab_location_id t = l))
              (map (end_running now loc) tests)
  = List.filter (fun t => bool_decide (ab_location_id t = l)) tests.
Proof.
  intros Hl. induction tests as [|t tests IH]; [reflexivity|].
  cbn [map List.filter]. rewrite end_running_location, IH.
  destruct (bool_decide (ab_location_id t = l)) eqn:E; [|reflexivity].
  apply bool_decide_eq_true in E.
  rewrite end_running_elsewhere by congruence. reflexivity.
Qed.

Lemma insert_ab_test_row (now : Z) (fresh : Id) (courseId : option Id)
    (body : AbBody) (db : Db) (test : AbTest) :
  insert_ab_test now fresh courseId body db = inr test ->
  ab_is_active test = Some true
  /\ Some (ab_location_id test) = ab_locationId body.
Proof.
  unfold insert_ab_test. intros H.
  repeat case_match; simplify_eq. now split.
Qed.

(** X22: creating an A/B test ends the test that runs at its location
    before anything is stored: after a success the new test is the only
    running test of the location, and after a rejected insert the location
    has no running test at all.  Tests of other locations are as before. *)
Theorem ab_create_one_running (now : Z) (fresh : Id) (courseId : option Id)
    (body : AbBody) (db : Db) (tests : list AbTest) :
  let '(r, tests') := create_ab_test now fresh courseId body db tests in
  (forall l t, ab_locationId body = Some l -> In t tests' ->
               running_at l t = true -> r = AbCreated t)
  /\ (forall t, r = AbCreated t ->
        In t tests' /\ ab_is_active t = Some true
        /\ Some (ab_location_id t) = ab_locationId body)
  /\ (forall l, ab_locationId body <> Some l ->
        List.filter (fun t => bool_decide (ab_location_id t = l)) tests'
        = List.filter (fun t => bool_decide (ab_location_id t = l)) tests)
  /\ (forall msg, r = AbError msg ->
        tests' = map (end_running now (ab_locationId body)) tests).
Proof.
  unfold create_ab_test.
  assert (Hended : forall l t, ab_locationId body = Some l ->
            In t (map (end_running now (ab_locationId body)) tests) ->
            running_at l t = true -> False).
  { intros l t Hl Hin Hrun. rewrite Hl in Hin.
    apply in_map_iff in Hin as (t0 & <- & _).
    now rewrite end_running_stops in Hrun. }
  destruct (insert_ab_test now fresh courseId body db) as [msg|test] eqn:Hins.
  - repeat split; try discriminate.
    + intros l t Hl Hin Hrun. exfalso. eauto.
    + intros l Hl. now apply filter_map_elsewhere.
  - destruct (insert_ab_test_row _ _ _ _ _ _ Hins) as [Hact Hloc].
    repeat split.
    + intros l t Hl Hin Hrun. apply in_app_iff in Hin as [Hin|[<-|[]]];
        [exfalso; eauto | reflexivity].
    + injection H as <-. apply in_app_iff. right. now left.
    + injection H as <-. exact Hact.
    + injection H as <-. exact Hloc.
    + intros l Hl. rewrite List.filter_app. cbn [List.filter].
      rewrite bool_decide_eq_false_2 by congruence.
      rewrite app_nil_r. now apply filter_map_elsewhere.
    + discriminate.
Qed.

(** ** Segment export *)

Lemma digits_plain (d : Decimal.uint) :
  plain (NilEmpty.string_of_uint d) = true.
Proof.
  unfold plain, needs_quotes, has_break.
  induction d; cbn [NilEmpty.string_of_uint includes]; try reflexivity;
    apply andb_true_iff in IHd as [H1 H2];
    apply negb_true_iff, orb_false_iff in H1 as [-> ->];
    apply negb_true_iff, orb_false_iff in H2 as [-> ->]; reflexivity.
Qed.

Lemma show_Z_plain (z : Z) : plain (show_Z z) = true.
Proof.
  unfold show_Z, NilZero.string_of_int, NilZero.string_of_uint.
  destruct (Z.to_int z) as [d|d]; destruct d; try reflexivity;
    match goal with
    | |- plain (NilEmpty.string_of_uint ?d) = true => apply digits_plain
    | |- plain (String ?c (NilEmpty.string_of_uint ?d)) = true =>
        pose proof (digits_plain d) as H;
        unfold plain, needs_quotes, has_break in *; cbn [includes];
        apply andb_true_iff in H as [H1 H2];
        apply negb_true_iff, orb_false_iff in H1 as [-> ->];
        apply negb_true_iff, orb_false_iff in H2 as [-> ->]; reflexivity
    end.
Qed.

Lemma bool_cell_readable (v : option bool) : readable (bool_cell v) = true.
Proof. now destruct v as [[|]|]. Qed.

(** X23: the CSV text of the segment export, read back as CSV, gives the
    header of the ten selected columns and then one record of ten fields
    per customer, in the order of the query result: the texts of the
    columns, a NULL column as the empty text.  This holds when no text
    column holds a line break without also holding a comma or a quote; the
    route answers 404 exactly when the query returns no customer. *)
Theorem segment_export_reads_back (selected : list Customer) :
  Forall (fun c => forallb (fun v => readable (text_cell v)) (exported_texts c) = true)
         selected ->
  match segment_export selected with
  | None => selected = []
  | Some body =>
      selected <> []
      /\ csv_records body
         = segment_headers
           :: map (fun c =>
                     [default "" (first_name c); default "" (last_name c);
                      default "" (email c); default "" (phone c);
                      default "" (zip c); default "" (booking_source c);
                      cell_text (bool_cell (is_local c));
                      default "" (play_frequency c);
                      show_Z (visit_count c); show_Z (membership_score c)])
                  selected
  end.
Proof.
  intros Hsel. unfold segment_export, export_csv.
  destruct selected as [|c cs]; [reflexivity|].
  split; [discriminate|].
  rewrite csv_body_records.
  - f_equal. rewrite map_map. apply map_ext. intros x.
    unfold segment_export_row. cbn [map cell_text].
    destruct (first_name x), (last_name x), (email x), (phone x), (zip x),
             (booking_source x), (play_frequency x); reflexivity.
  - discriminate.
  - reflexivity.
  - apply Forall_map. eapply Forall_impl; [exact Hsel|].
    cbn beta. intros x Hx. split; [reflexivity|].
    unfold exported_texts in Hx. cbn [forallb] in Hx.
    unfold segment_export_row. cbn [forallb].
    repeat (apply andb_true_iff in Hx as [?H Hx]).
    cbn [readable]. rewrite bool_cell_readable, !show_Z_plain.
    repeat (apply andb_true_iff; split); auto.
Qed.

Lemma segment_export_reads_back_witness :
  match segment_export [Sample.al; Sample.bea] with
  | None => [Sample.al; Sample.bea] = []
  | Some body =>
      [Sample.al; Sample.bea] <> []
      /\ csv_records body
         = segment_headers
           :: map (fun c =>
                     [default "" (first_name c); default "" (last_name c);
                      default "" (email c); default "" (phone c);
                      default "" (zip c); default "" (booking_source c);
                      cell_text (bool_cell (is_local c));
                      default "" (play_frequency c);
                      show_Z (visit_count c); show_Z (membership_score c)])
                  [Sample.al; Sample.bea]
  end.
Proof.
  apply (segment_export_reads_back [Sample.al; Sample.bea]).
  repeat constructor.
Defined.

(** ** Follow-up e-mail *)

Lemma split_join_plain (k : ascii) (key value s : string) :
  includes k s = false -> split_join (String k key) value s = s.
Proof.
  unfold split_join. induction s as [|c s IH]; intros H; [reflexivity|].
  cbn [includes] in H. apply orb_false_iff in H as [Hc Hs].
  cbn [replace_from String.prefix].
  destruct (ascii_dec k c) as [->|_].
  - now rewrite Ascii.eqb_refl in Hc.
  - now rewrite IH.
Qed.

(** X24: a subject or body without an opening brace has no placeholder and
    is rendered as it is written, whatever the data. *)
Theorem renderTemplate_plain (template : EmailTemplate) (data : TemplateData) :
  includes "{"%char (tmpl_subject template) = false ->
  includes "{"%char (tmpl_body_html template) = false ->
  renderTemplate template data = (tmpl_subject template, tmpl_body_html template).
Proof.
  intros Hs Hb. unfold renderTemplate, replacements. cbn [fold_left].
  now rewrite !(split_join_plain _ _ _ _ Hs), !(split_join_plain _ _ _ _ Hb).
Qed.

Lemma renderTemplate_plain_witness :
  renderTemplate (mkEmailTemplate 2 1 "same_day_thanks" "Thank you" "See you soon"
                                  None (Some true))
                 (mkTemplateData (Some "Pat") None None (Some 2))
  = ("Thank you", "See you soon").
Proof.
  apply (renderTemplate_plain
           (mkEmailTemplate 2 1 "same_day_thanks" "Thank you" "See you soon"
                            None (Some true))
           (mkTemplateData (Some "Pat") None None (Some 2)));
    reflexivity.
Defined.

(** X25: [queueEmail] changes nothing but the queue, and adds at most one
    row: a pending message to the stored address of an existing customer
    who has an address and has not opted out, from an active template of
    the course and type, scheduled no earlier than now. *)
Theorem queueEmail_queues_for_subscribers (now : Z) (courseId customerId : Id)
    (templateType : string) (reward_code : option string) (db : Db) (m : Mail) :
  let m' := queueEmail now courseId customerId templateType reward_code db m in
  opted_out_email m' = opted_out_email m
  /\ email_templates m' = email_templates m
  /\ email_logs m' = email_logs m
  /\ (email_queue m' = email_queue m
      \/ exists e customer template,
           email_queue m' = (email_queue m ++ [e])%list
           /\ customer_by_id customerId db = Some customer
           /\ email customer = Some (to_email e)
           /\ to_email e <> ""
           /\ ~ In customerId (opted_out_email m)
           /\ In template (email_templates m)
           /\ active_template courseId templateType template = true
           /\ eq_template_id e = Some (tmpl_id template)
           /\ eq_customer_id e = customerId
           /\ eq_course_id e = courseId
           /\ eq_status e = Some "pending"
           /\ (now <= scheduled_for e)%Z).
Proof.
  cbv zeta. unfold queueEmail.
  destruct (customer_by_id customerId db) as [customer|] eqn:Hc; [|now auto].
  destruct (email customer) as [address|] eqn:Ha; [|now auto].
  destruct (negb (truthy (Some address))
            || bool_decide (customerId ∈ opted_out_email m)) eqn:Hg; [now auto|].
  apply orb_false_iff in Hg as [Ht Ho].
  destruct (find (active_template courseId templateType) (email_templates m))
    as [template|] eqn:Hf; [|now auto].
  destruct (existsb _ (courses db)); [|now auto].
  apply find_some in Hf as [Hin Hact].
  unfold enqueue. cbn [opted_out_email email_templates email_logs email_queue].
  split_and!; try reflexivity. right.
  eexists _, customer, template. split; [reflexivity|].
  cbn [to_email eq_template_id eq_customer_id eq_course_id eq_status scheduled_for].
  split_and!; auto.
  - intros ->. cbn in Ht. discriminate.
  - apply bool_decide_eq_false in Ho. intros Hx. apply Ho.
    now apply list_elem_of_In.
  - unfold scheduled, hour. destruct (delay_hours template) as [h|]; [|lia].
    destruct (0 <? h)%Z eqn:Hh; [|lia]. apply Z.ltb_lt in Hh. lia.
Qed.

(** *** The queue run *)

Lemma In_insert_by_schedule (e x : QueuedEmail) (l : list QueuedEmail) :
  In e (insert_by_schedule x l) <-> e = x \/ In e l.
Proof.
  induction l as [|y l IH]; cbn [insert_by_schedule In]; [intuition congruence|].
  destruct (scheduled_for x <=? scheduled_for y)%Z; cbn [In];
    [intuition congruence|].
  rewrite IH. intuition congruence.
Qed.

Lemma In_order_by_schedule (e : QueuedEmail) (l : list QueuedEmail) :
  In e (order_by_schedule l) <-> In e l.
Proof.
  induction l as [|x l IH]; cbn [order_by_schedule fold_right In]; [tauto|].
  fold (order_by_schedule l). rewrite In_insert_by_schedule, IH.
  intuition congruence.
Qed.

Lemma length_insert_by_schedule (x : QueuedEmail) (l : list QueuedEmail) :
  length (insert_by_schedule x l) = S (length l).
Proof.
  induction l as [|y l IH]; cbn [insert_by_schedule length]; [reflexivity|].
  destruct (scheduled_for x <=? scheduled_for y)%Z; cbn [length]; [reflexivity|].
  now rewrite IH.
Qed.

Lemma length_order_by_schedule (l : list QueuedEmail) :
  length (order_by_schedule l) = length l.
Proof.
  induction l as [|x l IH]; cbn [order_by_schedule fold_right length]; [reflexivity|].
  fold (order_by_schedule l). now rewrite length_insert_by_schedule, IH.
Qed.

Lemma pending_batch_In (now : Z) (m : Mail) (e : QueuedEmail) :
  In e (pending_batch now m) -> In e (email_queue m) /\ due now e = true.
Proof.
  unfold pending_batch. intros H%firstn_In.
  apply (proj1 (In_order_by_schedule _ _)) in H. now apply filter_In in H.
Qed.

Lemma pending_batch_all (now : Z) (m : Mail) (e : QueuedEmail) :
  (length (List.filter (due now) (email_queue m)) <= 50)%nat ->
  In e (email_queue m) -> due now e = true -> In e (pending_batch now m).
Proof.
  intros Hlen Hin Hdue. unfold pending_batch.
  rewrite firstn_all2 by (rewrite length_order_by_schedule; exact Hlen).
  apply In_order_by_schedule. now apply filter_In.
Qed.

Lemma touched_refl (e : QueuedEmail) : touched [] e e.
Proof. unfold touched. cbn [In]. tauto. Qed.

Lemma touched_step (x : Id) (ids : list Id) (e e1 e2 : QueuedEmail) :
  touched [x] e e1 -> touched ids e1 e2 -> touched (x :: ids) e e2.
Proof.
  intros (Hi1 & Hc1 & Hk1 & Hs1) (Hi2 & Hc2 & Hk2 & Hs2).
  unfold touched. cbn [In] in *. split_and!.
  - congruence.
  - congruence.
  - intros Hno. rewrite Hk2, Hk1; [reflexivity | tauto |].
    rewrite Hi1. tauto.
  - intros Hin. destruct (in_dec Nat.eq_dec (eq_id e) ids) as [Hids|Hids].
    + apply Hs2. now rewrite Hi1.
    + rewrite Hk2 by now rewrite Hi1. apply Hs1. tauto.
Qed.

Lemma touched_queue_step (x : Id) (ids : list Id) (q q1 q2 : list QueuedEmail) :
  Forall2 (touched [x]) q q1 -> Forall2 (touched ids) q1 q2 ->
  Forall2 (touched (x :: ids)) q q2.
Proof.
  intros H1. revert q2. induction H1 as [|e e1 q q1 He H1 IH]; intros q2 H2.
  - inversion H2. constructor.
  - inversion H2 as [|? e2 ? q2' He2 H2']; subst. constructor.
    + now apply (touched_step x ids e e1 e2).
    + now apply IH.
Qed.

Lemma update_queue_touched (id : Id) (upd : QueuedEmail -> QueuedEmail) (m : Mail) :
  (forall e, eq_id (upd e) = eq_id e /\ eq_customer_id (upd e) = eq_customer_id e
             /\ (eq_status (upd e) = Some "sent" \/ eq_status (upd e) = Some "failed")) ->
  Forall2 (touched [id]) (email_queue m) (email_queue (update_queue id upd m)).
Proof.
  intros Hupd. unfold update_queue. cbn [email_queue].
  induction (email_queue m) as [|e q IH]; cbn [map]; constructor; [|exact IH].
  unfold touched. cbn [In].
  destruct (bool_decide (eq_id e = id)) eqn:E.
  - apply bool_decide_eq_true in E. destruct (Hupd e) as (? & ? & ?).
    split_and!; auto. intros Hno. exfalso. apply Hno. now left.
  - apply bool_decide_eq_false in E. split_and!; auto.
    intros [Hx|[]]. congruence.
Qed.

Lemma as_sent_marks (now : Z) (e : QueuedEmail) :
  eq_id (as_sent now e) = eq_id e
  /\ eq_customer_id (as_sent now e) = eq_customer_id e
  /\ (eq_status (as_sent now e) = Some "sent"
      \/ eq_status (as_sent now e) = Some "failed").
Proof. cbn. auto. Qed.

Lemma as_failed_marks (msg : string) (e : QueuedEmail) :
  eq_id (as_failed msg e) = eq_id e
  /\ eq_customer_id (as_failed msg e) = eq_customer_id e
  /\ (eq_status (as_failed msg e) = Some "sent"
      \/ eq_status (as_failed msg e) = Some "failed").
Proof. cbn. auto. Qed.

Lemma Forall2_impl_In {A B} (R R' : A -> B -> Prop) (l : list A) (l' : list B) :
  Forall2 R l l' -> (forall a b, In a l -> R a b -> R' a b) -> Forall2 R' l l'.
Proof.
  induction 1 as [|a b l l' Hab Hl IH]; intros HR; constructor.
  - apply HR; [now left | exact Hab].
  - apply IH. intros x y Hx. apply HR. now right.
Qed.

Lemma Forall2_Forall_r_In {A B} (R : A -> B -> Prop) (P : B -> Prop)
    (l : list A) (l' : list B) :
  Forall2 R l l' -> (forall a b, In a l -> R a b -> P b) -> Forall P l'.
Proof.
  induction 1 as [|a b l l' Hab Hl IH]; intros HR; constructor.
  - apply (HR a); [now left | exact Hab].
  - apply IH. intros x y Hx. apply HR. now right.
Qed.

(** What a run of the loop over [batch] does to the counters and the
    tables. *)
Lemma deliver_fold (now : Z)
    (sendgrid : option (QueuedEmail -> string + option string))
    (batch : list QueuedEmail) (p p' : Processed) (m m' : Mail) :
  fold_left (deliver now sendgrid) batch (p, m) = (p', m') ->
  Forall2 (touched (map eq_id batch)) (email_queue m) (email_queue m')
  /\ (sent p' + failed p' = sent p + failed p + length batch)%nat
  /\ (length (email_logs m') + sent p = length (email_logs m) + sent p')%nat
  /\ mode p' = mode p
  /\ (sendgrid = None -> failed p' = failed p)
  /\ opted_out_email m' = opted_out_email m
  /\ email_templates m' = email_templates m
  /\ mail_next_id m' = mail_next_id m.
Proof.
  revert p m. induction batch as [|e batch IH]; intros p m H.
  - cbn in H. injection H as <- <-. cbn [map length]. split_and!; auto; try lia.
    clear. induction (email_queue m); constructor; auto using touched_refl.
  - cbn [fold_left] in H.
    destruct (deliver now sendgrid (p, m) e) as [p1 m1] eqn:Hd.
    destruct (IH _ _ H) as (Hq & Hn & Hl & Hm & Hf & Ho & Ht & Hx).
    assert (Hstep :
      Forall2 (touched [eq_id e]) (email_queue m) (email_queue m1)
      /\ (sent p1 + failed p1 = sent p + failed p + 1)%nat
      /\ (length (email_logs m1) + sent p = length (email_logs m) + sent p1)%nat
      /\ mode p1 = mode p
      /\ (sendgrid = None -> failed p1 = failed p)
      /\ opted_out_email m1 = opted_out_email m
      /\ email_templates m1 = email_templates m
      /\ mail_next_id m1 = mail_next_id m).
    { unfold deliver in Hd. destruct sendgrid as [send|].
      - destruct (send e) as [msg|messageId]; injection Hd as <- <-;
          cbn [sent failed mode log_email email_queue email_logs opted_out_email
               email_templates mail_next_id];
          rewrite ?length_app; cbn [length];
          (split_and!; [apply update_queue_touched;
                         auto using as_sent_marks, as_failed_marks
                       | try (unfold update_queue; cbn; lia) ..]);
          try reflexivity; try discriminate.
      - injection Hd as <- <-.
        cbn [sent failed mode log_email email_queue email_logs opted_out_email
             email_templates mail_next_id].
        rewrite ?length_app. cbn [length].
        split_and!; [apply update_queue_touched; auto using as_sent_marks
                    | try (unfold update_queue; cbn; lia) ..];
          try reflexivity. }
    destruct Hstep as (Hq1 & Hn1 & Hl1 & Hm1 & Hf1 & Ho1 & Ht1 & Hx1).
    cbn [map length]. split_and!; try congruence; try lia.
    + now apply (touched_queue_step _ _ _ (email_queue m1)).
    + intros Hs. rewrite Hf, Hf1; auto.
Qed.

(** X26: a run of the queue processor handles the due messages, at most 50
    of them: the counters add up to the number handled, every handled row
    ends as sent or failed, one log row is written per message sent, and a
    row that is not due is left as it is.  When at most 50 messages are
    due, none is due after the run. *)
Theorem processEmailQueue_handles_due (now : Z)
    (sendgrid : option (QueuedEmail -> string + option string)) (m : Mail) :
  NoDup (map eq_id (email_queue m)) ->
  let '(p, m') := processEmailQueue now sendgrid m in
  (sent p + failed p = length (pending_batch now m))%nat
  /\ (sent p + failed p <= 50)%nat
  /\ (sendgrid = None -> failed p = 0%nat)
  /\ length (email_logs m') = (length (email_logs m) + sent p)%nat
  /\ Forall2 (fun e e' =>
                eq_id e' = eq_id e
                /\ (In e (pending_batch now m) ->
                    eq_status e' = Some "sent" \/ eq_status e' = Some "failed")
                /\ (due now e = false -> e' = e))
             (email_queue m) (email_queue m')
  /\ ((length (List.filter (due now) (email_queue m)) <= 50)%nat ->
      Forall (fun e' => due now e' = false) (email_queue m')).
Proof.
  intros Hnd. unfold processEmailQueue.
  destruct (fold_left _ _ _) as [p m'] eqn:Hrun.
  apply deliver_fold in Hrun as (Hq & Hn & Hl & _ & Hf & _).
  cbn [sent failed] in Hn, Hl, Hf.
  assert (Hrows : forall e e', In e (email_queue m) ->
            touched (map eq_id (pending_batch now m)) e e' ->
            eq_id e' = eq_id e
            /\ (In e (pending_batch now m) ->
                eq_status e' = Some "sent" \/ eq_status e' = Some "failed")
            /\ (due now e = false -> e' = e)).
  { intros e e' Hin (Hi & _ & Hk & Hs). split_and!; [exact Hi | |].
    - intros Hb. apply Hs. now apply in_map.
    - intros Hdue. apply Hk. intros Hid.
      apply in_map_iff in Hid as (b & Hbid & Hb).
      apply pending_batch_In in Hb as [Hbq Hbdue].
      assert (b = e) as -> by now apply (nodup_map_inj eq_id (email_queue m)).
      congruence. }
  split_and!.
  - lia.
  - assert (length (pending_batch now m) <= 50)%nat
      by (unfold pending_batch; rewrite length_firstn; lia).
    lia.
  - intros Hs. rewrite (Hf Hs). reflexivity.
  - lia.
  - exact (Forall2_impl_In _ _ _ _ Hq Hrows).
  - intros Hlen.
    assert (Hall : forall e e', In e (email_queue m) ->
              touched (map eq_id (pending_batch now m)) e e' -> due now e' = false).
    { intros e e' Hin (Hi & _ & Hk & Hs).
      destruct (in_dec Nat.eq_dec (eq_id e) (map eq_id (pending_batch now m)))
        as [Hid|Hid].
      - unfold due. destruct (Hs Hid) as [-> | ->]; reflexivity.
      - rewrite (Hk Hid). destruct (due now e) eqn:Hdue; [|reflexivity].
        exfalso. apply Hid. apply in_map. now apply pending_batch_all. }
    exact (Forall2_Forall_r_In _ _ _ _ Hq Hall).
Qed.

Lemma processEmailQueue_handles_due_witness :
  let '(p, m') := processEmailQueue 7 None Sample4.mail in
  (sent p + failed p = length (pending_batch 7 Sample4.mail))%nat
  /\ (sent p + failed p <= 50)%nat
  /\ (@None (QueuedEmail -> string + option string) = None -> failed p = 0%nat)
  /\ length (email_logs m') = (length (email_logs Sample4.mail) + sent p)%nat
  /\ Forall2 (fun e e' =>
                eq_id e' = eq_id e
                /\ (In e (pending_batch 7 Sample4.mail) ->
                    eq_status e' = Some "sent" \/ eq_status e' = Some "failed")
                /\ (due 7 e = false -> e' = e))
             (email_queue Sample4.mail) (email_queue m')
  /\ ((length (List.filter (due 7) (email_queue Sample4.mail)) <= 50)%nat ->
      Forall (fun e' => due 7 e' = false) (email_queue m')).
Proof.
  apply (processEmailQueue_handles_due 7 None Sample4.mail).
  apply (bool_decide_unpack (NoDup (map eq_id (email_queue Sample4.mail)))).
  vm_compute. exact I.
Defined.

(** *** Unsubscribing *)

Lemma frozen_rows (P : QueuedEmail -> bool) (q q' : list QueuedEmail) :
  Forall2 (fun e e' => P e' = P e /\ (P e = true -> e' = e)) q q' ->
  List.filter P q' = List.filter P q.
Proof.
  induction 1 as [|e e' q q' [HP He] Hq IH]; cbn [List.filter]; [reflexivity|].
  rewrite HP, IH. destruct (P e) eqn:E; [|reflexivity].
  now rewrite He.
Qed.

Lemma same_ids (q q' : list QueuedEmail) :
  Forall2 (fun e e' => eq_id e' = eq_id e) q q' -> map eq_id q' = map eq_id q.
Proof.
  induction 1 as [|e e' q q' He Hq IH]; cbn [map]; [reflexivity|].
  now rewrite He, IH.
Qed.

Lemma silenced_row (id : Id) (rows : list QueuedEmail) (m : Mail) (e : QueuedEmail) :
  silenced id rows m -> In e (email_queue m) -> eq_customer_id e = id ->
  eq_status e <> Some "pending".
Proof.
  intros (_ & Hmail & Hnp & _) Hin Hc.
  apply (proj1 (List.Forall_forall _ _) Hnp). rewrite <- Hmail.
  unfold mail_of. apply filter_In. split; [exact Hin|].
  now apply bool_decide_eq_true.
Qed.

(** Statements that keep the flags and change no row that is not pending
    keep an unsubscribed customer's rows. *)
Lemma silenced_update (id : Id) (rows : list QueuedEmail) (m m' : Mail) :
  silenced id rows m ->
  (forall x, In x (opted_out_email m) -> In x (opted_out_email m')) ->
  mail_next_id m' = mail_next_id m ->
  Forall2 (fun e e' => eq_id e' = eq_id e
                       /\ eq_customer_id e' = eq_customer_id e
                       /\ (eq_status e <> Some "pending" -> e' = e))
          (email_queue m) (email_queue m') ->
  silenced id rows m'.
Proof.
  intros Hs Ho Hn Hq.
  pose proof Hs as (Hopt & Hmail & Hnp & Hnd & Hlt).
  unfold silenced, well_keyed. split_and!.
  - auto.
  - rewrite <- Hmail. unfold mail_of. apply frozen_rows.
    apply (Forall2_impl_In _ _ _ _ Hq). intros e e' Hin (Hi & Hc & Hk).
    split; [now rewrite Hc|].
    intros HP%bool_decide_eq_true. apply Hk.
    now apply (silenced_row id rows m).
  - exact Hnp.
  - rewrite (same_ids (email_queue m) (email_queue m')); [exact Hnd|].
    apply (Forall2_impl_In _ _ _ _ Hq). now intros e e' _ (Hi & _).
  - apply (Forall2_Forall_r_In _ _ _ _ Hq). intros e e' Hin (Hi & _).
    rewrite Hi, Hn. now apply (proj1 (List.Forall_forall _ _) Hlt).
Qed.

Lemma silenced_enqueue (id : Id) (rows : list QueuedEmail) (courseId customerId : Id)
    (template : EmailTemplate) (to : string) (rendered : string * string)
    (scheduledFor : Z) (m : Mail) :
  customerId <> id ->
  silenced id rows m ->
  silenced id rows (enqueue courseId customerId template to rendered scheduledFor m).
Proof.
  intros Hne (Hopt & Hmail & Hnp & Hnd & Hlt).
  unfold silenced, well_keyed, mail_of, enqueue.
  cbn [opted_out_email email_queue mail_next_id]. split_and!.
  - exact Hopt.
  - rewrite List.filter_app. cbn [List.filter eq_customer_id].
    rewrite bool_decide_eq_false_2 by exact Hne. now rewrite app_nil_r.
  - exact Hnp.
  - rewrite map_app. cbn [map eq_id]. apply NoDup_snoc; [exact Hnd|].
    intros Hin. apply in_map_iff in Hin as (e & He & Hin).
    apply (proj1 (List.Forall_forall _ _) Hlt) in Hin. lia.
  - apply Forall_app. split.
    + eapply Forall_impl; [exact Hlt|]. cbn. intros e He. lia.
    + constructor; [cbn; lia | constructor].
Qed.

Lemma silenced_queueEmail (id : Id) (rows : list QueuedEmail) (now : Z)
    (courseId customerId : Id) (templateType : string)
    (reward_code : option string) (db : Db) (m : Mail) :
  silenced id rows m ->
  silenced id rows (queueEmail now courseId customerId templateType reward_code db m).
Proof.
  intros Hs. unfold queueEmail.
  destruct (customer_by_id customerId db) as [customer|]; [|exact Hs].
  destruct (email customer) as [address|]; [|exact Hs].
  destruct (negb (truthy (Some address))
            || bool_decide (customerId ∈ opted_out_email m)) eqn:Hg; [exact Hs|].
  apply orb_false_iff in Hg as [_ Ho]. apply bool_decide_eq_false in Ho.
  destruct (find _ (email_templates m)) as [template|]; [|exact Hs].
  destruct (existsb _ (courses db)); [|exact Hs].
  apply silenced_enqueue; [|exact Hs].
  intros ->. apply Ho. apply list_elem_of_In. now destruct Hs.
Qed.

Lemma silenced_mailing (id : Id) (rows : list QueuedEmail) (now : Z)
    (courseId : Id) (tmpl : EmailTemplate) (cs : list Customer) (acc : Mail) :
  (forall c, In c cs -> cust_id c <> id) ->
  silenced id rows acc ->
  silenced id rows
    (fold_left (fun m cust =>
                  enqueue courseId (cust_id cust) tmpl (default "" (email cust))
                          (renderTemplate tmpl
                             (mkTemplateData (first_name cust) (last_name cust)
                                             None (Some (visit_count cust))))
                          now m)
               cs acc).
Proof.
  revert acc. induction cs as [|c cs IH]; intros acc Hcs Hs; cbn [fold_left];
    [exact Hs|].
  apply IH.
  - intros x Hx. apply Hcs. now right.
  - apply silenced_enqueue; [apply Hcs; now left | exact Hs].
Qed.

Lemma silenced_segment_email (id : Id) (rows : list QueuedEmail) (now : Z)
    (sid : Id) (templateId : option Id) (segments : list Segment) (db : Db)
    (m : Mail) :
  silenced id rows m ->
  silenced id rows (snd (segment_email now sid templateId segments db m)).
Proof.
  intros Hs. unfold segment_email.
  destruct (find _ segments) as [seg|]; [|exact Hs].
  destruct (find _ (email_templates m)) as [tmpl|]; [|exact Hs].
  cbn [snd].
  assert (Hcs : forall c, In c (List.filter (segment_recipient now seg m) (customers db)) ->
                          cust_id c <> id).
  { intros c Hc%filter_In. destruct Hc as [_ Hc]. unfold segment_recipient in Hc.
    apply andb_true_iff in Hc as [Hc _]. apply andb_true_iff in Hc as [Hc _].
    apply andb_true_iff in Hc as [_ Hc]. apply negb_true_iff in Hc.
    apply bool_decide_eq_false in Hc. intros Heq. apply Hc. rewrite Heq.
    apply list_elem_of_In. now destruct Hs. }
  now apply silenced_mailing.
Qed.

Lemma silenced_unsubscribe (id : Id) (rows : list QueuedEmail) (id' : Id)
    (db : Db) (m : Mail) :
  silenced id rows m -> silenced id rows (unsubscribe id' db m).
Proof.
  intros Hs. apply (silenced_update id rows m); [exact Hs | | reflexivity |].
  - unfold unsubscribe. cbn [opted_out_email].
    intros x Hx. destruct (customer_by_id id' db); [now right | exact Hx].
  - unfold unsubscribe. cbn [email_queue].
    induction (email_queue m) as [|e q IH]; cbn [map]; constructor; [|exact IH].
    unfold cancel_pending.
    destruct (bool_decide (eq_customer_id e = id')
              && bool_decide (eq_status e = Some "pending")) eqn:E;
      cbn [eq_id eq_customer_id]; split_and!; auto.
    intros Hnp. apply andb_true_iff in E as [_ E].
    apply bool_decide_eq_true in E. contradiction.
Qed.

Lemma silenced_process (id : Id) (rows : list QueuedEmail) (now : Z)
    (sendgrid : option (QueuedEmail -> string + option string)) (m : Mail) :
  silenced id rows m ->
  silenced id rows (snd (processEmailQueue now sendgrid m)).
Proof.
  intros Hs. unfold processEmailQueue.
  destruct (fold_left _ _ _) as [p m'] eqn:Hrun. cbn [snd].
  apply deliver_fold in Hrun as (Hq & _ & _ & _ & _ & Ho & _ & Hn).
  apply (silenced_update id rows m); [exact Hs | now rewrite Ho | exact Hn |].
  apply (Forall2_impl_In _ _ _ _ Hq). intros e e' Hin (Hi & Hc & Hk & _).
  split_and!; [exact Hi | exact Hc |].
  intros Hnp. apply Hk. intros Hid.
  apply in_map_iff in Hid as (b & Hbid & Hb).
  apply pending_batch_In in Hb as [Hbq Hbdue].
  assert (b = e) as ->.
  { apply (nodup_map_inj eq_id (email_queue m)); auto. now destruct Hs as (_ & _ & _ & ? & _). }
  unfold due in Hbdue. apply andb_true_iff in Hbdue as [Hp _].
  apply bool_decide_eq_true in Hp. contradiction.
Qed.

Lemma silenced_run_ops (id : Id) (rows : list QueuedEmail) (ops : list MailOp)
    (m : Mail) :
  silenced id rows m -> silenced id rows (run_ops ops m).
Proof.
  unfold run_ops. revert m. induction ops as [|op ops IH]; intros m Hs; [exact Hs|].
  cbn [fold_left]. apply IH. destruct op; cbn [run_op].
  - now apply silenced_queueEmail.
  - now apply silenced_segment_email.
  - now apply silenced_unsubscribe.
  - now apply silenced_process.
Qed.

(** X27: once a customer has unsubscribed, none of their messages is
    pending, and whatever follows - follow-ups queued by captures, segment
    mailings, other customers unsubscribing, runs of the queue processor -
    their rows of the queue stay exactly as they are: nothing is added for
    them and nothing of theirs is sent. *)
Theorem unsubscribed_stays_silent (id : Id) (db : Db) (c : Customer) (m : Mail)
    (ops : list MailOp) :
  customer_by_id id db = Some c ->
  well_keyed m ->
  let m1 := unsubscribe id db m in
  let m2 := run_ops ops m1 in
  Forall (fun e => eq_status e <> Some "pending") (mail_of id m1)
  /\ mail_of id m2 = mail_of id m1
  /\ In id (opted_out_email m2).
Proof.
  intros Hc [Hnd Hlt]. cbv zeta.
  assert (Hs : silenced id (mail_of id (unsubscribe id db m)) (unsubscribe id db m)).
  { unfold silenced, well_keyed. split_and!.
    - unfold unsubscribe. cbn [opted_out_email]. rewrite Hc. now left.
    - reflexivity.
    - apply List.Forall_forall. intros e' He'. unfold mail_of, unsubscribe in He'.
      cbn [email_queue] in He'. apply filter_In in He' as [Hin Hcust].
      apply bool_decide_eq_true in Hcust.
      apply in_map_iff in Hin as (e & <- & _). revert Hcust. unfold cancel_pending.
      destruct (bool_decide (eq_customer_id e = id)) eqn:E1;
        destruct (bool_decide (eq_status e = Some "pending")) eqn:E2;
        cbn [andb eq_status eq_customer_id]; intros Hcust; try discriminate;
        first [ now apply bool_decide_eq_false in E2
              | apply bool_decide_eq_false in E1; contradiction ].
    - unfold unsubscribe. cbn [email_queue]. rewrite map_map.
      erewrite map_ext; [exact Hnd|].
      intros e. unfold cancel_pending. now case_match.
    - unfold unsubscribe. cbn [email_queue mail_next_id].
      apply Forall_map. eapply Forall_impl; [exact Hlt|].
      intros e He. cbn. unfold cancel_pending. now case_match. }
  pose proof (silenced_run_ops id _ ops _ Hs) as (Hopt & Hmail & Hnp & _).
  split_and!; [now destruct Hs as (_ & _ & ? & _) | exact Hmail | exact Hopt].
Qed.

Lemma unsubscribed_stays_silent_witness :
  let ops := [OpQueue 8 1 10 "followup_local" (Some "BEER-ABC123") Sample.db;
              OpProcess 100 None] in
  let m1 := unsubscribe 10 Sample.db Sample4.mail in
  let m2 := run_ops ops m1 in
  Forall (fun e => eq_status e <> Some "pending") (mail_of 10 m1)
  /\ mail_of 10 m2 = mail_of 10 m1
  /\ In 10%nat (opted_out_email m2).
Proof.
  apply (unsubscribed_stays_silent 10 Sample.db Sample.al Sample4.mail
           [OpQueue 8 1 10 "followup_local" (Some "BEER-ABC123") Sample.db;
            OpProcess 100 None]).
  - reflexivity.
  - split.
    + apply (bool_decide_unpack (NoDup (map eq_id (email_queue Sample4.mail)))).
      vm_compute. exact I.
    + repeat constructor; cbn; lia.
Defined.

(** *** Placeholders *)

Lemma includes_app (c : ascii) (a b : string) :
  includes c (a ++ b) = includes c a || includes c b.
Proof.
  induction a as [|x a IH]; [reflexivity|].
  rewrite append_cons. cbn [includes]. now rewrite IH, orb_assoc.
Qed.

Lemma replace_from_cons (key value : string) (c : ascii) (r : string) :
  replace_from 0 key value (String c r)
  = if String.prefix key (String c r)
    then value ++ replace_from (String.length key - 1) key value r
    else String c (replace_from 0 key value r).
Proof. reflexivity. Qed.

Lemma prefix_app (k s : string) : String.prefix k (k ++ s) = true.
Proof.
  induction k as [|a k IH]; [now destruct s|].
  rewrite append_cons. cbn [String.prefix].
  destruct (ascii_dec a a); [exact IH | congruence].
Qed.

Lemma replace_from_skip (k key value s : string) :
  replace_from (String.length k) key value (k ++ s) = replace_from 0 key value s.
Proof.
  induction k as [|a k IH]; [reflexivity|].
  rewrite append_cons. cbn [String.length replace_from]. exact IH.
Qed.

Lemma replace_from_plain_app (k : ascii) (key value pre rest : string) :
  includes k pre = false ->
  replace_from 0 (String k key) value (pre ++ rest)
  = pre ++ replace_from 0 (String k key) value rest.
Proof.
  induction pre as [|c pre IH]; intros H; [reflexivity|].
  cbn [includes] in H. apply orb_false_iff in H as [Hc Hp].
  rewrite !append_cons, replace_from_cons. cbn [String.prefix].
  destruct (ascii_dec k c) as [->|_].
  - now rewrite Ascii.eqb_refl in Hc.
  - now rewrite IH.
Qed.

(** The one occurrence of a key between two texts without its first
    character is replaced by the value. *)
Lemma split_join_hit (k : ascii) (key value pre post : string) :
  includes k pre = false -> includes k post = false ->
  split_join (String k key) value (pre ++ String k key ++ post)
  = pre ++ value ++ post.
Proof.
  intros Hpre Hpost. unfold split_join.
  rewrite replace_from_plain_app by exact Hpre. f_equal.
  rewrite append_cons, replace_from_cons.
  change (String k (key ++ post)) with (String k key ++ post).
  rewrite prefix_app. f_equal.
  replace (String.length (String k key) - 1)%nat with (String.length key)
    by (cbn [String.length]; lia).
  rewrite replace_from_skip.
  now apply split_join_plain.
Qed.

(** A text that holds another placeholder is left alone. *)
Lemma split_join_miss (data : TemplateData) (i j : nat)
    (ki vi kj vj pre post : string) :
  i <> j ->
  nth_error (replacements data) i = Some (ki, vi) ->
  nth_error (replacements data) j = Some (kj, vj) ->
  includes "{"%char pre = false -> includes "{"%char post = false ->
  split_join kj vj (pre ++ ki ++ post) = pre ++ ki ++ post.
Proof.
  intros Hij Hi Hj Hpre Hpost. unfold replacements in Hi, Hj.
  destruct i as [|[|[|[|i]]]]; cbn [nth_error] in Hi;
    try (destruct i; discriminate);
    injection Hi as <- <-;
    (destruct j as [|[|[|[|j]]]]; cbn [nth_error] in Hj;
     try (destruct j; discriminate);
     try congruence; injection Hj as <- <-);
    unfold split_join;
    rewrite replace_from_plain_app by exact Hpre; f_equal;
    rewrite !append_cons, append_empty_l;
    repeat (rewrite replace_from_cons;
            match goal with
            | |- context [String.prefix ?a ?b] =>
                let r := eval lazy in (String.prefix a b) in
                change (String.prefix a b) with r
            end; cbv iota; f_equal);
    now apply split_join_plain.
Qed.

(** X28: a subject and a body that each hold one placeholder, between texts
    without braces, are rendered with the placeholder replaced by its value
    as it is, and nothing else changed. *)
Theorem renderTemplate_substitutes (template : EmailTemplate)
    (data : TemplateData) (i j : nat)
    (ks vs pre post kb vb pre' post' : string) :
  nth_error (replacements data) i = Some (ks, vs) ->
  nth_error (replacements data) j = Some (kb, vb) ->
  tmpl_subject template = pre ++ ks ++ post ->
  tmpl_body_html template = pre' ++ kb ++ post' ->
  forallb (fun s => negb (includes "{"%char s)) [pre; post; vs; pre'; post'; vb]
  = true ->
  renderTemplate template data = (pre ++ vs ++ post, pre' ++ vb ++ post').
Proof.
  intros Hi Hj Hsub Hbody Hplain.
  cbn [forallb] in Hplain.
  repeat (apply andb_true_iff in Hplain as [?H%negb_true_iff Hplain]).
  assert (Htext : forall n k v a b,
    nth_error (replacements data) n = Some (k, v) ->
    includes "{"%char a = false -> includes "{"%char b = false ->
    includes "{"%char v = false ->
    fold_left (fun s '(key, value) => split_join key value s)
              (replacements data) (a ++ k ++ b)
    = a ++ v ++ b).
  { intros n k v a b Hn Ha Hb Hv.
    assert (Hdone : includes "{"%char (a ++ v ++ b) = false)
      by now rewrite !includes_app, Ha, Hv, Hb.
    assert (Hmiss : forall m km vm, m <> n ->
              nth_error (replacements data) m = Some (km, vm) ->
              split_join km vm (a ++ k ++ b) = a ++ k ++ b)
      by (intros m km vm Hmn Hm; now apply (split_join_miss data n m k v km vm)).
    pose proof (Hmiss 0%nat) as M0. pose proof (Hmiss 1%nat) as M1.
    pose proof (Hmiss 2%nat) as M2.
    unfold replacements in *. cbn [fold_left].
    destruct n as [|[|[|[|n]]]]; cbn [nth_error] in Hn;
      try (destruct n; discriminate);
      injection Hn as <- <-.
    - rewrite split_join_hit by assumption.
      now rewrite !(split_join_plain _ _ _ _ Hdone).
    - rewrite (M0 _ _ ltac:(lia) eq_refl).
      rewrite split_join_hit by assumption.
      now rewrite !(split_join_plain _ _ _ _ Hdone).
    - rewrite (M0 _ _ ltac:(lia) eq_refl), (M1 _ _ ltac:(lia) eq_refl).
      rewrite split_join_hit by assumption.
      now rewrite !(split_join_plain _ _ _ _ Hdone).
    - rewrite (M0 _ _ ltac:(lia) eq_refl), (M1 _ _ ltac:(lia) eq_refl),
              (M2 _ _ ltac:(lia) eq_refl).
      now rewrite split_join_hit by assumption. }
  assert (Hpair : forall (l : list (string * string)) (s b : string),
    fold_left (fun '(subject, html) '(key, value) =>
                 (split_join key value subject, split_join key value html))
              l (s, b)
    = (fold_left (fun s '(key, value) => split_join key value s) l s,
       fold_left (fun s '(key, value) => split_join key value s) l b)).
  { induction l as [|[k v] l IH]; intros s b; [reflexivity|].
    cbn [fold_left]. now rewrite IH. }
  unfold renderTemplate. rewrite Hpair, Hsub, Hbody.
  now rewrite (Htext i ks vs pre post), (Htext j kb vb pre' post').
Qed.

Lemma renderTemplate_substitutes_witness :
  renderTemplate (mkEmailTemplate 3 1 "followup_visitor" "Thanks, {{first_name}}!"
                                  "Your code: {{reward_code}}." None (Some true))
                 (mkTemplateData (Some "Pat") None (Some "BEER-7Q2K") (Some 2))
  = ("Thanks, " ++ "Pat" ++ "!", "Your code: " ++ "BEER-7Q2K" ++ ".").
Proof.
  apply (renderTemplate_substitutes
           (mkEmailTemplate 3 1 "followup_visitor" "Thanks, {{first_name}}!"
                            "Your code: {{reward_code}}." None (Some true))
           (mkTemplateData (Some "Pat") None (Some "BEER-7Q2K") (Some 2))
           0 2 "{{first_name}}" "Pat" "Thanks, " "!"
           "{{reward_code}}" "BEER-7Q2K" "Your code: " ".");
    reflexivity.
Defined.

(** ** Segments *)

Lemma push_if_none {A} (v : option A) (before_ after_ : string)
    (param : A -> Param) (b : Built) :
  conditions (push_if v before_ after_ param b) = [] ->
  v = None /\ conditions b = [].
Proof.
  destruct v as [x|]; cbn [push_if push_condition conditions]; [|now auto].
  intros H. now apply app_eq_nil in H as [_ H].
Qed.

(** X29: a filter for which no condition is built - nothing set, or only
    empty lists and zeros - selects every customer. *)
Theorem empty_filter_selects_all (f : Filters) (ps : list Param) (start : nat)
    (now : Z) (c : Customer) :
  conditions (buildSegmentFilterSQL f ps start) = [] ->
  segment_matches now f c = true.
Proof.
  unfold buildSegmentFilterSQL. cbv zeta. intros H.
  apply push_if_none in H as [H7 H]. apply push_if_none in H as [H6 H].
  apply push_if_none in H as [H5 H]. apply push_if_none in H as [H4 H].
  apply push_if_none in H as [H3 H]. apply push_if_none in H as [H2 H].
  apply push_if_none in H as [H1 _].
  unfold segment_matches. now rewrite H1, H2, H3, H4, H5, H6, H7.
Qed.

Lemma empty_filter_selects_all_witness :
  segment_matches 0 Sample4.no_filter Sample.al = true.
Proof.
  apply (empty_filter_selects_all Sample4.no_filter [PId 1] 2 0 Sample.al).
  reflexivity.
Defined.
